(** * CanvasScraper: a shallow embedding of the discovery and retrieval engine

    The development embeds [src/CanvasScraper.py] (class [CanvasScraper]):
    the filename sanitizer, the link classifier, the download fallback
    chain, the folder traversal, the course discovery chain and the
    orchestrating [run] loop, and proves properties of them.

    Conventions of the embedding.
    - A Python [str] is a [string]: the sequence of its UTF-8 bytes.  Every
      string operation the scraper uses ([replace] of an ASCII character,
      [strip] of ASCII characters, [endswith], [in], [split] on ASCII
      separators) acts on UTF-8 bytes exactly as it acts on code points;
      [lower] is modelled on ASCII letters.
    - Effects are explicit: a computation is a function from a [World] to an
      outcome and a new world; the outcome is a value or a raised exception.
    - The browser, the HTTP session and the operating system are an arbitrary
      state machine answering [Cmd] requests; the theorems hold for every such
      environment.
    - [logger] calls, the [tqdm] progress bar and [traceback] formatting are
      not modelled: they do not raise and they touch neither the browser nor
      the download tree. *)

From Stdlib Require Import String Ascii List Bool Arith Lia.
From Stdlib.Strings Require Import Byte.
From stdpp Require Import base tactics option list strings gmap.

Open Scope string_scope.
Open Scope nat_scope.
Open Scope list_scope.

(** ** Python string primitives *)

Module Py.

Definition chars (s : string) : list ascii := list_ascii_of_string s.
Definition of_chars (l : list ascii) : string := string_of_list_ascii l.

(** [p] is an initial segment of [l] *)
Fixpoint is_prefix (p l : list ascii) : bool :=
  match p, l with
  | [], _ => true
  | _ :: _, [] => false
  | a :: p', b :: l' => Ascii.eqb a b && is_prefix p' l'
  end.

(** [p] occurs somewhere in [l] *)
Fixpoint has_infix (p l : list ascii) : bool :=
  is_prefix p l ||
  match l with
  | [] => false
  | _ :: l' => has_infix p l'
  end.

(** [sub in s] *)
Definition contains (sub s : string) : bool := has_infix (chars sub) (chars s).

(** [s.startswith(p)] *)
Definition startswith (s p : string) : bool := is_prefix (chars p) (chars s).

(** [s.endswith(suf)] *)
Definition endswith (s suf : string) : bool :=
  is_prefix (rev (chars suf)) (rev (chars s)).

(** [s.endswith((x, y, ...))] with a tuple of suffixes *)
Definition endswith_any (s : string) (sufs : list string) : bool :=
  existsb (endswith s) sufs.

Definition is_upper (c : ascii) : bool :=
  (65 <=? nat_of_ascii c) && (nat_of_ascii c <=? 90).

Definition lower_char (c : ascii) : ascii :=
  if is_upper c then ascii_of_nat (nat_of_ascii c + 32) else c.

(** [s.lower()] *)
Definition lower (s : string) : string := of_chars (map lower_char (chars s)).

Definition subst_char (old new c : ascii) : ascii :=
  if Ascii.eqb c old then new else c.

(** [s.replace(old, new)] for one-character [old] and [new] *)
Definition replace_char (old new : ascii) (s : string) : string :=
  of_chars (map (subst_char old new) (chars s)).

Definition mem_char (c : ascii) (cs : list ascii) : bool :=
  existsb (Ascii.eqb c) cs.

Fixpoint lstrip_chars (cs l : list ascii) : list ascii :=
  match l with
  | [] => []
  | c :: l' => if mem_char c cs then lstrip_chars cs l' else l
  end.

Definition strip_chars (cs l : list ascii) : list ascii :=
  rev (lstrip_chars cs (rev (lstrip_chars cs l))).

(** [s.strip(cs)] *)
Definition strip (s cs : string) : string :=
  of_chars (strip_chars (chars cs) (chars s)).

(** the characters of Python's [string.whitespace] *)
Definition whitespace : list ascii :=
  [" "; "009"; "010"; "011"; "012"; "013"]%char.

Definition is_whitespace (c : ascii) : bool := mem_char c whitespace.

(** [s.strip()] *)
Definition strip_ws (s : string) : string :=
  of_chars (strip_chars whitespace (chars s)).

(** [s.split(sep)] for a non-empty separator: [skip] counts the characters
    of a matched separator still to be consumed, [cur] is the current piece
    in reverse. *)
Fixpoint split_go (sep : list ascii) (skip : nat) (cur l : list ascii)
  : list (list ascii) :=
  match l with
  | [] => [rev cur]
  | c :: l' =>
      match skip with
      | S k => split_go sep k cur l'
      | O =>
          if is_prefix sep l
          then rev cur :: split_go sep (length sep - 1) [] l'
          else split_go sep 0 (c :: cur) l'
      end
  end.

Definition split (s sep : string) : list string :=
  map of_chars (split_go (chars sep) 0 [] (chars s)).

Definition is_digit (c : ascii) : bool :=
  (48 <=? nat_of_ascii c) && (nat_of_ascii c <=? 57).

(** [s.isdigit()] *)
Definition isdigit (s : string) : bool :=
  negb (String.eqb s EmptyString) && forallb is_digit (chars s).

(** the part of [l] after its last ["/"], scanning with the piece after
    the most recent separator in [cur] (reversed) *)
Fixpoint basename_go (cur l : list ascii) : list ascii :=
  match l with
  | [] => rev cur
  | c :: l' => if Ascii.eqb c "/" then basename_go [] l' else basename_go (c :: cur) l'
  end.

(** [os.path.basename(p)] on a POSIX system *)
Definition basename (p : string) : string := of_chars (basename_go [] (chars p)).

(** [os.path.join(a, b)] on a POSIX system *)
Definition join (a b : string) : string :=
  if startswith b "/" then b
  else if String.eqb a EmptyString || endswith a "/" then a +:+ b
  else a +:+ "/" +:+ b.

End Py.

(** ** The filename sanitizer and the link classifier *)

Definition invalid_chars : list ascii :=
  ["<"; ">"; ":"; "034"; "/"; "\"; "|"; "?"; "*"]%char.

(** [for char in invalid_chars: filename = filename.replace(char, '_')] *)
Definition replace_invalid (filename : string) : string :=
  fold_left (fun name char => Py.replace_char char "_" name) invalid_chars filename.

Definition _sanitize_filename (filename : string) : string :=
  let filename := replace_invalid filename in
  let filename := Py.strip filename ". " in
  if String.eqb filename EmptyString then "unnamed" else filename.

(** the list [file_extensions] of [_is_downloadable_link] *)
Definition file_extensions : list string :=
  [".pdf"; ".doc"; ".docx"; ".ppt"; ".pptx"; ".xls"; ".xlsx"; ".txt"; ".zip";
   ".jpg"; ".jpeg"; ".png"; ".gif"; ".mp3"; ".mp4"; ".mov"; ".avi"].

Definition _is_downloadable_link (url : string) : bool :=
  if String.eqb url EmptyString then false
  else if Py.contains "/files/" url
          && (Py.contains "/download" url || Py.contains "?download=1" url
              || Py.contains "?download_frd=1" url)
  then true
  else existsb (fun ext => Py.endswith (Py.lower url) ext
                           || Py.contains (ext +:+ "?") (Py.lower url))
         file_extensions.

(** the tuple given to [endswith] at the download sites that append a
    default extension *)
Definition document_extensions : list string :=
  [".pdf"; ".doc"; ".docx"; ".ppt"; ".pptx"; ".xls"; ".xlsx"; ".txt"; ".zip"].

(** [safe_file_name = self._sanitize_filename(file_name)] followed by
    [if not safe_file_name.endswith((...)): safe_file_name += '.pdf'] *)
Definition safe_name_with_default_extension (file_name : string) : string :=
  let safe_file_name := _sanitize_filename file_name in
  if negb (Py.endswith_any safe_file_name document_extensions)
  then safe_file_name +:+ ".pdf"
  else safe_file_name.


(** ** Exceptions, the environment and the world *)

Inductive Exn : Type :=
| TimeoutException          (* selenium.common.exceptions.TimeoutException *)
| Exception (name : string) (* any other subclass of [Exception] *).

Inductive Outcome (A : Type) : Type :=
| Ok (a : A)
| Raise (e : Exn).
Arguments Ok {A} a.
Arguments Raise {A} e.

Definition is_ok {A} (r : Outcome A) : bool :=
  match r with Ok _ => true | Raise _ => false end.

(** a [WebElement] is an opaque handle interpreted by the driver *)
Definition Elem := nat.

Inductive By : Type :=
| ByClassName (value : string)
| ByCssSelector (value : string)
| ByTagName (value : string)
| ByXpath (value : string).

(** the ['content-length'] header: absent, an integer, or not an integer *)
Inductive ContentLength : Type :=
| NoContentLength
| ContentLengthInt (n : nat)
| ContentLengthMalformed.

(** a streamed [requests] response: [iter_content] yields [resp_chunks] and
    then, when [resp_stream_error] is set, raises it *)
Record Response : Type := mkResponse {
  status_code : nat;
  resp_content_length : ContentLength;
  resp_chunks : list (list byte);
  resp_stream_error : option Exn
}.

(** what [login] leaves behind: whether [self.driver] was created, and its
    return value *)
Record LoginResult : Type := mkLoginResult {
  login_created_driver : bool;
  login_returned : bool
}.

(** the requests the scraper sends to the browser, the HTTP session and the
    operating system; a Python [None] argument is [None] *)
Inductive Cmd : Type -> Type :=
| DriverGet (url : option string) : Cmd unit
| CurrentUrl : Cmd string
| FindElements (by_ : By) : Cmd (list Elem)
| WaitPresence (timeout : nat) (by_ : By) : Cmd Elem
| WaitClickable (timeout : nat) (by_ : By) : Cmd Elem
| GetAttribute (el : Elem) (name : string) : Cmd (option string)
| Text (el : Elem) : Cmd string
| ElFindElement (el : Elem) (by_ : By) : Cmd Elem
| ElFindElements (el : Elem) (by_ : By) : Cmd (list Elem)
| Click (el : Elem) : Cmd unit
| SaveScreenshot (name : string) : Cmd unit
| SessionGet (url : option string) : Cmd Response
| Makedirs (path : string) : Cmd unit
| OpenWrite (path : string) : Cmd unit
| Login : Cmd LoginResult
| Quit : Cmd unit.

Record Course : Type := mkCourse {
  c_id : string;
  c_name : string;
  c_url : string
}.

(** the calls the trace brackets *)
Inductive Call : Type :=
| CallDownload (file_url : option string) (file_path : string)
| CallFolder (current_dir folder_url : string)
| CallCourse (course : Course)
| CallDashboard
| CallTable
| CallListView.

(** The trace of a run: requests in the order they were sent, each with
    the answer it got, sleeps, and one [ECall] node per bracketed call
    holding the events of that call and whether it returned ([true]) or
    raised ([false]). *)
#[warnings="-register-all"]
Inductive Event : Type :=
| ECmd {A : Type} (c : Cmd A) (answer : Outcome A)
| ESleep (seconds : nat)
| ECall (f : Call) (returned : bool) (body : list Event).

(** configuration of a [CanvasScraper] object, the interpreter's recursion
    limit, and the two standard-library functions the embedding takes as
    given *)
Record Config : Type := mkConfig {
  canvas_url : string;
  base_download_dir : string;
  skip_existing : bool;
  delay : nat;
  recursion_limit : nat;                           (* [sys.getrecursionlimit()] *)
  urlparse_path : option string -> Outcome string; (* [urlparse(url).path] *)
  unquote : string -> string                       (* [urllib.parse.unquote] *)
}.

Record World (Env : Type) : Type := mkWorld {
  w_env : Env;                          (* browser, session, operating system *)
  w_fs : gmap string (list byte);     (* regular files of the download tree *)
  w_driver : bool;                    (* truth value of [self.driver] *)
  w_trace : list Event
}.
Arguments mkWorld {Env}.
Arguments w_env {Env}.
Arguments w_fs {Env}.
Arguments w_driver {Env}.
Arguments w_trace {Env}.

Definition Handler (Env : Type) : Type := forall A, Cmd A -> Env -> Outcome A * Env.

(** ** The effect monad *)

Definition M (Env A : Type) : Type := World Env -> Outcome A * World Env.

#[export] Instance M_ret {Env} : MRet (M Env) := fun A a w => (Ok a, w).

#[export] Instance M_bind {Env} : MBind (M Env) := fun A B k m w =>
  match m w with
  | (Ok a, w') => k a w'
  | (Raise e, w') => (Raise e, w')
  end.

Definition raise {Env A} (e : Exn) : M Env A := fun w => (Raise e, w).

(** the outcome of a pure library function *)
Definition of_outcome {Env A} (r : Outcome A) : M Env A := fun w => (r, w).

(** run [m] and hand its outcome back as a value *)
Definition attempt {Env A} (m : M Env A) : M Env (Outcome A) := fun w =>
  let '(r, w') := m w in (Ok r, w').

(** [try: m  except Exception as e: h e] *)
Definition try_except {Env A} (m : M Env A) (h : Exn -> M Env A) : M Env A := fun w =>
  match m w with
  | (Ok a, w') => (Ok a, w')
  | (Raise e, w') => h e w'
  end.

(** [try: m  except TimeoutException: h] *)
Definition try_except_timeout {Env A} (m : M Env A) (h : M Env A) : M Env A := fun w =>
  match m w with
  | (Raise TimeoutException, w') => h w'
  | r => r
  end.

(** [try: m  finally: f] *)
Definition try_finally {Env A} (m : M Env A) (f : M Env unit) : M Env A := fun w =>
  let '(r, w1) := m w in
  match f w1 with
  | (Ok _, w2) => (r, w2)
  | (Raise e, w2) => (Raise e, w2)
  end.

Definition emit {Env} (ev : Event) : M Env unit := fun w =>
  (Ok tt, mkWorld (w_env w) (w_fs w) (w_driver w) (w_trace w ++ [ev])).

(** [time.sleep(seconds)] *)
Definition sleep {Env} (seconds : nat) : M Env unit := emit (ESleep seconds).

(** send a request to the environment *)
Definition call {Env A} (handle : Handler Env) (c : Cmd A) : M Env A := fun w =>
  let '(r, s') := handle A c (w_env w) in
  (r, mkWorld s' (w_fs w) (w_driver w) (w_trace w ++ [ECmd c r])).

(** bracket the events that [m] appends under one [ECall] node *)
Definition scope {Env A} (f : Call) (m : M Env A) : M Env A := fun w =>
  let '(r, w') := m w in
  (r, mkWorld (w_env w') (w_fs w') (w_driver w')
        (w_trace w ++ [ECall f (is_ok r) (drop (length (w_trace w)) (w_trace w'))])).

Definition get_fs {Env} : M Env (gmap string (list byte)) := fun w => (Ok (w_fs w), w).

Definition modify_fs {Env} (f : gmap string (list byte) -> gmap string (list byte))
  : M Env unit := fun w =>
  (Ok tt, mkWorld (w_env w) (f (w_fs w)) (w_driver w) (w_trace w)).

Definition get_driver {Env} : M Env bool := fun w => (Ok (w_driver w), w).

Definition set_driver {Env} (b : bool) : M Env unit := fun w =>
  (Ok tt, mkWorld (w_env w) (w_fs w) b (w_trace w)).

(** [for x in xs: body x] *)
Fixpoint for_each {Env A} (xs : list A) (body : A -> M Env unit) : M Env unit :=
  match xs with
  | [] => mret tt
  | x :: xs' => body x ;; for_each xs' body
  end.

(** a [for] loop whose body updates local variables [st] *)
Fixpoint for_fold {Env A St} (xs : list A) (body : A -> St -> M Env St) (st : St)
  : M Env St :=
  match xs with
  | [] => mret st
  | x :: xs' => st' ← body x st; for_fold xs' body st'
  end.

(** a method call on a value that may be [None]: [AttributeError] *)
Definition require_str {Env} (o : option string) : M Env string :=
  match o with
  | Some s => mret s
  | None => raise (Exception "AttributeError")
  end.

(** [sub in o] where [o] may be [None]: [TypeError] *)
Definition contains_in {Env} (sub : string) (o : option string) : M Env bool :=
  match o with
  | Some s => mret (Py.contains sub s)
  | None => raise (Exception "TypeError")
  end.

(** Python's truth value of a string-or-[None] *)
Definition truthy (o : option string) : bool :=
  match o with
  | Some s => negb (String.eqb s EmptyString)
  | None => false
  end.

(** ** The scraper *)

Section Scraper.
Context {Env : Type} (handle : Handler Env) (cfg : Config).

Abbreviation M := (M Env).
Abbreviation call := (call handle).

Definition _take_screenshot (name : string) : M unit :=
  driver ← get_driver;
  if (driver : bool)
  then try_except (call (SaveScreenshot name)) (fun _ => mret tt)
  else mret tt.

(** *** Download fallback chain *)

Definition path_exists (fs : gmap string (list byte)) (path : string) : bool :=
  bool_decide (is_Some (fs !! path)).

Definition getsize (fs : gmap string (list byte)) (path : string) : nat :=
  length (default [] (fs !! path)).

(** [open(path, "wb")]: the environment may refuse; otherwise the file
    exists and is empty *)
Definition open_wb (path : string) : M unit :=
  call (OpenWrite path);;
  modify_fs (insert path []).

(** [f.write(chunk)] *)
Definition write_chunk (path : string) (chunk : list byte) : M unit :=
  modify_fs (fun fs => <[path := default [] (fs !! path) ++ chunk]> fs).

(** [int(response.headers.get('content-length', 0))] *)
Definition content_length (response : Response) : M nat :=
  match resp_content_length response with
  | NoContentLength => mret 0
  | ContentLengthInt n => mret n
  | ContentLengthMalformed => raise (Exception "ValueError")
  end.

(** [_format_size] computes a log message; what the caller can observe is
    the [IndexError] of [size_names[i]] for [i > 4].  [math.log(n, 1024)]
    is taken as the exact integer logarithm. *)
Definition _format_size (size_bytes : nat) : M unit :=
  if (size_bytes =? 0) then mret tt
  else if (5 <=? Nat.log2 size_bytes / 10)
       then raise (Exception "IndexError")
       else mret tt.

Definition _save_file_with_progress (response : Response) (file_path : string)
  : M unit :=
  file_size ← content_length response;
  open_wb file_path;;
  for_each (resp_chunks response)
    (fun chunk => if bool_decide (chunk = []) then mret tt
                  else write_chunk file_path chunk);;
  match resp_stream_error response with
  | Some e => raise e
  | None => mret tt
  end;;
  _format_size file_size.

(** [response.raise_for_status()] *)
Definition raise_for_status (response : Response) : M unit :=
  if (400 <=? status_code response) && (status_code response <? 600)
  then raise (Exception "HTTPError")
  else mret tt.

(** the body of [_download_file] after the skip-existing check *)
Definition download_attempt (file_url : option string) (file_path : string)
  : M bool :=
  let file_name := Py.basename file_path in
  call (DriverGet file_url);;
  sleep (delay cfg);;
  _take_screenshot ("file_preview_" +:+ _sanitize_filename file_name);;
  button ← try_except_timeout
    (b ← call (WaitClickable 15 (ByCssSelector "a.icon-download"));
     mret (Some b))
    (try_except_timeout
       (b ← call (WaitClickable 10
                    (ByCssSelector ".file_download_btn, .file-download-btn, a[download]"));
        mret (Some b))
       (mret None));
  match button with
  | None =>
      _take_screenshot ("no_download_button_" +:+ _sanitize_filename file_name);;
      response ← call (SessionGet file_url);
      if (status_code response =? 200)
      then _save_file_with_progress response file_path;; mret true
      else mret false
  | Some download_button =>
      download_url ← call (GetAttribute download_button "href");
      response ← call (SessionGet download_url);
      raise_for_status response;;
      _save_file_with_progress response file_path;;
      mret true
  end.

(** the [except Exception] handler of [_download_file] *)
Definition download_failed (file_path : string) : M bool :=
  let file_name := Py.basename file_path in
  _take_screenshot ("download_error_" +:+ _sanitize_filename file_name);;
  try_except (open_wb file_path) (fun _ => mret tt);;
  mret false.

Definition _download_file (file_url : option string) (file_path : string)
  : M bool :=
  scope (CallDownload file_url file_path)
    (try_except
       (fs ← get_fs;
        if skip_existing cfg && path_exists fs file_path
        then if (0 <? getsize fs file_path)
             then mret true
             else download_attempt file_url file_path
        else download_attempt file_url file_path)
       (fun _ => download_failed file_path)).

(** *** Folder traversal *)

(** the part of the first loop's body that runs before [folder_name] is
    assigned: [Some] for a folder row, with its name element and name *)
Definition folder_row (item : Elem) : M (option (Elem * string)) :=
  item_classes ← call (GetAttribute item "class");
  is_folder ← contains_in "ef-item-folder" item_classes;
  if (is_folder : bool)
  then
    folder_name_element ← call (ElFindElement item (ByClassName "ef-name-col__text"));
    text ← call (Text folder_name_element);
    mret (Some (folder_name_element, Py.strip_ws text))
  else mret None.

Definition subfolder_error (folder_name : string) : M unit :=
  _take_screenshot ("subfolder_error_" +:+ _sanitize_filename folder_name).

(** One iteration of [for item in items] of the first loop.  The local
    variables [items] and [folder_name] are the loop state: an exception
    leaves them as they were when it was raised. *)
Definition descend_item (recur : string -> string -> M unit)
    (current_dir folder_url : string) (item : Elem)
    (st : list Elem * string) : M (list Elem * string) :=
  let '(items, folder_name) := st in
  r ← attempt (folder_row item);
  match r with
  | Raise _ => subfolder_error folder_name;; mret (items, folder_name)
  | Ok None => mret (items, folder_name)
  | Ok (Some (folder_name_element, folder_name)) =>
      try_except
        (let safe_folder_name := _sanitize_filename folder_name in
         let subfolder_path := Py.join current_dir safe_folder_name in
         call (Makedirs subfolder_path);;
         call (Click folder_name_element);;
         sleep (delay cfg);;
         subfolder_url ← call CurrentUrl;
         recur subfolder_path subfolder_url;;
         call (DriverGet (Some folder_url));;
         sleep (delay cfg);;
         call (WaitPresence 15 (ByClassName "ef-directory"));;
         sleep (delay cfg);;
         items ← call (FindElements (ByClassName "ef-item-row"));
         mret (items, folder_name))
        (fun _ => subfolder_error folder_name;; mret (items, folder_name))
  end.

(** one iteration of the second loop *)
Definition download_item (current_dir : string) (item : Elem) : M unit :=
  try_except
    (item_classes ← call (GetAttribute item "class");
     is_folder ← contains_in "ef-item-folder" item_classes;
     if negb is_folder
     then
       file_name_element ← call (ElFindElement item (ByClassName "ef-name-col__text"));
       text ← call (Text file_name_element);
       let file_name := Py.strip_ws text in
       let safe_file_name := _sanitize_filename file_name in
       file_link ← call (ElFindElement item (ByCssSelector "a.ef-name-col__link"));
       file_url ← call (GetAttribute file_link "href");
       _download_file file_url (Py.join current_dir safe_file_name);;
       mret tt
     else mret tt)
    (fun _ => mret tt).

(** navigate to the folder and wait for its listing: [None] when the
    listing marker never appears *)
Definition open_listing (current_dir folder_url : string)
  : M (option (list Elem)) :=
  let folder_name := Py.basename current_dir in
  call (DriverGet (Some folder_url));;
  sleep (delay cfg);;
  _take_screenshot ("folder_" +:+ _sanitize_filename folder_name);;
  loaded ← try_except_timeout
    (call (WaitPresence 15 (ByClassName "ef-directory"));; mret true)
    (mret false);
  if (loaded : bool)
  then
    sleep (delay cfg);;
    items ← call (FindElements (ByClassName "ef-item-row"));
    mret (Some items)
  else mret None.

(** "First, process all subfolders": the listing is opened and the first
    loop runs over the rows found; the result is the value of [items]
    after the loop *)
Definition descend_subfolders (recur : string -> string -> M unit)
    (current_dir folder_url : string) : M (option (list Elem)) :=
  listing ← open_listing current_dir folder_url;
  match listing with
  | None => mret None
  | Some items =>
      st ← for_fold items (descend_item recur current_dir folder_url)
             (items, Py.basename current_dir);
      mret (Some (fst st))
  end.

(** "Then, process all files" *)
Definition download_files (current_dir : string) (listing : option (list Elem))
  : M unit :=
  match listing with
  | None => mret tt
  | Some items => for_each items (download_item current_dir)
  end.

(** [limit] is the interpreter's recursion limit: exceeding it raises
    [RecursionError] *)
Fixpoint _process_folder (limit : nat) (current_dir folder_url : string)
  : M unit :=
  match limit with
  | O => raise (Exception "RecursionError")
  | S limit' =>
      scope (CallFolder current_dir folder_url)
        (listing ← descend_subfolders (_process_folder limit')
                     current_dir folder_url;
         download_files current_dir listing)
  end.

(** *** Course discovery chain *)

(** [xs[1]] *)
Definition index1 (xs : list string) : M string :=
  match xs with
  | _ :: x :: _ => mret x
  | _ => raise (Exception "IndexError")
  end.

(** [course_url.split("/courses/")[1].split("/")] *)
Definition course_path_parts (course_url : string) : M (list string) :=
  rest ← index1 (Py.split course_url "/courses/");
  mret (Py.split rest "/").

(** [course_url.split("/courses/")[1].split("/")[0]] *)
Definition extract_course_id (course_url : string) : M string :=
  parts ← course_path_parts course_url;
  match parts with
  | x :: _ => mret x
  | [] => raise (Exception "IndexError")
  end.

Definition dashboard_card (card : Elem) (courses : list Course)
  : M (list Course) :=
  try_except
    (title_element ← call (ElFindElement card
                             (ByClassName "ic-DashboardCard__header-title"));
     text ← call (Text title_element);
     let course_name := Py.strip_ws text in
     link_element ← call (ElFindElement card
                            (ByCssSelector "a.ic-DashboardCard__link"));
     href ← call (GetAttribute link_element "href");
     course_url ← require_str href;
     course_id ← extract_course_id course_url;
     mret (courses ++ [mkCourse course_id course_name course_url]))
    (fun _ => mret courses).

Definition _get_courses_from_dashboard : M (list Course) :=
  scope CallDashboard
    (try_except
       (cards ← call (FindElements (ByClassName "ic-DashboardCard"));
        match cards with
        | [] => mret []
        | _ :: _ =>
            call (WaitPresence 10 (ByClassName "ic-DashboardCard"));;
            course_cards ← call (FindElements (ByClassName "ic-DashboardCard"));
            for_fold course_cards dashboard_card []
        end)
       (fun _ => mret [])).

Definition table_row (row : Elem) (courses : list Course) : M (list Course) :=
  try_except
    (course_link ← call (ElFindElement row (ByCssSelector "a[href*='/courses/']"));
     text ← call (Text course_link);
     let course_name := Py.strip_ws text in
     href ← call (GetAttribute course_link "href");
     has_marker ← contains_in "/courses/" href;
     if (has_marker : bool)
     then
       course_url ← require_str href;
       course_id ← extract_course_id course_url;
       mret (courses ++ [mkCourse course_id course_name course_url])
     else mret courses)
    (fun _ => mret courses).

Definition _get_courses_from_all_courses_table : M (list Course) :=
  scope CallTable
    (try_except
       (current_url ← call CurrentUrl;
        (if negb (Py.contains "all_courses" current_url)
         then
           all_courses_links ← call (FindElements (ByXpath
             "//a[contains(text(), 'All Courses') or contains(@title, 'All Courses')]"));
           match all_courses_links with
           | first :: _ => call (Click first);; sleep (delay cfg)
           | [] =>
               call (DriverGet (Some (canvas_url cfg +:+ "/courses/all_courses")));;
               sleep (delay cfg)
           end
         else mret tt);;
        _take_screenshot "all_courses_page";;
        call (WaitPresence 10 (ByCssSelector "table.course-list, table.ic-Table"));;
        course_rows ← call (FindElements
                              (ByCssSelector "table.course-list tr, table.ic-Table tr"));
        for_fold (tail course_rows) table_row [])
       (fun _ => _take_screenshot "table_courses_error";; mret [])).

Definition navigation_labels : list string :=
  ["all courses"; "dashboard"; "courses"].

Definition list_link (link : Elem) (courses : list Course) : M (list Course) :=
  try_except
    (href ← call (GetAttribute link "href");
     is_all ← contains_in "/courses/all" href;
     course_url ← require_str href;
     if is_all || Py.contains "/courses/favorites" course_url
        || Py.contains "/courses/search" course_url
     then mret courses
     else if Py.contains "/courses/" course_url
     then
       parts ← course_path_parts course_url;
       match parts with
       | course_id :: _ =>
           if Py.isdigit course_id
           then
             text ← call (Text link);
             let course_name := Py.strip_ws text in
             if String.eqb course_name EmptyString
                || existsb (String.eqb (Py.lower course_name)) navigation_labels
             then mret courses
             else if negb (existsb (fun c => String.eqb (c_id c) course_id) courses)
             then mret (courses ++ [mkCourse course_id course_name course_url])
             else mret courses
           else mret courses
       | [] => mret courses
       end
     else mret courses)
    (fun _ => mret courses).

Definition _get_courses_from_list_view : M (list Course) :=
  scope CallListView
    (try_except
       (current_url ← call CurrentUrl;
        (if negb (Py.endswith current_url "/courses")
         then
           call (DriverGet (Some (canvas_url cfg +:+ "/courses")));;
           sleep (delay cfg)
         else mret tt);;
        _take_screenshot "courses_list_page";;
        course_links ← call (FindElements (ByCssSelector "a[href*='/courses/']"));
        for_fold course_links list_link [])
       (fun _ => _take_screenshot "list_courses_error";; mret [])).

(** the statements of [get_courses] before the first strategy *)
Definition open_courses_page : M unit :=
  call (DriverGet (Some (canvas_url cfg +:+ "/courses")));;
  sleep (delay cfg);;
  _take_screenshot "courses_page".

Definition get_courses : M (list Course) :=
  try_except
    (open_courses_page;;
     courses ← _get_courses_from_dashboard;
     courses ← match courses with
               | [] => _get_courses_from_all_courses_table
               | _ :: _ => mret courses
               end;
     match courses with
     | _ :: _ => mret courses
     | [] => _get_courses_from_list_view
     end)
    (fun _ => _take_screenshot "courses_error";; mret []).

(** *** Per-course scans *)

(** the [except Exception] and bare [except] clauses that only log *)
Definition swallow {A} (a : A) : Exn -> M A := fun _ => mret a.

Definition href_downloadable (href : option string) : bool :=
  match href with
  | Some url => negb (String.eqb url EmptyString) && _is_downloadable_link url
  | None => false
  end.

Definition _find_downloadable_links : M (list Elem) :=
  all_links ← call (FindElements (ByTagName "a"));
  for_fold all_links
    (fun link downloadable_links =>
       try_except
         (href ← call (GetAttribute link "href");
          if href_downloadable href
          then mret (downloadable_links ++ [link])
          else mret downloadable_links)
         (swallow downloadable_links))
    [].

(** [[dl.get_attribute("href") for dl in downloadable_links]] *)
Definition hrefs_of (links : list Elem) : M (list (option string)) :=
  for_fold links
    (fun dl hrefs => href ← call (GetAttribute dl "href"); mret (hrefs ++ [href]))
    [].

(** the loop shared by the two extra passes of
    [_find_enhanced_download_links] *)
Definition add_new_links (candidates downloadable_links : list Elem)
  : M (list Elem) :=
  for_fold candidates
    (fun link downloadable_links =>
       try_except
         (href ← call (GetAttribute link "href");
          if truthy href
          then
            hrefs ← hrefs_of downloadable_links;
            if negb (bool_decide (href ∈ hrefs))
            then mret (downloadable_links ++ [link])
            else mret downloadable_links
          else mret downloadable_links)
         (swallow downloadable_links))
    downloadable_links.

Definition _find_enhanced_download_links : M (list Elem) :=
  downloadable_links ← _find_downloadable_links;
  downloadable_links ← try_except
    (canvas_download_links ← call (FindElements (ByCssSelector
       "a.file_download_btn, a.icon-download, a[download], a.instructure_file_link"));
     add_new_links canvas_download_links downloadable_links)
    (swallow downloadable_links);
  try_except
    (text_download_links ← call (FindElements (ByXpath
       "//a[contains(text(), 'Download') or contains(text(), 'download') or contains(text(), '.pdf') or contains(text(), '.doc')]"));
     add_new_links text_download_links downloadable_links)
    (swallow downloadable_links).

(** [os.path.basename(urlparse(file_url).path)], without query
    parameters, URL-decoded *)
Definition name_from_url (file_url : option string) : M string :=
  path ← of_outcome (urlparse_path cfg file_url);
  let file_name := Py.basename path in
  let file_name := hd EmptyString (Py.split file_name "?") in
  mret (unquote cfg file_name).

(** the tail shared by the download sites outside the Files section:
    sanitize, append the default extension, download *)
Definition download_named (file_url : option string) (dir file_name : string)
    (files_downloaded : bool) : M bool :=
  let safe_file_name := safe_name_with_default_extension file_name in
  ok ← _download_file file_url (Py.join dir safe_file_name);
  mret (if (ok : bool) then true else files_downloaded).

Definition _process_direct_links (course_dir subfolder_name : string) : M bool :=
  file_links ← _find_downloadable_links;
  match file_links with
  | [] => mret false
  | _ :: _ =>
      let subfolder_dir := Py.join course_dir subfolder_name in
      call (Makedirs subfolder_dir);;
      for_fold file_links
        (fun link files_downloaded =>
           try_except
             (file_url ← call (GetAttribute link "href");
              text ← call (Text link);
              let file_name := Py.strip_ws text in
              file_name ← (if String.eqb file_name EmptyString
                           then name_from_url file_url
                           else mret file_name);
              download_named file_url subfolder_dir file_name files_downloaded)
             (swallow files_downloaded))
        false
  end.

Definition homepage_navigation : list string :=
  ["home"; "announcements"; "grades"; "people"; "files"; "syllabus";
   "modules"; "settings"; "dashboard"].

(** the filter loop of [_process_clickable_links] *)
Definition content_links_of (all_links : list Elem) : M (list (string * string)) :=
  for_fold all_links
    (fun link content_links =>
       try_except
         (href ← call (GetAttribute link "href");
          text ← call (Text link);
          let text := Py.strip_ws text in
          match href with
          | Some url =>
              if String.eqb url EmptyString || String.eqb text EmptyString
              then mret content_links
              else if existsb (String.eqb (Py.lower text)) homepage_navigation
              then mret content_links
              else if Py.contains (canvas_url cfg) url
              then mret (content_links ++ [(url, text)])
              else mret content_links
          | None => mret content_links
          end)
         (swallow content_links))
    [].

(** [a or b] on strings that may be [None] *)
Definition or_else (a : option string) (b : M (option string)) : M (option string) :=
  if truthy a then mret a else b.

(** the three ways a followed link's page is searched for files *)
Definition download_from_page (link_dir link_text : string)
    (files_downloaded : bool) : M bool :=
  download_links ← _find_enhanced_download_links;
  match download_links with
  | _ :: _ =>
      for_fold download_links
        (fun dl_link files_downloaded =>
           try_except
             (file_url ← call (GetAttribute dl_link "href");
              text ← call (Text dl_link);
              let file_name := Py.strip_ws text in
              file_name ← (if String.eqb file_name EmptyString
                           then name_from_url file_url
                           else mret file_name);
              let file_name := if String.eqb file_name EmptyString
                               then link_text else file_name in
              download_named file_url link_dir file_name files_downloaded)
             (swallow files_downloaded))
        files_downloaded
  | [] =>
      try_except
        (download_buttons ← call (FindElements (ByCssSelector
           "a.icon-download, a.file_download_btn, a[download], a.download_submissions_link"));
         match download_buttons with
         | _ :: _ =>
             for_fold download_buttons
               (fun button files_downloaded =>
                  try_except
                    (download_url ← call (GetAttribute button "href");
                     if negb (truthy download_url)
                     then mret files_downloaded
                     else
                       download_attr ← call (GetAttribute button "download");
                       name ← or_else download_attr
                                (title ← call (GetAttribute button "title");
                                 or_else title (mret (Some link_text)));
                       file_name ← require_str name;
                       download_named download_url link_dir file_name files_downloaded)
                    (swallow files_downloaded))
               files_downloaded
         | [] =>
             file_links ← call (FindElements (ByCssSelector
               "a.instructure_file_link, a.inline_disabled, a[id^='file_']"));
             for_fold file_links
               (fun file_link files_downloaded =>
                  try_except
                    (file_url ← call (GetAttribute file_link "href");
                     text ← call (Text file_link);
                     let file_name := Py.strip_ws text in
                     let file_name := if String.eqb file_name EmptyString
                                      then link_text else file_name in
                     download_named file_url link_dir file_name files_downloaded)
                    (swallow files_downloaded))
               files_downloaded
         end)
        (swallow files_downloaded)
  end.

Definition _process_clickable_links (course_dir subfolder_name return_url : string)
  : M bool :=
  all_links ← call (FindElements (ByTagName "a"));
  content_links ← content_links_of all_links;
  match content_links with
  | [] => mret false
  | _ :: _ =>
      let subfolder_dir := Py.join course_dir subfolder_name in
      call (Makedirs subfolder_dir);;
      for_fold content_links
        (fun '(link_url, link_text) files_downloaded =>
           files_downloaded ← try_except
             (call (DriverGet (Some link_url));;
              sleep (delay cfg * 2);;
              let safe_name := _sanitize_filename link_text in
              _take_screenshot ("link_" +:+ safe_name);;
              let link_dir := Py.join subfolder_dir safe_name in
              call (Makedirs link_dir);;
              download_from_page link_dir link_text files_downloaded)
             (swallow files_downloaded);
           call (DriverGet (Some return_url));;
           sleep (delay cfg);;
           mret files_downloaded)
        false
  end.

Definition _process_course_homepage (course_id course_name course_dir : string)
  : M bool :=
  let homepage_url := canvas_url cfg +:+ "/courses/" +:+ course_id in
  call (DriverGet (Some homepage_url));;
  sleep (delay cfg);;
  let safe_course_name := _sanitize_filename course_name in
  _take_screenshot ("homepage_" +:+ safe_course_name);;
  direct_files_found ← _process_direct_links course_dir "Homepage_Direct";
  indirect_files_found ← _process_clickable_links course_dir "Homepage" homepage_url;
  mret (direct_files_found || indirect_files_found).

(** one link of a module item *)
Definition module_link (module_dir item_name : string) (link : Elem)
    (files_found : bool) : M bool :=
  try_except
    (link_url ← call (GetAttribute link "href");
     if negb (href_downloadable link_url)
     then mret files_found
     else
       file_name ← (if String.eqb item_name EmptyString
                    then text ← call (Text link); mret (Py.strip_ws text)
                    else mret item_name);
       file_name ← (if String.eqb file_name EmptyString
                    then name_from_url link_url
                    else mret file_name);
       download_named link_url module_dir file_name files_found)
    (swallow files_found).

Definition module_item (module_dir : string) (item : Elem) (files_found : bool)
  : M bool :=
  try_except
    (item_classes ← call (GetAttribute item "class");
     item_name_elem ← call (ElFindElement item (ByCssSelector ".item_name"));
     text ← call (Text item_name_elem);
     let item_name := Py.strip_ws text in
     links ← call (ElFindElements item (ByTagName "a"));
     for_fold links (module_link module_dir item_name) files_found)
    (swallow files_found).

(** the statements of the module's [try] that can raise all precede its
    loop over the items, so an exception leaves [files_found] as it was *)
Definition module_entry (course_dir : string) (module : Elem) (files_found : bool)
  : M bool :=
  try_except
    (module_name_elem ← call (ElFindElement module (ByCssSelector ".name"));
     text ← call (Text module_name_elem);
     let module_name := Py.strip_ws text in
     let safe_module_name := _sanitize_filename module_name in
     let module_dir := Py.join course_dir safe_module_name in
     call (Makedirs module_dir);;
     try_except
       (classes ← call (GetAttribute module "class");
        collapsed ← contains_in "collapsed" classes;
        if (collapsed : bool)
        then
          expand_button ← call (ElFindElement module
                                  (ByCssSelector ".expand_module_link"));
          call (Click expand_button);;
          sleep (delay cfg)
        else mret tt)
       (swallow tt);;
     module_items ← call (ElFindElements module (ByCssSelector ".context_module_item"));
     for_fold module_items (module_item module_dir) files_found)
    (swallow files_found).

Definition _process_course_modules (course_id course_name course_dir : string)
  : M bool :=
  let modules_url := canvas_url cfg +:+ "/courses/" +:+ course_id +:+ "/modules" in
  call (DriverGet (Some modules_url));;
  sleep (delay cfg);;
  let safe_course_name := _sanitize_filename course_name in
  _take_screenshot ("modules_" +:+ safe_course_name);;
  modules ← call (FindElements (ByCssSelector ".context_module"));
  match modules with
  | [] => mret false
  | _ :: _ => for_fold modules (module_entry course_dir) false
  end.

Definition _process_course_files_section (course_id course_name course_dir : string)
  : M bool :=
  let files_url := canvas_url cfg +:+ "/courses/" +:+ course_id +:+ "/files" in
  call (DriverGet (Some files_url));;
  sleep (delay cfg);;
  let safe_course_name := _sanitize_filename course_name in
  _take_screenshot ("files_page_" +:+ safe_course_name);;
  try_except_timeout
    (call (WaitPresence 15 (ByClassName "ef-item-row"));;
     let files_dir := Py.join course_dir "Files" in
     call (Makedirs files_dir);;
     _process_folder (recursion_limit cfg) files_dir files_url;;
     mret true)
    (_take_screenshot ("no_files_" +:+ safe_course_name);;
     mret false).

Definition process_course (course : Course) : M unit :=
  scope (CallCourse course)
    (let course_id := c_id course in
     let course_name := c_name course in
     let safe_course_name := _sanitize_filename course_name in
     let course_dir := Py.join (base_download_dir cfg) safe_course_name in
     call (Makedirs course_dir);;
     homepage_files_found ← _process_course_homepage course_id course_name course_dir;
     modules_files_found ← _process_course_modules course_id course_name course_dir;
     files_section_found ← _process_course_files_section course_id course_name course_dir;
     mret tt).

(** *** The run *)

(** the statements of [run] before the loop over the courses: [None]
    stands for the two [return False] *)
Definition discover : M (option (list Course)) :=
  call (Makedirs (base_download_dir cfg));;
  logged_in ← call Login;
  set_driver (login_created_driver logged_in);;
  if negb (login_returned logged_in) then mret None
  else
    courses ← get_courses;
    match courses with
    | [] => mret None
    | _ :: _ => mret (Some courses)
    end.

(** the [finally] clause of [run] *)
Definition close_browser : M unit :=
  driver ← get_driver;
  if (driver : bool) then call Quit else mret tt.

Definition run : M bool :=
  try_finally
    (try_except
       (discovered ← discover;
        match discovered with
        | None => mret false
        | Some courses =>
            for_each courses process_course;;
            mret true
        end)
       (fun _ => mret false))
    close_browser.

End Scraper.

(** ** The classifier rule as the specification words it

    Section 4.2 of the specification states the rule on the parts of the
    URL: a files segment in the path together with a download marker (the
    path ends in ["/download"], or the query carries [download=1] or
    [download_frd=1]), or an allow-listed extension at the end of the path,
    case-insensitively.  The path is what precedes the first ["?"], the query
    what follows it, its flags separated by ["&"]. *)

Module AsSpecified.

Definition url_path (url : string) : string :=
  hd EmptyString (Py.split url "?").

Fixpoint after_question_mark (l : list ascii) : list ascii :=
  match l with
  | [] => []
  | c :: l' => if Ascii.eqb c "?" then l' else after_question_mark l'
  end.

Definition url_query (url : string) : string :=
  Py.of_chars (after_question_mark (Py.chars url)).

Definition query_flags (url : string) : list string :=
  Py.split (url_query url) "&".

Definition has_files_segment (url : string) : bool :=
  Py.contains "/files/" (url_path url).

Definition has_download_marker (url : string) : bool :=
  Py.endswith (url_path url) "/download"
  || existsb (fun flag => String.eqb flag "download=1"
                          || String.eqb flag "download_frd=1")
       (query_flags url).

Definition has_listed_extension (url : string) : bool :=
  existsb (Py.endswith (Py.lower (url_path url))) file_extensions.

Definition isDownloadable (url : string) : bool :=
  has_files_segment url && has_download_marker url
  || has_listed_extension url.

End AsSpecified.

(** [sub] occurs in [s] *)
Definition occurs_in (sub s : string) : Prop :=
  exists pre post, s = pre +:+ sub +:+ post.

(** [s] ends with [suf] *)
Definition ends_with (s suf : string) : Prop :=
  exists pre, s = pre +:+ suf.

(** the character that replaces [c] in [_sanitize_filename] *)
Definition safe_char (c : ascii) : ascii :=
  if Py.mem_char c invalid_chars then "_"%char else c.

(** a character removed at the edges by [strip('. ')] *)
Definition edge_char (c : ascii) : Prop := c = " "%char \/ c = "."%char.


(** ** Trace properties *)

(** [m] only appends to the trace, and what it appends satisfies [T] *)
Definition emits {Env A} (T : list Event -> Prop) (m : M Env A) : Prop :=
  forall w, exists t, w_trace (snd (m w)) = w_trace w ++ t /\ T t.

(** a trace property that holds of the empty trace and of concatenations *)
Class Sequential (T : list Event -> Prop) : Prop := {
  sequential_nil : T [];
  sequential_app : forall t1 t2, T t1 -> T t2 -> T (t1 ++ t2)
}.

(** a trace property that every single request or sleep satisfies *)
Class Requests (T : list Event -> Prop) : Prop :=
  requests_one : forall e, match e with ECall _ _ _ => False | _ => True end -> T [e].

Definition is_folder_visit (e : Event) : bool :=
  match e with
  | ECall (CallFolder _ _) _ _ => true
  | _ => false
  end.

(** the events of the second loop: no folder is visited *)
Definition download_phase (t : list Event) : Prop :=
  Forall (fun e => is_folder_visit e = false) t.

(** requests and sleeps only *)
Definition plain (t : list Event) : Prop :=
  Forall (fun e => match e with ECall _ _ _ => False | _ => True end) t.

(** what a recursive call contributes to the caller's trace: nothing and
    an exception (the recursion limit), or one [CallFolder] node that tells
    whether the call returned *)
Definition visits_one_folder {Env} (recur : string -> string -> M Env unit) : Prop :=
  forall dir url w,
    (exists e, recur dir url w = (Raise e, w))
    \/ exists body,
         w_trace (snd (recur dir url w))
         = w_trace w ++ [ECall (CallFolder dir url) (is_ok (fst (recur dir url w))) body].

(** ** Further vocabulary for the properties of the second part *)

(** [m] never raises *)
Definition returns {Env A} (m : M Env A) : Prop :=
  forall w, exists a w', m w = (Ok a, w').

(** [m] takes every world to one related to it by [R] *)
Definition keeps {Env A} (R : World Env -> World Env -> Prop) (m : M Env A) : Prop :=
  forall w, R w (snd (m w)).

(** a relation between worlds that composes and does not look at the
    environment, the driver flag or the trace *)
Class Frame {Env} (R : World Env -> World Env -> Prop) : Prop := {
  frame_refl : forall w, R w w;
  frame_trans : forall w1 w2 w3, R w1 w2 -> R w2 w3 -> R w1 w3;
  frame_env : forall w s d t, R w (mkWorld s (w_fs w) d t)
}.

(** the files are the same *)
Definition same_files {Env} (w w' : World Env) : Prop := w_fs w' = w_fs w.

(** only files whose path satisfies [P] may differ *)
Definition files_outside {Env} (P : string -> Prop) (w w' : World Env) : Prop :=
  forall path, ~ P path -> w_fs w' !! path = w_fs w !! path.

(** [R] allows writing the file at [path] *)
Definition writable {Env} (R : World Env -> World Env -> Prop) (path : string) : Prop :=
  forall w content,
    R w (mkWorld (w_env w) (<[path := content]> (w_fs w)) (w_driver w) (w_trace w)).

(** [path] lies in the directory [dir]: it starts with [os.path.join(dir, EmptyString)],
    the name of [dir] with its separator *)
Definition below (dir path : string) : Prop :=
  Py.startswith path (Py.join dir EmptyString) = true.

(** the course calls of a trace, each with whether it returned *)
Definition course_calls (t : list Event) : list (Course * bool) :=
  omap (fun ev => match ev with
                  | ECall (CallCourse c) returned _ => Some (c, returned)
                  | _ => None
                  end) t.

(** no course call *)
Definition no_course_call (t : list Event) : Prop :=
  Forall (fun ev => match ev with
                    | ECall (CallCourse _) _ _ => False
                    | _ => True
                    end) t.

(** the [finally] clause of [run], seen from outside: with a browser the
    one event is [quit], and what it raises replaces the result; without a
    browser there is no event *)
Definition closed_with (driver : bool) (result : bool) (r : Outcome bool)
    (closing : list Event) : Prop :=
  if driver
  then exists answer, closing = [ECmd Quit answer]
                      /\ r = match answer with
                             | Ok _ => Ok result
                             | Raise e => Raise e
                             end
  else closing = [] /\ r = Ok result.

(** what the list-view strategy guarantees of the courses it returns *)
Definition listed_course (c : Course) : Prop :=
  Py.isdigit (c_id c) = true
  /\ c_name c <> EmptyString
  /\ ~ In (Py.lower (c_name c)) navigation_labels
  /\ Py.contains "/courses/" (c_url c) = true.

(** the invariant of the loop of the list-view strategy: listed courses
    with different ids *)
Definition listed_courses (courses : list Course) : Prop :=
  Forall listed_course courses /\ NoDup (map c_id courses).

(** whatever lies in [dir] lies in [base] *)
Definition within (base dir : string) : Prop :=
  forall path, below dir path -> below base path.

(** the directories created so far, after one more event: [os.makedirs]
    that returned adds its directory *)
Definition made_step (dirs : list string) (e : Event) : list string :=
  match e with
  | ECmd c (Ok _) =>
      match c with
      | Makedirs d => d :: dirs
      | _ => dirs
      end
  | _ => dirs
  end.

(** a name without ["/"] *)
Definition component (name : string) : Prop := ~ In "/"%char (Py.chars name).

(** what a call needs of the directories created so far: a download goes
    to a single component joined to one of them, a folder visit is for one
    of them *)
Definition target_made (dirs : list string) (f : Call) : Prop :=
  match f with
  | CallDownload _ path =>
      exists dir name, In dir dirs /\ component name /\ path = Py.join dir name
  | CallFolder dir _ => In dir dirs
  | _ => True
  end.

(** Every call of [t], at any depth, finds its directory created: by an
    [os.makedirs] that returned earlier at the same level or at an
    enclosing one, or among [dirs]. *)
Inductive prepared : list string -> list Event -> Prop :=
| prepared_nil dirs : prepared dirs []
| prepared_cmd dirs {A} (c : Cmd A) answer t :
    prepared (made_step dirs (ECmd c answer)) t -> prepared dirs (ECmd c answer :: t)
| prepared_sleep dirs seconds t :
    prepared dirs t -> prepared dirs (ESleep seconds :: t)
| prepared_call dirs f returned body t :
    target_made dirs f -> prepared dirs body -> prepared dirs t ->
    prepared dirs (ECall f returned body :: t).

(** the targets of the navigations among the events of [t], in order; what
    happens inside a bracketed call is not counted *)
Definition navigations (t : list Event) : list (option string) :=
  omap (fun e => match e with
                 | ECmd c _ =>
                     match c with
                     | DriverGet url => Some url
                     | _ => None
                     end
                 | _ => None
                 end) t.

(** no navigation *)
Definition stays (t : list Event) : Prop := navigations t = [].

(** a URL of the portal, as the scraper tells: it contains [canvas_url] *)
Definition on_portal (cfg : Config) (url : string) : Prop :=
  Py.contains (canvas_url cfg) url = true.

(** the navigations of a scan that follows links of the portal and comes
    back to [return_url] after each *)
Definition there_and_back (cfg : Config) (return_url : string)
    (l : list (option string)) : Prop :=
  exists followed,
    Forall (on_portal cfg) followed
    /\ l = flat_map (fun url => [Some url; Some return_url]) followed.

(** the pages of a course *)
Definition homepage_url (cfg : Config) (course : Course) : string :=
  canvas_url cfg +:+ "/courses/" +:+ c_id course.
Definition modules_url (cfg : Config) (course : Course) : string :=
  canvas_url cfg +:+ "/courses/" +:+ c_id course +:+ "/modules".
Definition files_url (cfg : Config) (course : Course) : string :=
  canvas_url cfg +:+ "/courses/" +:+ c_id course +:+ "/files".

(** a download whose URL the classifier accepted; no condition on other
    events *)
Definition classified (e : Event) : Prop :=
  match e with
  | ECall (CallDownload url _) _ _ => href_downloadable url = true
  | _ => True
  end.
(** ** A scripted environment for concrete runs

    A [Site] describes a small portal by tables: for every URL the elements
    each selector finds, for every element its text, attributes, children
    and where a click leads, and for every URL the HTTP response.  Its
    handler keeps the current URL as the state of the browser. *)

#[export] Instance By_eq_dec : EqDecision By.
Proof. solve_decision. Defined.

Fixpoint assoc {K V} `{EqDecision K} (k : K) (l : list (K * V)) : option V :=
  match l with
  | [] => None
  | (k', v) :: l' => if decide (k = k') then Some v else assoc k l'
  end.

Record Site : Type := mkSite {
  site_pages : list (string * list (By * list Elem));
  site_children : list (Elem * list (By * list Elem));
  site_texts : list (Elem * string);
  site_attrs : list (Elem * list (string * string));
  site_clicks : list (Elem * string);
  site_responses : list (string * Response);
  site_unwritable : list string
}.

Definition site_find (site : Site) (url : string) (by_ : By) : list Elem :=
  default [] (page ← assoc url (site_pages site); assoc by_ page).

Definition site_child (site : Site) (el : Elem) (by_ : By) : list Elem :=
  default [] (kids ← assoc el (site_children site); assoc by_ kids).

Definition first_or {A} (xs : list A) (e : Exn) : Outcome A :=
  match xs with
  | x :: _ => Ok x
  | [] => Raise e
  end.

Definition site_handler (site : Site) : Handler string :=
  fun A c =>
    match c in Cmd A return string -> Outcome A * string with
    | DriverGet (Some url) => fun cur =>
        match assoc url (site_pages site) with
        | Some _ => (Ok tt, url)
        | None => (Raise (Exception "WebDriverException"), cur)
        end
    | DriverGet None => fun cur => (Raise (Exception "InvalidArgumentException"), cur)
    | CurrentUrl => fun cur => (Ok cur, cur)
    | FindElements by_ => fun cur => (Ok (site_find site cur by_), cur)
    | WaitPresence _ by_ => fun cur =>
        (first_or (site_find site cur by_) TimeoutException, cur)
    | WaitClickable _ by_ => fun cur =>
        (first_or (site_find site cur by_) TimeoutException, cur)
    | GetAttribute el name => fun cur =>
        (Ok (attrs ← assoc el (site_attrs site); assoc name attrs), cur)
    | Text el => fun cur => (Ok (default EmptyString (assoc el (site_texts site))), cur)
    | ElFindElement el by_ => fun cur =>
        (first_or (site_child site el by_) (Exception "NoSuchElementException"), cur)
    | ElFindElements el by_ => fun cur => (Ok (site_child site el by_), cur)
    | Click el => fun cur =>
        match assoc el (site_clicks site) with
        | Some url => (Ok tt, url)
        | None => (Raise (Exception "ElementNotInteractableException"), cur)
        end
    | SaveScreenshot _ => fun cur => (Ok tt, cur)
    | SessionGet (Some url) => fun cur =>
        match assoc url (site_responses site) with
        | Some response => (Ok response, cur)
        | None => (Raise (Exception "ConnectionError"), cur)
        end
    | SessionGet None => fun cur => (Raise (Exception "MissingSchema"), cur)
    | Makedirs _ => fun cur => (Ok tt, cur)
    | OpenWrite path => fun cur =>
        if bool_decide (path ∈ site_unwritable site)
        then (Raise (Exception "PermissionError"), cur)
        else (Ok tt, cur)
    | Login => fun cur => (Ok (mkLoginResult true true), cur)
    | Quit => fun cur => (Ok tt, cur)
    end.

Definition bytes (s : string) : list byte := list_byte_of_string s.

(** a response with status 200 and the given body in one chunk *)
Definition ok_response (body : string) : Response :=
  mkResponse 200 (ContentLengthInt (length (bytes body))) [bytes body] None.

Definition status_response (code : nat) : Response :=
  mkResponse code NoContentLength [] None.

(** the configuration used in the concrete runs *)
Definition demo_config (skip : bool) : Config :=
  mkConfig "https://canvas.test" "Canvas_Downloads" skip 2 1000
    (fun url => match url with
                | Some u => Ok u
                | None => Raise (Exception "TypeError")
                end)
    (fun s => s).

Definition start_world (url : string) (fs : gmap string (list byte)) : World string :=
  mkWorld url fs true [].

(** *** Fixture: a two-level folder tree

    [root] holds the subfolder [A] (with the file [x.pdf]) and the file
    [y.doc].  Previews offer a download button. *)

Definition tree_root : string := "https://canvas.test/courses/7/files".
Definition tree_A : string := "https://canvas.test/courses/7/files/folder/A".
Definition tree_x : string := "https://canvas.test/courses/7/files/101".
Definition tree_y : string := "https://canvas.test/courses/7/files/102".

Definition tree_site : Site :=
  mkSite
    [ (tree_root, [ (ByClassName "ef-directory", [1]);
                    (ByClassName "ef-item-row", [10; 11]) ]);
      (tree_A, [ (ByClassName "ef-directory", [2]);
                 (ByClassName "ef-item-row", [20]) ]);
      (tree_x, [ (ByCssSelector "a.icon-download", [30]) ]);
      (tree_y, [ (ByCssSelector "a.icon-download", [31]) ]) ]
    [ (10, [ (ByClassName "ef-name-col__text", [110]) ]);
      (11, [ (ByClassName "ef-name-col__text", [111]);
             (ByCssSelector "a.ef-name-col__link", [211]) ]);
      (20, [ (ByClassName "ef-name-col__text", [120]);
             (ByCssSelector "a.ef-name-col__link", [220]) ]) ]
    [ (110, "A"); (111, "y.doc"); (120, "x.pdf") ]
    [ (10, [ ("class", "ef-item-row ef-item-folder") ]);
      (11, [ ("class", "ef-item-row") ]);
      (20, [ ("class", "ef-item-row") ]);
      (211, [ ("href", tree_y) ]);
      (220, [ ("href", tree_x) ]);
      (30, [ ("href", "https://canvas.test/files/101/download") ]);
      (31, [ ("href", "https://canvas.test/files/102/download") ]) ]
    [ (110, tree_A) ]
    [ ("https://canvas.test/files/101/download", ok_response "xx");
      ("https://canvas.test/files/102/download", ok_response "yyy") ]
    [].

(** *** Fixture: file previews

    [preview_ok] offers a download button whose target answers 200;
    [preview_no_button] offers no button and its URL answers 404;
    [preview_button_404] offers a button whose target answers 404;
    [preview_cut] offers a button whose transfer breaks after one chunk;
    [preview_gone] cannot be navigated to. *)

Definition preview_ok : string := "https://canvas.test/files/1".
Definition preview_no_button : string := "https://canvas.test/files/2".
Definition preview_button_404 : string := "https://canvas.test/files/3".
Definition preview_cut : string := "https://canvas.test/files/4".
Definition preview_gone : string := "https://canvas.test/files/5".

Definition preview_site : Site :=
  mkSite
    [ (preview_ok, [ (ByCssSelector "a.icon-download", [30]) ]);
      (preview_no_button, []);
      (preview_button_404, [ (ByCssSelector "a.icon-download", [31]) ]);
      (preview_cut, [ (ByCssSelector "a.icon-download", [32]) ]) ]
    []
    []
    [ (30, [ ("href", "https://canvas.test/files/1/download") ]);
      (31, [ ("href", "https://canvas.test/files/3/download") ]);
      (32, [ ("href", "https://canvas.test/files/4/download") ]) ]
    []
    [ ("https://canvas.test/files/1/download", ok_response "data");
      (preview_no_button, status_response 404);
      ("https://canvas.test/files/3/download", status_response 404);
      ("https://canvas.test/files/4/download",
       mkResponse 200 (ContentLengthInt 8) [bytes "part"]
         (Some (Exception "ChunkedEncodingError"))) ]
    [].

(** *** Fixture: discovery through the table

    The courses page shows no dashboard card and no "All Courses" link; the
    all-courses page lists three courses under a header row. *)

Definition courses_page : string := "https://canvas.test/courses".
Definition all_courses_page : string := "https://canvas.test/courses/all_courses".

Definition table_site : Site :=
  mkSite
    [ (courses_page, []);
      (all_courses_page,
       [ (ByCssSelector "table.course-list, table.ic-Table", [4]);
         (ByCssSelector "table.course-list tr, table.ic-Table tr", [40; 41; 42; 43]) ]) ]
    [ (41, [ (ByCssSelector "a[href*='/courses/']", [141]) ]);
      (42, [ (ByCssSelector "a[href*='/courses/']", [142]) ]);
      (43, [ (ByCssSelector "a[href*='/courses/']", [143]) ]) ]
    [ (141, "Zoology"); (142, "Algebra"); (143, "Music") ]
    [ (141, [ ("href", "https://canvas.test/courses/30") ]);
      (142, [ ("href", "https://canvas.test/courses/10") ]);
      (143, [ ("href", "https://canvas.test/courses/20/") ]) ]
    []
    []
    [].

Definition table_courses : list Course :=
  [ mkCourse "30" "Zoology" "https://canvas.test/courses/30";
    mkCourse "10" "Algebra" "https://canvas.test/courses/10";
    mkCourse "20" "Music" "https://canvas.test/courses/20/" ].

(** *** Fixture: two courses on the dashboard

    The homepage of the first course cannot be loaded; every page of the
    second course loads and is empty. *)

Definition two_course_site : Site :=
  mkSite
    [ (courses_page, [ (ByClassName "ic-DashboardCard", [50; 51]) ]);
      ("https://canvas.test/courses/12", []);
      ("https://canvas.test/courses/12/modules", []);
      ("https://canvas.test/courses/12/files", []) ]
    [ (50, [ (ByClassName "ic-DashboardCard__header-title", [150]);
             (ByCssSelector "a.ic-DashboardCard__link", [250]) ]);
      (51, [ (ByClassName "ic-DashboardCard__header-title", [151]);
             (ByCssSelector "a.ic-DashboardCard__link", [251]) ]) ]
    [ (150, "Broken"); (151, "Fine") ]
    [ (250, [ ("href", "https://canvas.test/courses/11") ]);
      (251, [ ("href", "https://canvas.test/courses/12") ]) ]
    []
    []
    [].

Definition course_broken : Course :=
  mkCourse "11" "Broken" "https://canvas.test/courses/11".
Definition course_fine : Course :=
  mkCourse "12" "Fine" "https://canvas.test/courses/12".

(** a world before [login]: no driver yet *)
Definition fresh_world (url : string) : World string :=
  mkWorld url ∅ false [].

(** the courses whose processing was started, in order *)
Definition courses_started (t : list Event) : list Course :=
  omap (fun ev => match ev with
                  | ECall (CallCourse c) _ _ => Some c
                  | _ => None
                  end) t.

(** the bracketed calls of a trace, in order, and the events one level
    down *)
Definition calls_of (t : list Event) : list (Call * bool) :=
  omap (fun ev => match ev with
                  | ECall f returned _ => Some (f, returned)
                  | _ => None
                  end) t.

Definition inside (t : list Event) : list Event :=
  flat_map (fun ev => match ev with
                      | ECall _ _ body => body
                      | _ => []
                      end) t.

(** *** Fixture: a module with two file items, and a folder with one file

    The module items are named [photo.jpg] and [Report.PDF]; the folder row
    is named [notes]. *)



(** *** Fixture: one course with one module item

    The dashboard shows the course [Fine]; its homepage and Files page are
    empty, and its only module, [Week 1], holds the file [Report.PDF],
    whose preview offers no button and whose URL answers 200. *)

Definition fine_report_url : string :=
  "https://canvas.test/courses/12/files/202/download".

Definition one_course_site : Site :=
  mkSite
    [ (courses_page, [ (ByClassName "ic-DashboardCard", [51]) ]);
      ("https://canvas.test/courses/12", []);
      ("https://canvas.test/courses/12/modules",
       [ (ByCssSelector ".context_module", [60]) ]);
      ("https://canvas.test/courses/12/files", []);
      (fine_report_url, []) ]
    [ (51, [ (ByClassName "ic-DashboardCard__header-title", [151]);
             (ByCssSelector "a.ic-DashboardCard__link", [251]) ]);
      (60, [ (ByCssSelector ".name", [160]);
             (ByCssSelector ".context_module_item", [62]) ]);
      (62, [ (ByCssSelector ".item_name", [162]); (ByTagName "a", [262]) ]) ]
    [ (151, "Fine"); (160, "Week 1"); (162, "Report.PDF") ]
    [ (251, [ ("href", "https://canvas.test/courses/12") ]);
      (60, [ ("class", "context_module") ]);
      (62, [ ("class", "context_module_item attachment") ]);
      (262, [ ("href", fine_report_url) ]) ]
    []
    [ (fine_report_url, ok_response "pdf") ]
    [].

(** *** Fixture: a page with four anchors

    The first and the third anchor point to files, the second to a page;
    the fourth, a download button, points to a file under a URL that the
    classifier does not recognise. *)

Definition anchors_page : string := "https://canvas.test/courses/7/pages/week1".

Definition anchors_site : Site :=
  mkSite
    [ (anchors_page,
       [ (ByTagName "a", [70; 71; 72; 73]);
         (ByCssSelector
            "a.file_download_btn, a.icon-download, a[download], a.instructure_file_link",
          [72; 73]) ]) ]
    []
    [ (70, "Slides"); (71, "Intro"); (72, "Notes"); (73, "Get it") ]
    [ (70, [ ("href", "https://canvas.test/courses/7/files/1/download") ]);
      (71, [ ("href", "https://canvas.test/courses/7/pages/intro") ]);
      (72, [ ("href", "https://canvas.test/files/notes.pdf") ]);
      (73, [ ("href", "https://canvas.test/attachments/9") ]) ]
    []
    []
    [].

(** *** Fixture: the preview pages, with a file that cannot be opened

    As [preview_site], but the operating system refuses to open
    [d/a.pdf] for writing. *)

Definition locked_site : Site :=
  mkSite (site_pages preview_site) (site_children preview_site)
    (site_texts preview_site) (site_attrs preview_site)
    (site_clicks preview_site) (site_responses preview_site)
    ["d/a.pdf"].

(** the portal of [table_site] when its courses page cannot be loaded *)
Definition outage_site : Site :=
  mkSite (filter (fun page => fst page <> courses_page) (site_pages table_site))
    (site_children table_site) (site_texts table_site) (site_attrs table_site)
    (site_clicks table_site) (site_responses table_site) [].

(** *** Fixture: three courses on the dashboard

    Every page of the first and of the third course loads and is empty;
    the homepage of the second cannot be loaded. *)

Definition three_course_site : Site :=
  mkSite
    [ (courses_page, [ (ByClassName "ic-DashboardCard", [51; 50; 52]) ]);
      ("https://canvas.test/courses/12", []);
      ("https://canvas.test/courses/12/modules", []);
      ("https://canvas.test/courses/12/files", []);
      ("https://canvas.test/courses/13", []);
      ("https://canvas.test/courses/13/modules", []);
      ("https://canvas.test/courses/13/files", []) ]
    [ (50, [ (ByClassName "ic-DashboardCard__header-title", [150]);
             (ByCssSelector "a.ic-DashboardCard__link", [250]) ]);
      (51, [ (ByClassName "ic-DashboardCard__header-title", [151]);
             (ByCssSelector "a.ic-DashboardCard__link", [251]) ]);
      (52, [ (ByClassName "ic-DashboardCard__header-title", [152]);
             (ByCssSelector "a.ic-DashboardCard__link", [252]) ]) ]
    [ (150, "Broken"); (151, "Fine"); (152, "Later") ]
    [ (250, [ ("href", "https://canvas.test/courses/11") ]);
      (251, [ ("href", "https://canvas.test/courses/12") ]);
      (252, [ ("href", "https://canvas.test/courses/13") ]) ]
    []
    []
    [].

Definition course_later : Course :=
  mkCourse "13" "Later" "https://canvas.test/courses/13".

(** *** Fixture: a subfolder that cannot be opened

    The tree of [tree_site], but the click on [A] leads to a page that
    cannot be loaded. *)



(** ** The rows a folder visit works on *)

(** the listings read among the events of [t]: the answers of the requests
    for the rows of a folder that returned *)
Definition listings (t : list Event) : list (list Elem) :=
  omap (fun e => match e with
                 | ECmd c answer =>
                     match answer with
                     | Ok a =>
                         match c in Cmd A return A -> option (list Elem) with
                         | FindElements by_ => fun rows =>
                             if decide (by_ = ByClassName "ef-item-row")
                             then Some rows else None
                         | _ => fun _ => None
                         end a
                     | Raise _ => None
                     end
                 | _ => None
                 end) t.

(** the rows whose class is requested among the events of [t], in order;
    what happens inside a bracketed call is not counted *)
Definition rows_tested (t : list Event) : list Elem :=
  omap (fun e => match e with
                 | ECmd c _ =>
                     match c with
                     | GetAttribute item name =>
                         if String.eqb name "class" then Some item else None
                     | _ => None
                     end
                 | _ => None
                 end) t.

(** the rows as last read *)
Definition last_listing (t : list Event) : option (list Elem) := last (listings t).

(** no listing is read *)
Definition unlisted (t : list Event) : Prop := listings t = [].

(** [m] reads the listings [get a] when it returns [a], and none when it
    raises *)
Definition reads {Env A} (get : A -> list (list Elem)) (m : M Env A) : Prop :=
  forall w, exists t,
    w_trace (snd (m w)) = w_trace w ++ t
    /\ listings t = match fst (m w) with Ok a => get a | Raise _ => [] end.

(** the events of one row in the second loop: they begin with the request
    for the row's class and hold no folder visit *)
Definition file_segment (item : Elem) (seg : list Event) : Prop :=
  (exists answer rest, seg = ECmd (GetAttribute item "class") answer :: rest)
  /\ download_phase seg.

(** the download phase goes through the rows as last read in the descent
    phase, one run of events per row in their order; without a listing it
    is empty *)
Definition files_as_last_read (descents downloads : list Event) : Prop :=
  exists segments,
    downloads = concat segments
    /\ Forall2 file_segment (default [] (last_listing descents)) segments.

(** ** Traces as grammars

    The events of a call are described from their first to their last:
    each request with the answer it got, and what follows that answer. *)

(** [m] only appends to the trace, and its outcome and what it appends
    satisfy [Q] *)
Definition traces {Env A} (m : M Env A) (Q : Outcome A -> list Event -> Prop) : Prop :=
  forall w, exists t,
    w_trace (snd (m w)) = w_trace w ++ t /\ Q (fst (m w)) t.

(** the request [c], then [k] when it is answered with a value and [h]
    when it is answered with an exception *)
Definition step {A} (c : Cmd A) (k : A -> list Event -> Prop)
    (h : Exn -> list Event -> Prop) (t : list Event) : Prop :=
  exists answer rest,
    t = ECmd c answer :: rest
    /\ match answer with
       | Ok a => k a rest
       | Raise e => h e rest
       end.

(** a sleep of [n] seconds, then [k] *)
Definition pause (n : nat) (k : list Event -> Prop) (t : list Event) : Prop :=
  exists rest, t = ESleep n :: rest /\ k rest.

(** nothing more *)
Definition ends (t : list Event) : Prop := t = [].

(** [_take_screenshot(name)], then [k]: one request whatever its answer,
    or none when there is no driver *)
Definition shot_then (name : string) (k : list Event -> Prop) (t : list Event) : Prop :=
  k t \/ exists answer rest, t = ECmd (SaveScreenshot name) answer :: rest /\ k rest.

(** *** The download fallback chain *)


(** a loop: the grammar of one element after the other *)
Fixpoint each {A} (pass : A -> (list Event -> Prop) -> list Event -> Prop)
    (xs : list A) (k : list Event -> Prop) : list Event -> Prop :=
  match xs with
  | [] => k
  | x :: xs' => pass x (each pass xs' k)
  end.

Section DownloadGrammar.
Context (cfg : Config) (file_url : option string) (file_path : string).

(** the [except] handler of [_download_file]: the error screenshot and the
    request to open the placeholder; the call returns [False] *)
Definition gives_up (ok : bool) (t : list Event) : Prop :=
  ok = false
  /\ shot_then ("download_error_" +:+ _sanitize_filename (Py.basename file_path))
       (fun rest => exists answer, rest = [ECmd (OpenWrite file_path) answer]) t.

(** whether [_format_size] returns for a size *)
Definition size_formats (size_bytes : nat) : bool :=
  (size_bytes =? 0) || negb (5 <=? Nat.log2 size_bytes / 10).

(** whether the transfer of [response] ends normally once the file is
    open: the stream does not break and the size can be logged *)
Definition completes (response : Response) : bool :=
  match resp_stream_error response, resp_content_length response with
  | None, NoContentLength => true
  | None, ContentLengthInt n => size_formats n
  | _, _ => false
  end.

(** [_save_file_with_progress]: with a content-length that is not an
    integer nothing is opened; otherwise the file is opened, and the call
    returns [True] when that is granted and the transfer completes *)
Definition saves (response : Response) (ok : bool) (t : list Event) : Prop :=
  match resp_content_length response with
  | ContentLengthMalformed => gives_up ok t
  | _ =>
      step (OpenWrite file_path)
        (fun _ rest => if completes response then ok = true /\ rest = []
                       else gives_up ok rest)
        (fun _ => gives_up ok) t
  end.

(** with a download button: its target is asked for and requested; a
    status from 400 to 599 raises *)
Definition via_button (button : Elem) (ok : bool) (t : list Event) : Prop :=
  step (GetAttribute button "href")
    (fun download_url =>
       step (SessionGet download_url)
         (fun response rest =>
            if (400 <=? status_code response) && (status_code response <? 600)
            then gives_up ok rest
            else saves response ok rest)
         (fun _ => gives_up ok))
    (fun _ => gives_up ok) t.

(** without a button: the file's own URL is requested; a status other
    than 200 ends the call with [False] and without placeholder *)
Definition direct (ok : bool) (t : list Event) : Prop :=
  shot_then ("no_download_button_" +:+ _sanitize_filename (Py.basename file_path))
    (step (SessionGet file_url)
       (fun response rest =>
          if status_code response =? 200 then saves response ok rest
          else ok = false /\ rest = [])
       (fun _ => gives_up ok)) t.

(** the wait for a button: a timeout leads to [otherwise], any other
    exception to the handler *)
Definition waits (timeout : nat) (selector : string)
    (otherwise : list Event -> Prop) (ok : bool) (t : list Event) : Prop :=
  step (WaitClickable timeout (ByCssSelector selector))
    (fun button => via_button button ok)
    (fun e rest => match e with
                   | TimeoutException => otherwise rest
                   | Exception _ => gives_up ok rest
                   end) t.

(** the events of a call of [_download_file] that is not skipped, and
    whether it returns [True] *)
Definition attempted (ok : bool) (t : list Event) : Prop :=
  step (DriverGet file_url)
    (fun _ =>
       pause (delay cfg)
         (shot_then ("file_preview_" +:+ _sanitize_filename (Py.basename file_path))
            (waits 15 "a.icon-download"
               (waits 10 ".file_download_btn, .file-download-btn, a[download]"
                  (direct ok) ok)
               ok)))
    (fun _ => gives_up ok) t.

End DownloadGrammar.

(** ** The events of a folder visit

    What [_process_folder] sends, request by request, for whatever the
    environment answers.  A grammar takes what follows it as a
    continuation, as [step] does. *)

Section FolderGrammar.
Context (cfg : Config).

(** the body of a call of [_download_file]: nothing when the file is
    skipped, an attempt otherwise *)
Definition downloads (file_url : option string) (file_path : string) (ok : bool)
    (body : list Event) : Prop :=
  (ok = true /\ body = []) \/ attempted cfg file_url file_path ok body.

(** one call of [_download_file]; it always returns *)
Definition download (file_url : option string) (file_path : string)
    (k : list Event -> Prop) (t : list Event) : Prop :=
  exists ok body rest,
    t = ECall (CallDownload file_url file_path) true body :: rest
    /\ downloads file_url file_path ok body
    /\ k rest.

(** the way back after a descent that returned: the parent's URL, the wait
    for the listing marker and the rows read again, each when the step
    before it succeeded *)
Definition way_back (folder_url : string) (k : list Elem -> list Event -> Prop)
    (failed : list Event -> Prop) : list Event -> Prop :=
  step (DriverGet (Some folder_url))
    (fun _ =>
       pause (delay cfg)
         (step (WaitPresence 15 (ByClassName "ef-directory"))
            (fun _ =>
               pause (delay cfg)
                 (step (FindElements (ByClassName "ef-item-row")) k (fun _ => failed)))
            (fun _ => failed)))
    (fun _ => failed).

Section Visit.
(** the grammar of a nested visit; [None] when the recursion limit is
    reached, and the call raises at once *)
Context (visit : option (string -> string -> bool -> list Event -> Prop)).

(** the descent into a subfolder: one bracketed visit, complete before
    anything else happens; what follows depends on whether it returned *)
Definition descent (subfolder_path subfolder_url : string)
    (returned raised : list Event -> Prop) (t : list Event) : Prop :=
  match visit with
  | None => raised t
  | Some nested =>
      exists ret body rest,
        t = ECall (CallFolder subfolder_path subfolder_url) ret body :: rest
        /\ nested subfolder_path subfolder_url ret body
        /\ (if (ret : bool) then returned rest else raised rest)
  end.

(** one row in the first loop.  [items] is the listing read last and
    [folder_name] the name read last; a failure is logged with a screenshot
    named after [folder_name], and the loop goes on. *)
Definition folder_row_pass (current_dir folder_url : string) (item : Elem)
    (items : list Elem) (folder_name : string)
    (k : list Elem -> string -> list Event -> Prop) : list Event -> Prop :=
  let failed name :=
    shot_then ("subfolder_error_" +:+ _sanitize_filename name) (k items name) in
  step (GetAttribute item "class")
    (fun item_classes =>
       match item_classes with
       | None => failed folder_name
       | Some classes =>
           if Py.contains "ef-item-folder" classes
           then
             step (ElFindElement item (ByClassName "ef-name-col__text"))
               (fun folder_name_element =>
                  step (Text folder_name_element)
                    (fun text =>
                       let name := Py.strip_ws text in
                       let subfolder_path :=
                         Py.join current_dir (_sanitize_filename name) in
                       step (Makedirs subfolder_path)
                         (fun _ =>
                            step (Click folder_name_element)
                              (fun _ =>
                                 pause (delay cfg)
                                   (step CurrentUrl
                                      (fun subfolder_url =>
                                         descent subfolder_path subfolder_url
                                           (way_back folder_url
                                              (fun items' => k items' name)
                                              (failed name))
                                           (failed name))
                                      (fun _ => failed name)))
                              (fun _ => failed name))
                         (fun _ => failed name))
                    (fun _ => failed folder_name))
               (fun _ => failed folder_name)
           else k items folder_name
       end)
    (fun _ => failed folder_name).

(** the first loop: the rows of the listing read at the opening, in
    order *)
Fixpoint first_pass (current_dir folder_url : string) (rows : list Elem)
    (items : list Elem) (folder_name : string)
    (k : list Elem -> list Event -> Prop) (t : list Event) : Prop :=
  match rows with
  | [] => k items t
  | item :: rows' =>
      folder_row_pass current_dir folder_url item items folder_name
        (fun items' folder_name' =>
           first_pass current_dir folder_url rows' items' folder_name' k) t
  end.

(** one row in the second loop: a row that is not a folder is downloaded
    under its sanitized name; a failure ends the row *)
Definition file_row_pass (current_dir : string) (item : Elem)
    (k : list Event -> Prop) : list Event -> Prop :=
  step (GetAttribute item "class")
    (fun item_classes =>
       match item_classes with
       | None => k
       | Some classes =>
           if Py.contains "ef-item-folder" classes
           then k
           else
             step (ElFindElement item (ByClassName "ef-name-col__text"))
               (fun file_name_element =>
                  step (Text file_name_element)
                    (fun text =>
                       step (ElFindElement item (ByCssSelector "a.ef-name-col__link"))
                         (fun file_link =>
                            step (GetAttribute file_link "href")
                              (fun file_url =>
                                 download file_url
                                   (Py.join current_dir
                                      (_sanitize_filename (Py.strip_ws text)))
                                   k)
                              (fun _ => k))
                         (fun _ => k))
                    (fun _ => k))
               (fun _ => k)
       end)
    (fun _ => k).

(** the second loop: the rows of the listing read last, in order *)
Definition second_pass (current_dir : string) (items : list Elem)
  : list Event -> Prop :=
  each (file_row_pass current_dir) items ends.


End Visit.


End FolderGrammar.

(** ** The events of the other download sites

    Outside the Files section the local name of a download is the name the
    site settled on, sanitized, with the default extension rule applied.
    The name is read from the page, request by request. *)

Section SiteGrammar.
Context (cfg : Config).

(** the name taken from the URL: the last segment of its path, up to the
    first ["?"], decoded *)
Definition url_name (file_url : option string) : Outcome string :=
  match urlparse_path cfg file_url with
  | Ok path => Ok (unquote cfg (hd EmptyString (Py.split (Py.basename path) "?")))
  | Raise e => Raise e
  end.

(** the text of a link, or the name from the URL when the text is empty *)
Definition text_or_url_name (text : string) (file_url : option string)
  : Outcome string :=
  if String.eqb (Py.strip_ws text) EmptyString
  then url_name file_url
  else Ok (Py.strip_ws text).

Definition or_default (fallback : string) (name : Outcome string) : Outcome string :=
  match name with
  | Ok n => Ok (if String.eqb n EmptyString then fallback else n)
  | Raise e => Raise e
  end.

(** the download under the name settled on; no download when settling
    raised *)
Definition named_download (file_url : option string) (dir : string)
    (file_name : Outcome string) (k : list Event -> Prop) : list Event -> Prop :=
  match file_name with
  | Ok name =>
      download cfg file_url (Py.join dir (safe_name_with_default_extension name)) k
  | Raise _ => k
  end.







(** a link of a module item: the name is the item's name, else the text
    of the link, else the name from the URL *)
Definition module_link_pass (module_dir item_name : string) (link : Elem)
    (k : list Event -> Prop) : list Event -> Prop :=
  step (GetAttribute link "href")
    (fun link_url =>
       if href_downloadable link_url
       then
         if String.eqb item_name EmptyString
         then
           step (Text link)
             (fun text =>
                named_download link_url module_dir (text_or_url_name text link_url) k)
             (fun _ => k)
         else named_download link_url module_dir (Ok item_name) k
       else k)
    (fun _ => k).

Definition module_item_pass (module_dir : string) (item : Elem)
    (k : list Event -> Prop) : list Event -> Prop :=
  step (GetAttribute item "class")
    (fun _ =>
       step (ElFindElement item (ByCssSelector ".item_name"))
         (fun item_name_elem =>
            step (Text item_name_elem)
              (fun text =>
                 step (ElFindElements item (ByTagName "a"))
                   (fun links =>
                      each (module_link_pass module_dir (Py.strip_ws text)) links k)
                   (fun _ => k))
              (fun _ => k))
         (fun _ => k))
    (fun _ => k).

(** a collapsed module is expanded; a failure on the way is ignored *)
Definition expand_pass (module : Elem) (k : list Event -> Prop) : list Event -> Prop :=
  step (GetAttribute module "class")
    (fun classes =>
       match classes with
       | None => k
       | Some c =>
           if Py.contains "collapsed" c
           then
             step (ElFindElement module (ByCssSelector ".expand_module_link"))
               (fun expand_button =>
                  step (Click expand_button) (fun _ => pause (delay cfg) k) (fun _ => k))
               (fun _ => k)
           else k
       end)
    (fun _ => k).

Definition module_pass (course_dir : string) (module : Elem)
    (k : list Event -> Prop) : list Event -> Prop :=
  step (ElFindElement module (ByCssSelector ".name"))
    (fun module_name_elem =>
       step (Text module_name_elem)
         (fun text =>
            let module_dir :=
              Py.join course_dir (_sanitize_filename (Py.strip_ws text)) in
            step (Makedirs module_dir)
              (fun _ =>
                 expand_pass module
                   (step (ElFindElements module (ByCssSelector ".context_module_item"))
                      (fun module_items =>
                         each (module_item_pass module_dir) module_items k)
                      (fun _ => k)))
              (fun _ => k))
         (fun _ => k))
    (fun _ => k).


End SiteGrammar.
(** * Properties *)

(** ** Strings *)

Section StringFacts.

Lemma chars_of_chars l : Py.chars (Py.of_chars l) = l.
Proof. apply list_ascii_of_string_of_list_ascii. Qed.

Lemma of_chars_chars s : Py.of_chars (Py.chars s) = s.
Proof. apply string_of_list_ascii_of_string. Qed.

Lemma chars_app a b : Py.chars (a +:+ b) = Py.chars a ++ Py.chars b.
Proof. induction a as [|c a IH]; simpl; [done | by rewrite IH]. Qed.

Lemma of_chars_app k l : Py.of_chars (k ++ l) = Py.of_chars k +:+ Py.of_chars l.
Proof. induction k as [|c k IH]; simpl; [done | by rewrite IH]. Qed.

Lemma chars_inj s t : Py.chars s = Py.chars t -> s = t.
Proof. intros H. by rewrite <- (of_chars_chars s), H, of_chars_chars. Qed.

Lemma append_assoc a b c : (a +:+ b) +:+ c = a +:+ (b +:+ c).
Proof. apply chars_inj. by rewrite !chars_app, <- List.app_assoc. Qed.

Lemma chars_nil s : Py.chars s = [] -> s = EmptyString.
Proof. by destruct s. Qed.

Lemma is_prefix_spec p l : Py.is_prefix p l = true <-> exists k, l = p ++ k.
Proof.
  revert l. induction p as [|a p IH]; intros l; simpl.
  - split; [eauto | done].
  - destruct l as [|b l].
    + split; [done | intros [k Hk]; discriminate].
    + rewrite andb_true_iff, Ascii.eqb_eq, IH. split.
      * intros [-> [k ->]]. by exists k.
      * intros [k Hk]. injection Hk as -> ->. eauto.
Qed.

Lemma has_infix_spec p l :
  Py.has_infix p l = true <-> exists a b, l = a ++ p ++ b.
Proof.
  induction l as [|c l IH]; simpl.
  - rewrite orb_false_r, is_prefix_spec. split.
    + intros [k Hk]. by exists [], k.
    + intros (a & b & Hab). destruct a; [by exists b|discriminate].
  - rewrite orb_true_iff, is_prefix_spec, IH. split.
    + intros [[k Hk] | (a & b & ->)].
      * by exists [], k.
      * by exists (c :: a), b.
    + intros (a & b & Hab). destruct a as [|c' a].
      * left. by exists b.
      * right. injection Hab as -> ->. by exists a, b.
Qed.

Lemma contains_spec sub s : Py.contains sub s = true <-> occurs_in sub s.
Proof.
  unfold Py.contains, occurs_in. rewrite has_infix_spec. split.
  - intros (a & b & Hab). exists (Py.of_chars a), (Py.of_chars b).
    apply chars_inj. by rewrite !chars_app, !chars_of_chars.
  - intros (pre & post & ->). exists (Py.chars pre), (Py.chars post).
    by rewrite !chars_app.
Qed.

Lemma endswith_spec s suf : Py.endswith s suf = true <-> ends_with s suf.
Proof.
  unfold Py.endswith, ends_with. rewrite is_prefix_spec. split.
  - intros [k Hk]. exists (Py.of_chars (rev k)). apply chars_inj.
    rewrite chars_app, chars_of_chars.
    by rewrite <- (rev_involutive (Py.chars s)), Hk, rev_app_distr, rev_involutive.
  - intros [pre ->]. exists (rev (Py.chars pre)).
    by rewrite chars_app, rev_app_distr.
Qed.

Lemma lower_app a b : Py.lower (a +:+ b) = Py.lower a +:+ Py.lower b.
Proof. unfold Py.lower. by rewrite chars_app, map_app, of_chars_app. Qed.

Lemma mem_char_spec c cs : Py.mem_char c cs = true <-> In c cs.
Proof.
  unfold Py.mem_char. rewrite existsb_exists. split.
  - intros (x & Hx & Heq). apply Ascii.eqb_eq in Heq. by subst.
  - intros H. exists c. split; [done | apply Ascii.eqb_refl].
Qed.

(** [lstrip] removes a run of stripped characters and stops at the first
    character that is kept *)
Lemma lstrip_chars_spec cs l :
  exists a, l = a ++ Py.lstrip_chars cs l
            /\ Forall (fun c => In c cs) a
            /\ match Py.lstrip_chars cs l with
               | [] => True
               | c :: _ => ~ In c cs
               end.
Proof.
  induction l as [|c l (a & Hl & Ha & Hhd)]; simpl.
  - exists []. by repeat split.
  - destruct (Py.mem_char c cs) eqn:Hc.
    + exists (c :: a). split_and!.
      * simpl. by rewrite <- Hl.
      * constructor; [by apply mem_char_spec | done].
      * done.
    + exists []. split_and!; [done | constructor |].
      rewrite <- mem_char_spec, Hc. done.
Qed.

(** [strip] returns a middle part of its argument: what is cut off on
    either side consists of stripped characters, and the part that stays
    has none of them at its two ends *)
Lemma strip_chars_spec cs l :
  exists a b, l = a ++ Py.strip_chars cs l ++ b
              /\ Forall (fun c => In c cs) a
              /\ Forall (fun c => In c cs) b
              /\ (forall c r, Py.strip_chars cs l = c :: r -> ~ In c cs)
              /\ (forall r c, Py.strip_chars cs l = r ++ [c] -> ~ In c cs).
Proof.
  unfold Py.strip_chars.
  destruct (lstrip_chars_spec cs l) as (a & Hl & Ha & Hhd).
  set (l1 := Py.lstrip_chars cs l) in *.
  destruct (lstrip_chars_spec cs (rev l1)) as (b & Hr & Hb & Hlast).
  set (l2 := Py.lstrip_chars cs (rev l1)) in *.
  assert (Hl1 : l1 = rev l2 ++ rev b).
  { by rewrite <- (rev_involutive l1), Hr, rev_app_distr. }
  exists a, (rev b). split_and!.
  - by rewrite <- Hl1.
  - done.
  - by apply List.Forall_rev.
  - intros c r Hcr. rewrite Hcr in Hl1. rewrite Hl1 in Hhd. exact Hhd.
  - intros r c Hrc.
    assert (Hl2 : l2 = c :: rev r).
    { by rewrite <- (rev_involutive l2), Hrc, rev_app_distr. }
    rewrite Hl2 in Hlast. exact Hlast.
Qed.

Lemma lstrip_chars_all cs l :
  Forall (fun c => In c cs) l -> Py.lstrip_chars cs l = [].
Proof.
  induction 1 as [|c l Hc _ IH]; simpl; [done|].
  apply mem_char_spec in Hc. by rewrite Hc.
Qed.

Lemma lstrip_chars_none cs c l :
  ~ In c cs -> Py.lstrip_chars cs (c :: l) = c :: l.
Proof.
  intros Hc. simpl. destruct (Py.mem_char c cs) eqn:E; [|done].
  by apply mem_char_spec in E.
Qed.

End StringFacts.
(** ** The filename sanitizer *)

Section Sanitizer.

Lemma replace_invalid_pointwise c :
  fold_left (fun x old => Py.subst_char old "_" x) invalid_chars c = safe_char c.
Proof. by destruct c as [[] [] [] [] [] [] [] []]. Qed.

Lemma safe_char_valid c : ~ In (safe_char c) invalid_chars.
Proof.
  rewrite <- mem_char_spec.
  by destruct c as [[] [] [] [] [] [] [] []].
Qed.

Lemma fold_replace_chars olds s :
  Py.chars (fold_left (fun name old => Py.replace_char old "_" name) olds s)
  = map (fun c => fold_left (fun x old => Py.subst_char old "_" x) olds c)
      (Py.chars s).
Proof.
  revert s. induction olds as [|old olds IH]; intros s; simpl.
  - by rewrite map_id.
  - rewrite IH. unfold Py.replace_char. by rewrite chars_of_chars, map_map.
Qed.

(** the nine replacements amount to one pass that maps every unsafe
    character to an underscore *)
Lemma replace_invalid_chars filename :
  Py.chars (replace_invalid filename) = map safe_char (Py.chars filename).
Proof.
  unfold replace_invalid. rewrite fold_replace_chars.
  apply map_ext. intros c. apply replace_invalid_pointwise.
Qed.

Lemma edge_char_strip c : In c (Py.chars ". ") <-> edge_char c.
Proof. unfold edge_char. simpl. intuition. Qed.

Lemma sanitize_unfold filename :
  Py.chars (_sanitize_filename filename)
  = match Py.strip_chars (Py.chars ". ") (map safe_char (Py.chars filename)) with
    | [] => Py.chars "unnamed"
    | kept => kept
    end.
Proof.
  unfold _sanitize_filename, Py.strip. rewrite replace_invalid_chars.
  destruct (Py.strip_chars _ _) as [|c kept] eqn:E; simpl; [done|].
  by rewrite chars_of_chars.
Qed.

Lemma Forall_edge cs : Forall (fun c => In c (Py.chars ". ")) cs <-> Forall edge_char cs.
Proof. apply Forall_iff. intros c. apply edge_char_strip. Qed.

End Sanitizer.

(** C7 (amended).  [_sanitize_filename] is total; it replaces every
    character of the unsafe set by an underscore and keeps the others, so
    its result has no unsafe character; it then cuts off the leading and
    trailing spaces and periods (other whitespace stays), so the result is
    not empty and neither starts nor ends with a space or a period; and
    [sanitize("A/B:C*?.pdf") = "A_B_C__.pdf"]. *)
Theorem sanitize_filename_safe (filename : string) :
  let replaced := map safe_char (Py.chars filename) in
  let result := Py.chars (_sanitize_filename filename) in
  Py.chars (replace_invalid filename) = replaced
  /\ Forall (fun c => ~ In c invalid_chars) result
  /\ result <> []
  /\ (forall c rest, result = c :: rest -> ~ edge_char c)
  /\ (forall rest c, result = rest ++ [c] -> ~ edge_char c)
  /\ (exists before kept after,
         replaced = before ++ kept ++ after
         /\ Forall edge_char before /\ Forall edge_char after
         /\ result = match kept with [] => Py.chars "unnamed" | _ => kept end)
  /\ _sanitize_filename "A/B:C*?.pdf" = "A_B_C__.pdf".
Proof.
  intros replaced result.
  destruct (strip_chars_spec (Py.chars ". ") replaced)
    as (before & after & Hsplit & Hbefore & Hafter & Hfirst & Hlast).
  assert (Hres : result = match Py.strip_chars (Py.chars ". ") replaced with
                          | [] => Py.chars "unnamed"
                          | kept => kept
                          end) by apply sanitize_unfold.
  assert (Hvalid : Forall (fun c => ~ In c invalid_chars) replaced).
  { apply List.Forall_forall. intros c Hc. apply in_map_iff in Hc as (c0 & <- & _).
    apply safe_char_valid. }
  split_and!.
  - apply replace_invalid_chars.
  - rewrite Hres. destruct (Py.strip_chars _ replaced) as [|c kept] eqn:E.
    + repeat constructor; rewrite <- mem_char_spec; done.
    + rewrite Hsplit in Hvalid.
      apply Forall_app in Hvalid as [_ Hvalid].
      by apply Forall_app in Hvalid as [Hvalid _].
  - rewrite Hres. by destruct (Py.strip_chars _ replaced).
  - intros c rest Hc. rewrite Hres in Hc.
    destruct (Py.strip_chars _ replaced) as [|c' kept] eqn:E.
    + injection Hc as <- _. unfold edge_char. intros [?|?]; discriminate.
    + rewrite <- edge_char_strip. by eapply Hfirst.
  - intros rest c Hc. rewrite Hres in Hc.
    destruct (Py.strip_chars _ replaced) as [|c' kept] eqn:E.
    + change (Py.chars "unnamed") with (Py.chars "unname" ++ ["d"%char]) in Hc.
      apply app_inj_tail in Hc as [_ <-].
      unfold edge_char. intros [?|?]; discriminate.
    + rewrite <- edge_char_strip. by eapply Hlast.
  - exists before, (Py.strip_chars (Py.chars ". ") replaced), after.
    split_and!; [done | by apply Forall_edge | by apply Forall_edge |].
    rewrite Hres. by destruct (Py.strip_chars _ replaced).
  - reflexivity.
Qed.

(** C7, as stated, fails for whitespace other than the space: a leading
    tab is kept. *)
Lemma sanitize_filename_keeps_tab :
  _sanitize_filename (String "009" "notes") = String "009" "notes"
  /\ Py.is_whitespace "009" = true.
Proof. split; reflexivity. Qed.

(** C8 (amended).  An input that is empty or consists only of spaces and
    periods is mapped to ["unnamed"]; a non-empty input that consists only
    of characters of the unsafe set is mapped to as many underscores, not
    to the placeholder. *)
Theorem sanitize_filename_placeholder (filename : string) :
  (Forall edge_char (Py.chars filename) -> _sanitize_filename filename = "unnamed")
  /\ (filename <> EmptyString ->
      Forall (fun c => In c invalid_chars) (Py.chars filename) ->
      _sanitize_filename filename
      = Py.of_chars (repeat "_"%char (String.length filename))
      /\ _sanitize_filename filename <> "unnamed").
Proof.
  split.
  - intros Hedge. apply chars_inj. rewrite sanitize_unfold.
    assert (Hsame : map safe_char (Py.chars filename) = Py.chars filename).
    { rewrite <- (map_id (Py.chars filename)) at 2. apply map_ext_Forall.
      eapply Forall_impl; [exact Hedge|]. by intros c [-> | ->]. }
    rewrite Hsame. unfold Py.strip_chars.
    rewrite (lstrip_chars_all _ (Py.chars filename)) by by apply Forall_edge.
    done.
  - intros Hne Hall.
    assert (Hrep : map safe_char (Py.chars filename)
                   = repeat "_"%char (String.length filename)).
    { clear Hne. induction filename as [|c s IH]; [done|].
      change (Py.chars (String c s)) with (c :: Py.chars s) in *.
      apply Forall_cons in Hall as [Hc Hs]. simpl. f_equal; [|by apply IH].
      unfold safe_char. apply mem_char_spec in Hc. by rewrite Hc. }
    assert (Hkeep : Py.strip_chars (Py.chars ". ")
                      (repeat "_"%char (String.length filename))
                    = repeat "_"%char (String.length filename)).
    { unfold Py.strip_chars. destruct filename as [|c s]; [done|]. simpl String.length.
      change (repeat "_"%char (S (String.length s)))
        with ("_"%char :: repeat "_"%char (String.length s)).
      rewrite lstrip_chars_none by (simpl; intuition discriminate).
      pose proof (rev_repeat (S (String.length s)) "_"%char) as Hrev.
      simpl repeat in Hrev at 2.
      simpl repeat in Hrev. rewrite Hrev.
      rewrite lstrip_chars_none by (simpl; intuition discriminate).
      by rewrite <- Hrev, rev_involutive. }
    assert (Hres : Py.chars (_sanitize_filename filename)
                   = repeat "_"%char (String.length filename)).
    { rewrite sanitize_unfold, Hrep, Hkeep. by destruct filename. }
    split.
    + apply chars_inj. by rewrite chars_of_chars.
    + intros Heq. rewrite Heq in Hres. destruct filename as [|c s]; [done|].
      discriminate.
Qed.

Lemma sanitize_filename_placeholder_witness :
  _sanitize_filename " .. " = "unnamed"
  /\ _sanitize_filename "/?*" = "___".
Proof.
  split.
  - apply (proj1 (sanitize_filename_placeholder " .. ")).
    repeat (apply List.Forall_cons; [(by left) || (by right)|]).
    apply List.Forall_nil.
  - apply (proj2 (sanitize_filename_placeholder "/?*")).
    + discriminate.
    + repeat (apply List.Forall_cons; [simpl; auto 10|]).
      apply List.Forall_nil.
Defined.

(** C8, as stated, fails: an all-unsafe input is not mapped to the
    placeholder. *)
Lemma sanitize_filename_all_unsafe :
  Forall (fun c => In c invalid_chars) (Py.chars "<:>")
  /\ _sanitize_filename "<:>" = "___"
  /\ _sanitize_filename "<:>" <> "unnamed".
Proof.
  split_and!; [|reflexivity | discriminate].
  repeat (apply List.Forall_cons; [simpl; auto 10|]). apply List.Forall_nil.
Qed.

(** ** The link classifier *)

(** C3 (amended).  [_is_downloadable_link] is a function of the URL string
    alone and returns true exactly when the URL is not empty and either
    contains ["/files/"] together with one of the substrings ["/download"],
    ["?download=1"], ["?download_frd=1"] (each anywhere in the URL), or its
    lower-cased form ends with an allow-listed extension or contains one
    immediately followed by ["?"]. *)
Theorem is_downloadable_link_iff (url : string) :
  _is_downloadable_link url = true <->
  url <> EmptyString
  /\ ((occurs_in "/files/" url
       /\ (occurs_in "/download" url \/ occurs_in "?download=1" url
           \/ occurs_in "?download_frd=1" url))
      \/ exists ext, In ext file_extensions
                     /\ (ends_with (Py.lower url) ext
                         \/ occurs_in (ext +:+ "?") (Py.lower url))).
Proof.
  unfold _is_downloadable_link.
  destruct (String.eqb url EmptyString) eqn:Hempty.
  - apply String.eqb_eq in Hempty. split; [done | by intros [? _]].
  - apply String.eqb_neq in Hempty.
    rewrite <- !contains_spec.
    destruct (Py.contains "/files/" url
              && (Py.contains "/download" url || Py.contains "?download=1" url
                  || Py.contains "?download_frd=1" url)) eqn:Hfiles.
    + apply andb_true_iff in Hfiles as [Hf Hd].
      rewrite !orb_true_iff in Hd. split; [|done].
      intros _. split; [done|]. left. split; [done|]. tauto.
    + rewrite existsb_exists. split.
      * intros (ext & Hin & Hext). split; [done|]. right. exists ext.
        split; [done|]. apply orb_true_iff in Hext.
        by rewrite <- endswith_spec, <- contains_spec.
      * intros [_ [[Hf Hd] | (ext & Hin & Hext)]].
        -- rewrite Hf in Hfiles. simpl in Hfiles.
           apply orb_false_iff in Hfiles as [Hab Hc].
           apply orb_false_iff in Hab as [Ha Hb].
           destruct Hd as [H|[H|H]]; congruence.
        -- exists ext. split; [done|]. apply orb_true_iff.
           by rewrite endswith_spec, contains_spec.
Qed.

(** C3, as stated, fails in both directions: a files URL whose
    [download=1] flag is not the first query parameter is rejected, and a
    files URL with ["/download"] inside a longer path segment, or with an
    extension only in its query, is accepted. *)
Lemma is_downloadable_link_differs :
  (AsSpecified.isDownloadable "https://canvas.test/courses/5/files/42?wrap=1&download=1" = true
   /\ _is_downloadable_link "https://canvas.test/courses/5/files/42?wrap=1&download=1" = false)
  /\ (AsSpecified.isDownloadable "https://canvas.test/courses/5/files/42/downloads_log" = false
      /\ _is_downloadable_link "https://canvas.test/courses/5/files/42/downloads_log" = true)
  /\ (AsSpecified.isDownloadable "https://canvas.test/courses/5/pages/view?next=a.pdf" = false
      /\ _is_downloadable_link "https://canvas.test/courses/5/pages/view?next=a.pdf" = true).
Proof. repeat split; reflexivity. Qed.
(** ** The effect monad and traces *)

#[export] Instance Forall_sequential (P : Event -> Prop) : Sequential (Forall P).
Proof. split; [constructor | intros t1 t2 H1 H2; by apply Forall_app]. Qed.

#[export] Instance True_sequential : Sequential (fun _ => True).
Proof. by split. Qed.

#[export] Instance True_requests : Requests (fun _ => True).
Proof. by intros e _. Qed.

Lemma Forall_requests (P : Event -> Prop) :
  (forall e, match e with ECall _ _ _ => False | _ => True end -> P e) ->
  Requests (Forall P).
Proof. intros H e He. constructor; [by apply H | constructor]. Qed.

Section Framework.
Context {Env : Type} (T : list Event -> Prop) `{!Sequential T}.

Lemma emits_ret {A} (a : A) : emits T (mret a : M Env A).
Proof. intros w. exists []. split; [by rewrite app_nil_r | apply sequential_nil]. Qed.

Lemma emits_raise {A} e : emits T (raise e : M Env A).
Proof. intros w. exists []. split; [by rewrite app_nil_r | apply sequential_nil]. Qed.

Lemma emits_of_outcome {A} (r : Outcome A) : emits T (of_outcome r : M Env A).
Proof. intros w. exists []. split; [by rewrite app_nil_r | apply sequential_nil]. Qed.

Lemma emits_bind {A B} (m : M Env A) (k : A -> M Env B) :
  emits T m -> (forall a, emits T (k a)) -> emits T (m ≫= k).
Proof.
  intros Hm Hk w. unfold mbind, M_bind.
  destruct (Hm w) as (t1 & E1 & H1). destruct (m w) as [[a|e] w1]; simpl in *.
  - destruct (Hk a w1) as (t2 & E2 & H2). exists (t1 ++ t2).
    rewrite E2, E1, <- List.app_assoc. split; [done | by apply sequential_app].
  - by exists t1.
Qed.

Lemma emits_attempt {A} (m : M Env A) : emits T m -> emits T (attempt m).
Proof.
  intros Hm w. unfold attempt. destruct (Hm w) as (t & E & H).
  destruct (m w) as [r w1]. by exists t.
Qed.

Lemma emits_try_except {A} (m : M Env A) (h : Exn -> M Env A) :
  emits T m -> (forall e, emits T (h e)) -> emits T (try_except m h).
Proof.
  intros Hm Hh w. unfold try_except.
  destruct (Hm w) as (t1 & E1 & H1). destruct (m w) as [[a|e] w1]; simpl in *.
  - by exists t1.
  - destruct (Hh e w1) as (t2 & E2 & H2). exists (t1 ++ t2).
    rewrite E2, E1, <- List.app_assoc. split; [done | by apply sequential_app].
Qed.

Lemma emits_try_except_timeout {A} (m h : M Env A) :
  emits T m -> emits T h -> emits T (try_except_timeout m h).
Proof.
  intros Hm Hh w. unfold try_except_timeout.
  destruct (Hm w) as (t1 & E1 & H1). destruct (m w) as [[a|[|name]] w1]; simpl in *.
  - by exists t1.
  - destruct (Hh w1) as (t2 & E2 & H2). exists (t1 ++ t2).
    rewrite E2, E1, <- List.app_assoc. split; [done | by apply sequential_app].
  - by exists t1.
Qed.

Lemma emits_try_finally {A} (m : M Env A) (f : M Env unit) :
  emits T m -> emits T f -> emits T (try_finally m f).
Proof.
  intros Hm Hf w. unfold try_finally.
  destruct (Hm w) as (t1 & E1 & H1). destruct (m w) as [r w1]; simpl in *.
  destruct (Hf w1) as (t2 & E2 & H2). exists (t1 ++ t2).
  split; [|by apply sequential_app].
  destruct (f w1) as [[[]|e] w2]; simpl in *; by rewrite E2, E1, <- List.app_assoc.
Qed.

Lemma emits_emit ev : T [ev] -> emits T (emit ev : M Env unit).
Proof. intros H w. by exists [ev]. Qed.

Lemma emits_scope {A} f (m : M Env A) :
  (forall returned body, T [ECall f returned body]) -> emits T (scope f m).
Proof.
  intros H w. unfold scope. destruct (m w) as [r w1]. simpl. eauto.
Qed.

Lemma emits_get_fs : emits T (get_fs : M Env _).
Proof. intros w. exists []. split; [by rewrite app_nil_r | apply sequential_nil]. Qed.

Lemma emits_modify_fs f : emits T (modify_fs f : M Env _).
Proof. intros w. exists []. split; [by rewrite app_nil_r | apply sequential_nil]. Qed.

Lemma emits_get_driver : emits T (get_driver : M Env _).
Proof. intros w. exists []. split; [by rewrite app_nil_r | apply sequential_nil]. Qed.

Lemma emits_set_driver b : emits T (set_driver b : M Env _).
Proof. intros w. exists []. split; [by rewrite app_nil_r | apply sequential_nil]. Qed.

Lemma emits_for_each {A} (xs : list A) (body : A -> M Env unit) :
  (forall x, emits T (body x)) -> emits T (for_each xs body).
Proof.
  intros Hbody. induction xs as [|x xs IH]; simpl.
  - apply emits_ret.
  - apply emits_bind; [apply Hbody | intros _; apply IH].
Qed.

Lemma emits_for_fold {A St} (xs : list A) (body : A -> St -> M Env St) st :
  (forall x st, emits T (body x st)) -> emits T (for_fold xs body st).
Proof.
  intros Hbody. revert st. induction xs as [|x xs IH]; intros st; simpl.
  - apply emits_ret.
  - apply emits_bind; [apply Hbody | intros st'; apply IH].
Qed.

Context `{!Requests T}.

Lemma emits_sleep n : emits T (sleep n : M Env unit).
Proof. apply emits_emit. by apply requests_one. Qed.

Lemma emits_call handle {A} (c : Cmd A) : emits T (call handle c : M Env A).
Proof.
  intros w. unfold call. destruct (handle A c (w_env w)) as [r s']. simpl.
  exists [ECmd c r]. split; [done | by apply requests_one].
Qed.

Lemma emits_require_str o : emits T (require_str o : M Env _).
Proof. destruct o; [apply emits_ret | apply emits_raise]. Qed.

Lemma emits_contains_in sub o : emits T (contains_in sub o : M Env _).
Proof. destruct o; [apply emits_ret | apply emits_raise]. Qed.

End Framework.

Lemma emits_weaken {Env A} (T T' : list Event -> Prop) (m : M Env A) :
  (forall t, T t -> T' t) -> emits T m -> emits T' m.
Proof. intros HT Hm w. destruct (Hm w) as (t & E & H). eauto. Qed.

Create HintDb emits.

(** unfold the monad operations and compute on worlds *)
Ltac msimpl :=
  repeat (progress
            (unfold mbind, M_bind, mret, M_ret, try_except, try_except_timeout,
               try_finally, attempt, call, emit, sleep, raise, of_outcome,
               get_fs, modify_fs, get_driver, set_driver, swallow;
             cbn beta iota zeta delta [fst snd w_env w_fs w_driver w_trace is_ok andb orb negb])).

Tactic Notation "msimpl" "in" hyp(H) :=
  repeat (progress
            (unfold mbind, M_bind, mret, M_ret, try_except, try_except_timeout,
               try_finally, attempt, call, emit, sleep, raise, of_outcome,
               get_fs, modify_fs, get_driver, set_driver, swallow in H;
             cbn beta iota zeta delta [fst snd w_env w_fs w_driver w_trace is_ok andb orb negb] in H)).

(** one structural step of a proof that a computation emits [T] *)
Ltac emits_step :=
  lazymatch goal with
  | |- emits _ (mret _) => apply emits_ret; try apply _
  | |- emits _ (raise _) => apply emits_raise; try apply _
  | |- emits _ (of_outcome _) => apply emits_of_outcome; try apply _
  | |- emits _ (_ ≫= _) => apply emits_bind; [try apply _ | | intros ?]
  | |- emits _ (attempt _) => apply emits_attempt
  | |- emits _ (try_except _ _) => apply emits_try_except; [try apply _ | | intros ?]
  | |- emits _ (try_except_timeout _ _) => apply emits_try_except_timeout; [try apply _ | | ]
  | |- emits _ (try_finally _ _) => apply emits_try_finally; [try apply _ | | ]
  | |- emits _ (sleep _) => apply emits_sleep; try apply _
  | |- emits _ (call _ _) => apply emits_call; try apply _
  | |- emits _ get_fs => apply emits_get_fs; try apply _
  | |- emits _ (modify_fs _) => apply emits_modify_fs; try apply _
  | |- emits _ get_driver => apply emits_get_driver; try apply _
  | |- emits _ (set_driver _) => apply emits_set_driver; try apply _
  | |- emits _ (require_str _) => apply emits_require_str; try apply _
  | |- emits _ (contains_in _ _) => apply emits_contains_in; try apply _
  | |- emits _ (for_each _ _) => apply emits_for_each; [try apply _ | intros ?]
  | |- emits _ (for_fold _ _ _) => apply emits_for_fold; [try apply _ | intros ? ?]
  | |- emits _ (swallow _ _) => apply emits_ret; try apply _
  | |- emits _ (match ?x with _ => _ end) => destruct x
  | |- emits _ ((match ?x with _ => _ end) _) => destruct x
  | |- emits _ (let _ := _ in _) => cbv zeta
  | |- emits _ ((fun _ => _) _) => cbv beta
  | |- emits _ ((fun _ => _) _ _) => cbv beta
  end.

Ltac emits_auto :=
  repeat (first [ solve [eauto with emits typeclass_instances] | emits_step ]).

(** *** Reading a run *)

Lemma bind_ok {Env A B} (m : M Env A) (k : A -> M Env B) w b w' :
  (m ≫= k) w = (Ok b, w') -> exists a w1, m w = (Ok a, w1) /\ k a w1 = (Ok b, w').
Proof. unfold mbind, M_bind. destruct (m w) as [[a|e] w1]; [eauto | done]. Qed.

Lemma bind_run {Env A B} (m : M Env A) (k : A -> M Env B) w :
  (m ≫= k) w = match m w with
               | (Ok a, w') => k a w'
               | (Raise e, w') => (Raise e, w')
               end.
Proof. done. Qed.

Lemma call_ok {Env A} (handle : Handler Env) (c : Cmd A) w a w' :
  call handle c w = (Ok a, w') ->
  w_trace w' = w_trace w ++ [ECmd c (Ok a)] /\ w_fs w' = w_fs w
  /\ w_driver w' = w_driver w.
Proof.
  unfold call. destruct (handle A c (w_env w)) as [r s']. intros H. by simplify_eq.
Qed.

Lemma emits_run {Env A} (T : list Event -> Prop) (m : M Env A) w r w' :
  emits T m -> m w = (r, w') -> exists t, w_trace w' = w_trace w ++ t /\ T t.
Proof. intros Hm E. destruct (Hm w) as (t & Et & Ht). rewrite E in Et. eauto. Qed.

(** ** The download fallback chain *)

Section Download.
Context {Env : Type} (handle : Handler Env) (cfg : Config).

Lemma path_exists_getsize (fs : gmap string (list byte)) path content :
  fs !! path = Some content ->
  path_exists fs path = true /\ getsize fs path = length content.
Proof.
  intros H. unfold path_exists, getsize. rewrite H. split; [|done].
  by apply bool_decide_eq_true_2.
Qed.

Lemma take_screenshot_returns name (w : World Env) :
  exists w', _take_screenshot handle name w = (Ok tt, w')
             /\ w_fs w' = w_fs w /\ w_driver w' = w_driver w.
Proof.
  unfold _take_screenshot. msimpl.
  destruct (w_driver w) eqn:Hd; [|by eexists].
  msimpl.
  destruct (handle _ (SaveScreenshot name) (w_env w)) as [[[]|e] s']; by eexists.
Qed.

Section Emits.
Context (T : list Event -> Prop) `{!Sequential T, !Requests T}.

Lemma emits_take_screenshot name : emits T (_take_screenshot handle name).
Proof. unfold _take_screenshot. emits_auto. Qed.

Lemma emits_open_wb path : emits T (open_wb handle path).
Proof. unfold open_wb. emits_auto. Qed.

Lemma emits_save_file response path :
  emits T (_save_file_with_progress handle response path).
Proof.
  unfold _save_file_with_progress, content_length, write_chunk, _format_size.
  pose proof emits_open_wb. emits_auto.
Qed.

Lemma emits_download_attempt url path :
  emits T (download_attempt handle cfg url path).
Proof.
  unfold download_attempt, raise_for_status.
  pose proof emits_take_screenshot. pose proof emits_save_file. emits_auto.
Qed.

Lemma emits_download_failed path : emits T (download_failed handle path).
Proof.
  unfold download_failed.
  pose proof emits_take_screenshot. pose proof emits_open_wb. emits_auto.
Qed.

End Emits.

(** the [except] handler never raises, and leaves an empty file unless
    the operating system refuses to open it *)
Lemma download_failed_returns file_path (w : World Env) :
  exists w', download_failed handle file_path w = (Ok false, w')
             /\ ((forall s, fst (handle _ (OpenWrite file_path) s) = Ok tt) ->
                 w_fs w' !! file_path = Some []).
Proof.
  unfold download_failed.
  destruct (take_screenshot_returns
              ("download_error_" +:+ _sanitize_filename (Py.basename file_path)) w)
    as (w1 & E1 & Hfs & Hd).
  unfold mbind, M_bind at 1. rewrite E1.
  unfold open_wb. msimpl.
  destruct (handle _ (OpenWrite file_path) (w_env w1)) as [[[]|e] s'] eqn:Hopen;
    msimpl; eexists; (split; [done|]); intros Hok; simpl.
  - apply lookup_insert_eq.
  - specialize (Hok (w_env w1)). rewrite Hopen in Hok. discriminate.
Qed.

(** [_download_file] never raises *)
Lemma download_file_returns file_url file_path (w : World Env) :
  exists ok w', _download_file handle cfg file_url file_path w = (Ok ok, w').
Proof.
  unfold _download_file, scope, try_except.
  match goal with |- context [let '(_, _) := (match ?m with _ => _ end) in _] =>
    destruct m as [[ok|e] w1] end.
  - by eexists _, _.
  - destruct (download_failed_returns file_path w1) as (w2 & E2 & _).
    rewrite E2. by eexists _, _.
Qed.

Lemma emits_download_file (T : list Event -> Prop) file_url file_path :
  (forall returned body, T [ECall (CallDownload file_url file_path) returned body]) ->
  emits T (_download_file handle cfg file_url file_path).
Proof. intros H. by apply emits_scope. Qed.

End Download.

(** C2 fails on the direct-transfer path: when no download button is found
    and the file's URL answers 404, [_download_file] returns [False] and
    writes no placeholder. *)
Example download_file_http_error_leaves_no_placeholder :
  let result := _download_file (site_handler preview_site) (demo_config true)
                  (Some preview_no_button) "d/b.bin"
                  (start_world preview_ok ∅) in
  fst result = Ok false
  /\ w_fs (snd result) !! "d/b.bin" = None
  /\ w_trace (snd result)
     = [ECall (CallDownload (Some preview_no_button) "d/b.bin") true
          [ECmd (DriverGet (Some preview_no_button)) (Ok tt);
           ESleep 2;
           ECmd (SaveScreenshot "file_preview_b.bin") (Ok tt);
           ECmd (WaitClickable 15 (ByCssSelector "a.icon-download"))
             (Raise TimeoutException);
           ECmd (WaitClickable 10
                   (ByCssSelector ".file_download_btn, .file-download-btn, a[download]"))
             (Raise TimeoutException);
           ECmd (SaveScreenshot "no_download_button_b.bin") (Ok tt);
           ECmd (SessionGet (Some preview_no_button)) (Ok (status_response 404))]].
Proof. vm_compute. repeat split. Qed.

(** the sibling path: with a download button, the same 404 raises in
    [raise_for_status] and the handler writes the placeholder *)
Example download_file_button_http_error_leaves_placeholder :
  let result := _download_file (site_handler preview_site) (demo_config true)
                  (Some preview_button_404) "d/b.bin"
                  (start_world preview_ok ∅) in
  fst result = Ok false
  /\ w_fs (snd result) !! "d/b.bin" = Some [].
Proof. vm_compute. repeat split. Qed.
(** ** Course discovery and the run *)

Section Discovery.
Context {Env : Type} (handle : Handler Env) (cfg : Config).

Lemma try_except_returns {A} (m : M Env A) (h : Exn -> M Env A) :
  (forall e w, exists a w', h e w = (Ok a, w')) ->
  forall w, exists a w', try_except m h w = (Ok a, w').
Proof.
  intros Hh w. unfold try_except. destruct (m w) as [[a|e] w1]; eauto.
Qed.

Lemma scope_returns {A} f (m : M Env A) :
  (forall w, exists a w', m w = (Ok a, w')) ->
  forall w, exists a w', scope f m w = (Ok a, w').
Proof.
  intros Hm w. unfold scope. destruct (Hm w) as (a & w1 & ->). eauto.
Qed.

Lemma screenshot_then_empty name (w : World Env) :
  exists (cs : list Course) w',
    (_take_screenshot handle name;; mret []) w = (Ok cs, w').
Proof.
  destruct (take_screenshot_returns handle name w) as (w1 & E1 & _).
  unfold mbind, M_bind. rewrite E1. by eexists _, _.
Qed.

(** each strategy swallows its own errors *)
Lemma dashboard_returns (w : World Env) :
  exists cs w', _get_courses_from_dashboard handle w = (Ok cs, w').
Proof.
  apply scope_returns, try_except_returns. intros e w1. by eexists _, _.
Qed.

Lemma table_returns (w : World Env) :
  exists cs w', _get_courses_from_all_courses_table handle cfg w = (Ok cs, w').
Proof.
  apply scope_returns, try_except_returns. intros e w1.
  by apply screenshot_then_empty.
Qed.

Lemma list_view_returns (w : World Env) :
  exists cs w', _get_courses_from_list_view handle cfg w = (Ok cs, w').
Proof.
  apply scope_returns, try_except_returns. intros e w1.
  by apply screenshot_then_empty.
Qed.

Lemma get_courses_returns (w : World Env) :
  exists cs w', get_courses handle cfg w = (Ok cs, w').
Proof.
  apply try_except_returns. intros e w1. by apply screenshot_then_empty.
Qed.

(** a loop stops at the first iteration that raises *)
Lemma for_each_raises {A} (body : A -> M Env unit) before x after e
    (w w1 w2 : World Env) :
  for_each before body w = (Ok tt, w1) ->
  body x w1 = (Raise e, w2) ->
  for_each (before ++ x :: after) body w = (Raise e, w2).
Proof.
  revert w. induction before as [|y before IH]; intros w Hbefore Hx; simpl in *.
  - injection Hbefore as <-. unfold mbind, M_bind. by rewrite Hx.
  - unfold mbind, M_bind in *. destruct (body y w) as [[[]|e'] w'] eqn:Hy.
    + by apply IH.
    + discriminate.
Qed.

End Discovery.
(** ** The folder traversal *)

#[export] Instance download_phase_sequential : Sequential download_phase.
Proof. apply Forall_sequential. Qed.

#[export] Instance download_phase_requests : Requests download_phase.
Proof. apply Forall_requests. by intros []. Qed.

#[export] Instance plain_sequential : Sequential plain.
Proof. apply Forall_sequential. Qed.

#[export] Instance plain_requests : Requests plain.
Proof. apply Forall_requests. by intros []. Qed.

Section Folder.
Context {Env : Type} (handle : Handler Env) (cfg : Config).

Lemma process_folder_visits_one_folder limit :
  visits_one_folder (_process_folder handle cfg limit).
Proof.
  intros dir url w. destruct limit as [|limit]; simpl.
  - left. by eexists.
  - right. unfold scope.
    match goal with |- context [let '(_, _) := ?x in _] => destruct x as [r w1] end.
    simpl. by eexists.
Qed.

Lemma emits_download_item current_dir item :
  emits download_phase (download_item handle cfg current_dir item).
Proof.
  unfold download_item.
  pose proof (fun url path =>
                emits_download_file handle cfg download_phase url path
                  (fun returned body => ltac:(by repeat constructor))).
  emits_auto.
Qed.

End Folder.
(** ** The download sites *)

Section Sites.
Context {Env : Type} (handle : Handler Env) (cfg : Config).
Context (T : list Event -> Prop) `{!Sequential T, !Requests T}.

Lemma emits_name_from_url url : emits T (name_from_url (Env := Env) cfg url).
Proof. unfold name_from_url. emits_auto. Qed.

Lemma emits_find_downloadable_links : emits T (_find_downloadable_links handle).
Proof. unfold _find_downloadable_links. emits_auto. Qed.

Lemma emits_hrefs_of links : emits T (hrefs_of handle links).
Proof. unfold hrefs_of. emits_auto. Qed.

Lemma emits_add_new_links candidates links :
  emits T (add_new_links handle candidates links).
Proof. unfold add_new_links. pose proof emits_hrefs_of. emits_auto. Qed.

Lemma emits_find_enhanced_download_links :
  emits T (_find_enhanced_download_links handle).
Proof.
  unfold _find_enhanced_download_links.
  pose proof emits_find_downloadable_links. pose proof emits_add_new_links.
  emits_auto.
Qed.

Lemma emits_content_links_of all_links :
  emits T (content_links_of handle cfg all_links).
Proof. unfold content_links_of. emits_auto. Qed.

End Sites.



(** ** Reading the trace of a computation off its code *)

Section Traces.
Context {Env : Type} (handle : Handler Env).

Lemma traces_weaken {A} (m : M Env A) (Q Q' : Outcome A -> list Event -> Prop) :
  traces m Q -> (forall r t, Q r t -> Q' r t) -> traces m Q'.
Proof. intros Hm HQ w. destruct (Hm w) as (t & Et & Ht). eauto. Qed.

Lemma traces_ret {A} (a : A) Q : Q (Ok a) [] -> traces (mret a : M Env A) Q.
Proof. intros HQ w. exists []. split; [by rewrite app_nil_r | done]. Qed.

Lemma traces_raise {A} e Q : Q (Raise e) [] -> traces (raise e : M Env A) Q.
Proof. intros HQ w. exists []. split; [by rewrite app_nil_r | done]. Qed.

Lemma traces_of_outcome {A} (r : Outcome A) Q :
  Q r [] -> traces (of_outcome r : M Env A) Q.
Proof. intros HQ w. exists []. split; [by rewrite app_nil_r | done]. Qed.

Lemma traces_bind {A B} (m : M Env A) (k : A -> M Env B) Q :
  traces m (fun r t1 => match r with
                        | Ok a => traces (k a) (fun r2 t2 => Q r2 (t1 ++ t2))
                        | Raise e => Q (Raise e) t1
                        end) ->
  traces (m ≫= k) Q.
Proof.
  intros Hm w. unfold mbind, M_bind. destruct (Hm w) as (t1 & E1 & H1).
  destruct (m w) as [[a|e] w1]; cbn [fst snd] in *.
  - destruct (H1 w1) as (t2 & E2 & H2). exists (t1 ++ t2).
    split; [by rewrite E2, E1, <- List.app_assoc | done].
  - by exists t1.
Qed.

Lemma traces_call {A} (c : Cmd A) Q :
  (forall r, Q r [ECmd c r]) -> traces (call handle c) Q.
Proof.
  intros HQ w. unfold call. destruct (handle A c (w_env w)) as [r s'].
  by exists [ECmd c r].
Qed.

Lemma traces_sleep n Q : Q (Ok tt) [ESleep n] -> traces (sleep n : M Env unit) Q.
Proof. intros HQ w. by exists [ESleep n]. Qed.

Lemma traces_try_except {A} (m : M Env A) (h : Exn -> M Env A) Q :
  traces m (fun r t1 => match r with
                        | Ok a => Q (Ok a) t1
                        | Raise e => traces (h e) (fun r2 t2 => Q r2 (t1 ++ t2))
                        end) ->
  traces (try_except m h) Q.
Proof.
  intros Hm w. unfold try_except. destruct (Hm w) as (t1 & E1 & H1).
  destruct (m w) as [[a|e] w1]; cbn [fst snd] in *.
  - by exists t1.
  - destruct (H1 w1) as (t2 & E2 & H2). exists (t1 ++ t2).
    split; [by rewrite E2, E1, <- List.app_assoc | done].
Qed.

Lemma traces_try_except_timeout {A} (m h : M Env A) Q :
  traces m (fun r t1 => match r with
                        | Raise TimeoutException =>
                            traces h (fun r2 t2 => Q r2 (t1 ++ t2))
                        | _ => Q r t1
                        end) ->
  traces (try_except_timeout m h) Q.
Proof.
  intros Hm w. unfold try_except_timeout. destruct (Hm w) as (t1 & E1 & H1).
  destruct (m w) as [[a|[|name]] w1]; cbn [fst snd] in *.
  - by exists t1.
  - destruct (H1 w1) as (t2 & E2 & H2). exists (t1 ++ t2).
    split; [by rewrite E2, E1, <- List.app_assoc | done].
  - by exists t1.
Qed.

Lemma traces_attempt {A} (m : M Env A) Q :
  traces m (fun r t => Q (Ok r) t) -> traces (attempt m) Q.
Proof.
  intros Hm w. unfold attempt. destruct (Hm w) as (t & E & H).
  destruct (m w) as [r w1]. by exists t.
Qed.

Lemma traces_scope {A} f (m : M Env A) Q :
  traces m (fun r body => Q r [ECall f (is_ok r) body]) -> traces (scope f m) Q.
Proof.
  intros Hm w. unfold scope. destruct (Hm w) as (t & E & H).
  destruct (m w) as [r w1]; cbn [fst snd] in *. eexists. split; [done|].
  by rewrite E, drop_app_length.
Qed.

Lemma traces_modify_fs f Q : Q (Ok tt) [] -> traces (modify_fs f : M Env _) Q.
Proof. intros HQ w. exists []. split; [by rewrite app_nil_r | done]. Qed.

Lemma traces_take_screenshot name Q :
  Q (Ok tt) [] -> (forall answer, Q (Ok tt) [ECmd (SaveScreenshot name) answer]) ->
  traces (_take_screenshot handle name) Q.
Proof.
  intros Hnone Hshot w. unfold _take_screenshot. msimpl.
  destruct (w_driver w).
  - msimpl. destruct (handle _ (SaveScreenshot name) (w_env w)) as [[[]|e] s'];
      by eexists.
  - exists []. split; [by rewrite app_nil_r | done].
Qed.

(** a loop whose body sends nothing and never raises *)
Lemma traces_silent_loop {A} (xs : list A) (body : A -> M Env unit) Q :
  (forall x w, exists w', body x w = (Ok tt, w') /\ w_trace w' = w_trace w) ->
  Q (Ok tt) [] -> traces (for_each xs body) Q.
Proof.
  intros Hbody HQ w. exists []. rewrite app_nil_r.
  assert (H : exists w', for_each xs body w = (Ok tt, w') /\ w_trace w' = w_trace w).
  { revert w. induction xs as [|x xs IH]; intros w; simpl; [by eexists|].
    destruct (Hbody x w) as (w1 & E1 & T1). destruct (IH w1) as (w2 & E2 & T2).
    exists w2. rewrite bind_run, E1. split; [done | by rewrite T2]. }
  destruct H as (w' & -> & T). by split.
Qed.

(** a loop whose body never raises, against the grammar of its elements *)
Lemma traces_each {A St} (pass : A -> (list Event -> Prop) -> list Event -> Prop)
    (xs : list A) (body : A -> St -> M Env St) : forall st,
  (forall x st,
      traces (body x st)
        (fun r t1 => is_ok r = true
                     /\ forall (k : list Event -> Prop) t2,
                          k t2 -> pass x k (t1 ++ t2))) ->
  traces (for_fold xs body st)
    (fun r t1 => is_ok r = true
                 /\ forall (k : list Event -> Prop) t2,
                      k t2 -> each pass xs k (t1 ++ t2)).
Proof.
  intros st Hbody. revert st. induction xs as [|x xs IH]; intros st; simpl.
  - by apply traces_ret.
  - apply traces_bind. eapply traces_weaken; [apply Hbody|].
    intros [st1|e] t1 [Hok H1]; [|done]. eapply traces_weaken; [apply IH|].
    intros r2 t2 [Hok2 H2]. split; [done|].
    intros k t3 Hk. rewrite <- List.app_assoc. apply H1. by apply H2.
Qed.

Lemma traces_each_unit {A} (pass : A -> (list Event -> Prop) -> list Event -> Prop)
    (xs : list A) (body : A -> M Env unit) :
  (forall x,
      traces (body x)
        (fun r t1 => is_ok r = true
                     /\ forall (k : list Event -> Prop) t2,
                          k t2 -> pass x k (t1 ++ t2))) ->
  traces (for_each xs body)
    (fun r t1 => is_ok r = true
                 /\ forall (k : list Event -> Prop) t2,
                      k t2 -> each pass xs k (t1 ++ t2)).
Proof.
  intros Hbody. induction xs as [|x xs IH]; simpl.
  - by apply traces_ret.
  - apply traces_bind. eapply traces_weaken; [apply Hbody|].
    intros [[]|e] t1 [Hok H1]; [|done]. eapply traces_weaken; [apply IH|].
    intros r2 t2 [Hok2 H2]. split; [done|].
    intros k t3 Hk. rewrite <- List.app_assoc. apply H1. by apply H2.
Qed.

(** what [emits] says, as a postcondition *)
Lemma traces_emits {A} (T : list Event -> Prop) (m : M Env A) :
  emits T m -> traces m (fun _ t => T t).
Proof. intros Hm w. destruct (Hm w) as (t & Et & Ht). eauto. Qed.


(** the trace of a run is read off [traces] *)
Lemma traces_run {A} (m : M Env A) Q w r w' :
  traces m Q -> m w = (r, w') -> exists t, w_trace w' = w_trace w ++ t /\ Q r t.
Proof. intros Hm E. destruct (Hm w) as (t & Et & Ht). rewrite E in Et, Ht. eauto. Qed.

End Traces.

Create HintDb traces.

(** what is known of a part that has run *)
Ltac traces_known :=
  repeat match goal with
         | H : _ /\ _ |- _ => destruct H
         | H : exists _, _ |- _ => destruct H
         | H : match ?x with _ => _ end |- _ => destruct x eqn:?
         | H : Ok _ = Ok _ |- _ => injection H as H
         | H : ?x = _ |- _ => is_var x; subst x
         | H : _ = ?x |- _ => is_var x; subst x
         | H : context [is_ok ?r] |- _ => is_var r; destruct r
         | H : true = ?b |- _ =>
             lazymatch b with true => clear H | false => discriminate H
                         | _ => symmetry in H end
         | H : false = ?b |- _ =>
             lazymatch b with false => clear H | true => discriminate H
                         | _ => symmetry in H end
         | H : _ && _ = true |- _ => apply andb_true_iff in H
         | H : false = false |- _ => clear H
         | H : true = true |- _ => clear H
         | H : true = false |- _ => discriminate H
         | H : false = true |- _ => discriminate H
         | H : Ok _ = Raise _ |- _ => discriminate H
         | H : Raise _ = Ok _ |- _ => discriminate H
         | H : context [is_ok (Ok _)] |- _ => cbn [is_ok andb] in H
         | H : context [is_ok (Raise _)] |- _ => cbn [is_ok andb] in H
         end.

(** one step along the code *)
Ltac traces_step :=
  lazymatch goal with
  | |- traces (_ ≫= _) _ => apply traces_bind
  | |- traces (call _ _) _ => apply traces_call; intros [?|?]
  | |- traces (sleep _) _ => apply traces_sleep
  | |- traces (mret _) _ => apply traces_ret
  | |- traces (raise _) _ => apply traces_raise
  | |- traces (of_outcome _) _ => apply traces_of_outcome
  | |- traces (swallow _ _) _ => apply traces_ret
  | |- traces (try_except _ _) _ => apply traces_try_except
  | |- traces (try_except_timeout _ _) _ => apply traces_try_except_timeout
  | |- traces (attempt _) _ => apply traces_attempt
  | |- traces (modify_fs _) _ => apply traces_modify_fs
  | |- traces (_take_screenshot _ _) _ => apply traces_take_screenshot; [|intros ?]
  | |- traces (require_str ?o) _ => destruct o eqn:?; unfold require_str
  | |- traces (contains_in _ ?o) _ => destruct o eqn:?; unfold contains_in
  | |- traces (match ?x with _ => _ end) _ => destruct x eqn:?
  | |- traces ((match ?x with _ => _ end) _) _ => destruct x eqn:?
  | |- traces (let _ := _ in _) _ => cbv zeta
  | |- traces _ _ =>
      eapply traces_weaken;
      [ solve [eauto 2 with traces nocore] | cbn beta; intros ? ? ?; traces_known ]
  | |- match ?r with Ok _ => _ | Raise _ => _ end =>
      first [ is_var r; destruct r | destruct r eqn:? ]
  | |- match ?e with TimeoutException => _ | Exception _ => _ end =>
      is_var e; destruct e
  end;
  cbn beta iota.

(** at the end of the code: the events are there, the grammar is checked
    against them *)
Lemma step_ok {A} (c : Cmd A) k h a rest :
  k a rest -> step c k h (ECmd c (Ok a) :: rest).
Proof. intros H. by exists (Ok a), rest. Qed.

Lemma step_raise {A} (c : Cmd A) k h e rest :
  h e rest -> step c k h (ECmd c (Raise e) :: rest).
Proof. intros H. by exists (Raise e), rest. Qed.

Lemma pause_intro n k rest : k rest -> pause n k (ESleep n :: rest).
Proof. intros H. by exists rest. Qed.

Lemma shot_skipped name (k : list Event -> Prop) t : k t -> shot_then name k t.
Proof. by left. Qed.

Lemma shot_taken name (k : list Event -> Prop) answer rest :
  k rest -> shot_then name k (ECmd (SaveScreenshot name) answer :: rest).
Proof. intros H. right. by exists answer, rest. Qed.

Ltac head_of t := lazymatch t with ?f _ => head_of f | _ => t end.

Ltac grammar :=
  cbn beta iota zeta delta [app is_ok];
  rewrite ?app_nil_r;
  repeat (match goal with
          | H : negb _ = true |- _ => apply negb_true_iff in H
          | H : negb _ = false |- _ => apply negb_false_iff in H
          | H : ?x = _ |- context [?x] => rewrite H
          end; cbn beta iota);
  cbn beta iota;
  lazymatch goal with
  | |- True => exact I
  | |- forall _, _ => intros; grammar
  | |- _ /\ _ => split; [grammar | grammar]
  | |- exists _, _ => eexists; grammar
  | |- step _ _ _ (ECmd _ (Ok _) :: _) => apply step_ok; grammar
  | |- step _ _ _ (ECmd _ (Raise _) :: _) => apply step_raise; grammar
  | |- pause _ _ _ => apply pause_intro; grammar
  | |- shot_then _ _ (ECmd (SaveScreenshot _) _ :: _) =>
      first [ solve [apply shot_taken; grammar] | solve [apply shot_skipped; grammar] ]
  | |- shot_then _ _ _ => apply shot_skipped; grammar
  | |- ends _ => reflexivity
  | |- _ \/ _ => first [ solve [left; grammar] | solve [right; grammar] ]
  | |- _ = _ => first [ reflexivity | done ]
  | |- each _ [] _ _ => cbn [each]; grammar
  | |- ?g => first [ eassumption
                   | match goal with
                     | H : forall _ _, _ -> _ |- _ => apply H; grammar
                     | H : forall _ _, _ -> _ |- _ ?t =>
                         rewrite <- (app_nil_r t); apply H; grammar
                     end
                   | let h := head_of g in progress unfold h; grammar
                   | idtac ]
  end.

(** ** The events of a download attempt *)

Section DownloadTraces.
Context {Env : Type} (handle : Handler Env) (cfg : Config).

Lemma traces_save_file response file_path :
  traces (_save_file_with_progress handle response file_path)
    (fun r t =>
       match resp_content_length response with
       | ContentLengthMalformed => t = [] /\ is_ok r = false
       | _ => exists answer, t = [ECmd (OpenWrite file_path) answer]
                /\ is_ok r = is_ok answer && completes response
       end).
Proof.
  unfold _save_file_with_progress, content_length, open_wb, completes.
  assert (Hloop : forall Q, Q (Ok tt) [] ->
            traces (for_each (resp_chunks response)
                      (fun chunk => if bool_decide (chunk = []) then mret tt
                                    else write_chunk file_path chunk : M Env unit)) Q).
  { intros Q HQ. apply traces_silent_loop; [|done].
    intros chunk w. destruct (bool_decide (chunk = [])); by eexists. }
  destruct (resp_content_length response) as [|n|] eqn:Elen;
    unfold _format_size, size_formats;
    repeat (first [apply Hloop; cbn beta iota | traces_step]);
    try done; eexists; (split; [reflexivity|]);
    repeat match goal with H : _ = _ |- _ => rewrite H end; done.
Qed.

(** what the handler of [_download_file] does *)
Lemma traces_download_failed file_path :
  traces (download_failed handle file_path)
    (fun r t => r = Ok false /\ gives_up file_path false t).
Proof.
  unfold download_failed, open_wb, gives_up.
  repeat traces_step; (split; [done|]); grammar.
Qed.

#[local] Hint Resolve traces_save_file traces_download_failed : traces.

Lemma traces_download_attempt file_url file_path :
  traces (try_except (download_attempt handle cfg file_url file_path)
            (fun _ => download_failed handle file_path))
    (fun r t => exists ok, r = Ok ok /\ attempted cfg file_url file_path ok t).
Proof.
  unfold download_attempt, raise_for_status.
  repeat traces_step; grammar.
Qed.

(** a call of [_download_file]: one bracket that returned, around nothing
    or around an attempt *)
Lemma traces_download_file file_url file_path :
  traces (_download_file handle cfg file_url file_path)
    (fun r t =>
       exists ok body,
         r = Ok ok
         /\ t = [ECall (CallDownload file_url file_path) true body]
         /\ downloads cfg file_url file_path ok body).
Proof.
  intros w.
  destruct (skip_existing cfg && path_exists (w_fs w) file_path
            && (0 <? getsize (w_fs w) file_path)) eqn:Hskip.
  - apply andb_true_iff in Hskip as [Hskip Hsize].
    unfold _download_file, scope, try_except. rewrite bind_run.
    unfold get_fs. cbn beta iota. rewrite Hskip, Hsize.
    unfold mret, M_ret. cbn [fst snd w_trace is_ok].
    eexists. split; [done|]. rewrite drop_all. exists true, []. split_and!; [done..|].
    by left.
  - assert (Heq : _download_file handle cfg file_url file_path w
                  = scope (CallDownload file_url file_path)
                      (try_except (download_attempt handle cfg file_url file_path)
                         (fun _ => download_failed handle file_path)) w).
    { unfold _download_file, scope, try_except. rewrite bind_run.
      unfold get_fs. cbn beta iota.
      destruct (skip_existing cfg && path_exists (w_fs w) file_path); [|done].
      cbn [andb] in Hskip. by rewrite Hskip. }
    rewrite Heq. clear Hskip Heq. revert w.
    apply (traces_scope (CallDownload file_url file_path)
             (try_except (download_attempt handle cfg file_url file_path)
                (fun _ => download_failed handle file_path))
             (fun r t =>
                exists ok body,
                  r = Ok ok
                  /\ t = [ECall (CallDownload file_url file_path) true body]
                  /\ downloads cfg file_url file_path ok body)).
    eapply traces_weaken; [apply traces_download_attempt|].
    intros r body (ok & -> & Hbody). exists ok, body. split_and!; [done..|]. by right.
Qed.

End DownloadTraces.

(** ** The events of a folder visit, read off the code *)

Section FolderTraces.
Context {Env : Type} (handle : Handler Env) (cfg : Config).

#[local] Hint Resolve traces_download_file : traces.

(** one row of the second loop *)
Lemma traces_download_item current_dir item :
  traces (download_item handle cfg current_dir item)
    (fun r t1 =>
       is_ok r = true
       /\ forall (k : list Event -> Prop) t2,
            k t2 -> file_row_pass cfg current_dir item k (t1 ++ t2)).
Proof.
  unfold download_item.
  repeat traces_step; (split; [done|]); intros k t2 Hk; unfold file_row_pass, download;
    grammar.
Qed.

Lemma traces_download_files current_dir items :
  traces (for_each items (download_item handle cfg current_dir))
    (fun r t => is_ok r = true /\ second_pass cfg current_dir items t).
Proof.
  eapply traces_weaken; [apply traces_each_unit, traces_download_item|].
  intros r t [Hok Hrows]. split; [done|].
  rewrite <- (app_nil_r t). by apply Hrows.
Qed.

Section Descent.
Context (recur : string -> string -> M Env unit)
  (visit : option (string -> string -> bool -> list Event -> Prop)).
Hypothesis recur_visits : forall subfolder_path subfolder_url,
  traces (recur subfolder_path subfolder_url)
    (fun r t =>
       match visit with
       | None => is_ok r = false /\ t = []
       | Some nested =>
           exists body,
             t = [ECall (CallFolder subfolder_path subfolder_url) (is_ok r) body]
             /\ nested subfolder_path subfolder_url (is_ok r) body
       end).

#[local] Hint Resolve recur_visits : traces.

(** one row of the first loop *)
Lemma traces_descend_item current_dir folder_url item items folder_name :
  traces (descend_item handle cfg recur current_dir folder_url item (items, folder_name))
    (fun r t1 =>
       exists items' folder_name',
         r = Ok (items', folder_name')
         /\ forall (k : list Elem -> string -> list Event -> Prop) t2,
              k items' folder_name' t2 ->
              folder_row_pass cfg visit current_dir folder_url item items folder_name k
                (t1 ++ t2)).
Proof.
  unfold descend_item, folder_row, subfolder_error.
  repeat traces_step; (eexists _, _; split; [reflexivity|]); intros k t2 Hk;
    unfold folder_row_pass, way_back, descent; grammar.
Qed.

Lemma traces_first_pass current_dir folder_url rows : forall items folder_name,
  traces (for_fold rows (descend_item handle cfg recur current_dir folder_url)
            (items, folder_name))
    (fun r t1 =>
       exists items' folder_name',
         r = Ok (items', folder_name')
         /\ forall (k : list Elem -> list Event -> Prop) t2,
              k items' t2 ->
              first_pass cfg visit current_dir folder_url rows items folder_name k
                (t1 ++ t2)).
Proof.
  induction rows as [|item rows IH]; intros items folder_name; simpl.
  - apply traces_ret. by exists items, folder_name.
  - apply traces_bind. eapply traces_weaken; [apply traces_descend_item|].
    intros r t1 (items1 & name1 & -> & Hrow).
    eapply traces_weaken; [apply IH|].
    intros r2 t2 (items2 & name2 & -> & Hrest). exists items2, name2.
    split; [done|]. intros k t3 Hk. rewrite <- List.app_assoc.
    apply Hrow. by apply Hrest.
Qed.

#[local] Hint Resolve traces_first_pass traces_download_files : traces.


End Descent.


End FolderTraces.


(** the fixture tree of the specification: the visit of [A], with the
    download of [A/x.pdf] inside it, comes before the download of [y.doc] *)
Example process_folder_fixture_tree :
  let result := _process_folder (site_handler tree_site) (demo_config true) 5
                  "Canvas_Downloads/C/Files" tree_root
                  (start_world tree_root ∅) in
  fst result = Ok tt
  /\ w_fs (snd result) !! "Canvas_Downloads/C/Files/A/x.pdf" = Some (bytes "xx")
  /\ w_fs (snd result) !! "Canvas_Downloads/C/Files/y.doc" = Some (bytes "yyy")
  /\ calls_of (w_trace (snd result))
     = [(CallFolder "Canvas_Downloads/C/Files" tree_root, true)]
  /\ calls_of (inside (w_trace (snd result)))
     = [(CallFolder "Canvas_Downloads/C/Files/A" tree_A, true);
        (CallDownload (Some tree_y) "Canvas_Downloads/C/Files/y.doc", true)]
  /\ calls_of (inside (inside (w_trace (snd result))))
     = [(CallDownload (Some tree_x) "Canvas_Downloads/C/Files/A/x.pdf", true)].
Proof. vm_compute. repeat split. Qed.



(** ** The events of the other download sites, read off the code *)

Section SiteTraces.
Context {Env : Type} (handle : Handler Env) (cfg : Config).

#[local] Hint Resolve traces_download_file : traces.

Lemma traces_name_from_url file_url :
  traces (name_from_url (Env := Env) cfg file_url)
    (fun r t => t = [] /\ r = url_name cfg file_url).
Proof.
  unfold name_from_url, url_name.
  destruct (urlparse_path cfg file_url); repeat traces_step; done.
Qed.

#[local] Hint Resolve traces_name_from_url : traces.

(** the shared tail: the download under the name with the default
    extension rule *)
Lemma traces_download_named file_url dir file_name found :
  traces (download_named handle cfg file_url dir file_name found)
    (fun r t1 =>
       is_ok r = true
       /\ forall (k : list Event -> Prop) t2,
            k t2 -> named_download cfg file_url dir (Ok file_name) k (t1 ++ t2)).
Proof.
  unfold download_named.
  repeat traces_step; (split; [done|]); intros k t2 Hk; unfold named_download, download;
    grammar.
Qed.

#[local] Hint Resolve traces_download_named : traces.

Ltac site :=
  repeat traces_step; (split; [done|]); intros k t2 Hk;
  unfold text_or_url_name, or_default; simplify_eq;
  repeat match goal with
         | H : ?x = _, H' : context [?x] |- _ => rewrite H in H'; cbn beta iota in H'
         end;
  try congruence; grammar.







(** the site of the module scan *)
Lemma traces_module_link module_dir item_name link found :
  traces (module_link handle cfg module_dir item_name link found)
    (fun r t1 =>
       is_ok r = true
       /\ forall (k : list Event -> Prop) t2,
            k t2 -> module_link_pass cfg module_dir item_name link k (t1 ++ t2)).
Proof. unfold module_link, module_link_pass. site. Qed.

Lemma traces_module_links module_dir item_name links found :
  traces (for_fold links (module_link handle cfg module_dir item_name) found)
    (fun r t1 =>
       is_ok r = true
       /\ forall (k : list Event -> Prop) t2,
            k t2 -> each (module_link_pass cfg module_dir item_name) links k (t1 ++ t2)).
Proof. apply traces_each. intros. apply traces_module_link. Qed.

#[local] Hint Resolve traces_module_links : traces.

Lemma traces_module_item module_dir item found :
  traces (module_item handle cfg module_dir item found)
    (fun r t1 =>
       is_ok r = true
       /\ forall (k : list Event -> Prop) t2,
            k t2 -> module_item_pass cfg module_dir item k (t1 ++ t2)).
Proof. unfold module_item, module_item_pass. site. Qed.

Lemma traces_module_items module_dir items found :
  traces (for_fold items (module_item handle cfg module_dir) found)
    (fun r t1 =>
       is_ok r = true
       /\ forall (k : list Event -> Prop) t2,
            k t2 -> each (module_item_pass cfg module_dir) items k (t1 ++ t2)).
Proof. apply traces_each. intros. apply traces_module_item. Qed.

#[local] Hint Resolve traces_module_items : traces.

Lemma traces_module_entry course_dir module found :
  traces (module_entry handle cfg course_dir module found)
    (fun r t1 =>
       is_ok r = true
       /\ forall (k : list Event -> Prop) t2,
            k t2 -> module_pass cfg course_dir module k (t1 ++ t2)).
Proof. unfold module_entry, module_pass, expand_pass. site. Qed.

Lemma traces_module_entries course_dir modules found :
  traces (for_fold modules (module_entry handle cfg course_dir) found)
    (fun r t1 =>
       is_ok r = true
       /\ forall (k : list Event -> Prop) t2,
            k t2 -> each (module_pass cfg course_dir) modules k (t1 ++ t2)).
Proof. apply traces_each. intros. apply traces_module_entry. Qed.

#[local] Hint Resolve traces_module_entries : traces.


End SiteTraces.


(** * Further properties *)

(** ** Sanitized names as path components *)

Section Components.

Lemma safe_char_fixed c : ~ In c invalid_chars -> safe_char c = c.
Proof.
  intros H. unfold safe_char. destruct (Py.mem_char c invalid_chars) eqn:E; [|done].
  by apply mem_char_spec in E.
Qed.

Lemma strip_chars_kept cs l :
  (forall c rest, l = c :: rest -> ~ In c cs) ->
  (forall rest c, l = rest ++ [c] -> ~ In c cs) ->
  Py.strip_chars cs l = l.
Proof.
  intros Hfirst Hlast. unfold Py.strip_chars.
  destruct l as [|c l]; [done|].
  rewrite lstrip_chars_none by by eapply Hfirst.
  destruct (exists_last (l := c :: l)) as (rest & d & Hd); [done|].
  rewrite Hd, rev_app_distr.
  change (rev [d] ++ rev rest) with (d :: rev rest).
  rewrite lstrip_chars_none by (eapply Hlast; by rewrite <- Hd).
  change (d :: rev rest) with (rev [d] ++ rev rest).
  by rewrite <- rev_app_distr, rev_involutive.
Qed.

(** what the sanitizer returns: not empty, free of unsafe characters, and
    with neither a space nor a period at either end *)
Lemma sanitized_shape filename :
  let result := Py.chars (_sanitize_filename filename) in
  result <> []
  /\ Forall (fun c => ~ In c invalid_chars) result
  /\ (forall c rest, result = c :: rest -> ~ In c (Py.chars ". "))
  /\ (forall rest c, result = rest ++ [c] -> ~ In c (Py.chars ". ")).
Proof.
  cbv zeta. rewrite sanitize_unfold.
  set (replaced := map safe_char (Py.chars filename)).
  destruct (strip_chars_spec (Py.chars ". ") replaced)
    as (before & after & Hsplit & _ & _ & Hfirst & Hlast).
  assert (Hvalid : Forall (fun c => ~ In c invalid_chars) replaced).
  { apply List.Forall_forall. intros c Hc. apply in_map_iff in Hc as (c0 & <- & _).
    apply safe_char_valid. }
  destruct (Py.strip_chars (Py.chars ". ") replaced) as [|c kept] eqn:E.
  - split_and!.
    + done.
    + repeat (apply List.Forall_cons; [rewrite <- mem_char_spec; done|]).
      apply List.Forall_nil.
    + intros c rest [= <- _]. simpl. intuition discriminate.
    + intros rest c Hc.
      change (Py.chars "unnamed") with (Py.chars "unname" ++ ["d"%char]) in Hc.
      apply app_inj_tail in Hc as [_ <-]. simpl. intuition discriminate.
  - split_and!; [done | | done..].
    rewrite Hsplit in Hvalid. apply Forall_app in Hvalid as [_ Hvalid].
    by apply Forall_app in Hvalid as [Hvalid _].
Qed.

Lemma basename_go_plain cur l :
  ~ In "/"%char l -> Py.basename_go cur l = rev cur ++ l.
Proof.
  revert cur. induction l as [|c l IH]; intros cur Hno; simpl.
  - by rewrite app_nil_r.
  - destruct (Ascii.eqb_spec c "/") as [->|Hc].
    + exfalso. apply Hno. by left.
    + rewrite IH by (intros H; apply Hno; by right).
      simpl. by rewrite <- List.app_assoc.
Qed.

Lemma basename_go_after_separator cur a l :
  Py.basename_go cur (a ++ "/"%char :: l) = Py.basename_go [] l.
Proof.
  revert cur. induction a as [|c a IH]; intros cur; simpl; [done|].
  destruct (Ascii.eqb c "/"); apply IH.
Qed.

Lemma sanitized_no_separator filename :
  ~ In "/"%char (Py.chars (_sanitize_filename filename)).
Proof.
  destruct (sanitized_shape filename) as (_ & Hvalid & _).
  intros Hin. rewrite List.Forall_forall in Hvalid.
  apply (Hvalid _ Hin). by apply mem_char_spec.
Qed.

Lemma is_prefix_app p l : Py.is_prefix p (p ++ l) = true.
Proof. apply is_prefix_spec. by exists l. Qed.

End Components.

(** X1.  Sanitizing is idempotent: a sanitized name is left as it is by a
    second pass, so local paths built from names that were already
    sanitized do not change. *)
Theorem sanitize_filename_idempotent (filename : string) :
  _sanitize_filename (_sanitize_filename filename) = _sanitize_filename filename.
Proof.
  destruct (sanitized_shape filename) as (Hne & Hvalid & Hfirst & Hlast).
  cbv zeta in *. apply chars_inj. rewrite sanitize_unfold.
  set (result := Py.chars (_sanitize_filename filename)) in *.
  assert (Hsame : map safe_char result = result).
  { rewrite <- (map_id result) at 2. apply map_ext_Forall.
    eapply Forall_impl; [exact Hvalid|]. intros c Hc. by apply safe_char_fixed. }
  rewrite Hsame, strip_chars_kept by done.
  by destruct result.
Qed.

(** X2.  A sanitized name is a single path component: joined to any
    directory it stays below that directory, [os.path.basename] gives the
    name back, and it is neither ["."] nor [".."]. *)
Theorem sanitized_name_is_a_component (dir filename : string) :
  let name := _sanitize_filename filename in
  Py.basename (Py.join dir name) = name
  /\ Py.startswith (Py.join dir name) dir = true
  /\ name <> "." /\ name <> "..".
Proof.
  cbv zeta.
  destruct (sanitized_shape filename) as (Hne & Hvalid & Hfirst & Hlast).
  pose proof (sanitized_no_separator filename) as Hsep.
  cbv zeta in *. set (name := _sanitize_filename filename) in *.
  assert (Hstart : Py.startswith name "/" = false).
  { unfold Py.startswith.
    destruct (Py.is_prefix (Py.chars "/") (Py.chars name)) eqn:E; [|done].
    apply is_prefix_spec in E as [k Hk]. exfalso. apply Hsep.
    rewrite Hk. by left. }
  split_and!.
  - unfold Py.join. rewrite Hstart.
    destruct (String.eqb dir EmptyString || Py.endswith dir "/") eqn:Hdir.
    + apply orb_true_iff in Hdir as [Hdir | Hdir].
      * apply String.eqb_eq in Hdir as ->. apply chars_inj.
        unfold Py.basename. rewrite chars_of_chars.
        change (EmptyString +:+ name) with name.
        by rewrite basename_go_plain.
      * apply endswith_spec in Hdir as [pre ->]. apply chars_inj.
        unfold Py.basename. rewrite chars_of_chars, !chars_app.
        change (Py.chars "/") with ["/"%char]. rewrite <- List.app_assoc.
        cbn [app].
        rewrite (basename_go_after_separator [] (Py.chars pre)).
        by rewrite basename_go_plain.
    + apply chars_inj. unfold Py.basename. rewrite chars_of_chars, !chars_app.
      change (Py.chars "/") with ["/"%char]. cbn [app].
      rewrite (basename_go_after_separator [] (Py.chars dir)).
      by rewrite basename_go_plain.
  - unfold Py.join. rewrite Hstart. unfold Py.startswith.
    destruct (String.eqb dir EmptyString || Py.endswith dir "/");
      rewrite chars_app; apply is_prefix_app.
  - intros Heq. apply (Hfirst "."%char []); [by rewrite Heq | simpl; auto].
  - intros Heq. apply (Hfirst "."%char ["."%char]); [by rewrite Heq | simpl; auto].
Qed.

(** ** More on the link classifier *)

Lemma classifier_accepts (url ext : string) :
  url <> EmptyString -> In ext file_extensions ->
  ends_with (Py.lower url) ext \/ occurs_in (ext +:+ "?") (Py.lower url) ->
  _is_downloadable_link url = true.
Proof.
  intros Hne Hin Hext. unfold _is_downloadable_link.
  apply String.eqb_neq in Hne. rewrite Hne.
  destruct (Py.contains "/files/" url && _); [done|].
  apply existsb_exists. exists ext. split; [done|]. apply orb_true_iff.
  by rewrite endswith_spec, contains_spec.
Qed.

(** X3.  A URL that ends with an allow-listed extension, or carries one
    right before its query string, is classified as downloadable whatever
    the letter case of the extension. *)
Theorem is_downloadable_link_extension (stem suffix query ext : string) :
  In ext file_extensions -> Py.lower suffix = ext ->
  _is_downloadable_link (stem +:+ suffix) = true
  /\ _is_downloadable_link (stem +:+ suffix +:+ "?" +:+ query) = true.
Proof.
  intros Hin Hlow.
  assert (Hne : ext <> EmptyString).
  { intros ->. simpl in Hin. intuition discriminate. }
  assert (Hsuf : suffix <> EmptyString).
  { intros ->. apply Hne. by rewrite <- Hlow. }
  split; (eapply classifier_accepts; [by destruct stem, suffix | exact Hin |]).
  - left. exists (Py.lower stem). by rewrite lower_app, Hlow.
  - right. exists (Py.lower stem), (Py.lower query).
    by rewrite !lower_app, Hlow, append_assoc.
Qed.

Lemma is_downloadable_link_extension_witness :
  _is_downloadable_link "https://canvas.test/files/Slides.PPTX" = true
  /\ _is_downloadable_link "https://canvas.test/files/Slides.PPTX?wrap=1" = true.
Proof.
  apply (is_downloadable_link_extension "https://canvas.test/files/Slides"
           ".PPTX" "wrap=1" ".pptx").
  - unfold file_extensions. repeat (first [by left | right]).
  - reflexivity.
Defined.

(** X4.  A URL with a ["/files/"] segment followed, anywhere later, by
    ["/download"] is classified as downloadable whatever precedes, separates
    or follows them: the portal's download links are accepted with any
    query string. *)
Theorem is_downloadable_link_files_download (host file rest : string) :
  _is_downloadable_link (host +:+ "/files/" +:+ file +:+ "/download" +:+ rest) = true.
Proof.
  unfold _is_downloadable_link.
  assert (Hne : String.eqb (host +:+ "/files/" +:+ file +:+ "/download" +:+ rest)
                  EmptyString = false).
  { apply String.eqb_neq. intros H. apply (f_equal Py.chars) in H.
    rewrite !chars_app in H. by destruct (Py.chars host). }
  rewrite Hne.
  assert (Hfiles : Py.contains "/files/"
                     (host +:+ "/files/" +:+ file +:+ "/download" +:+ rest) = true).
  { apply contains_spec. by exists host, (file +:+ "/download" +:+ rest). }
  assert (Hdown : Py.contains "/download"
                    (host +:+ "/files/" +:+ file +:+ "/download" +:+ rest) = true).
  { apply contains_spec. exists (host +:+ "/files/" +:+ file), rest.
    by rewrite !append_assoc. }
  by rewrite Hfiles, Hdown.
Qed.

(** ** Frames, normal returns and loop invariants *)

#[export] Instance same_files_frame {Env} : Frame (@same_files Env).
Proof.
  split; unfold same_files; [done | | done].
  intros w1 w2 w3 H1 H2. by rewrite H2.
Qed.

#[export] Instance files_outside_frame {Env} (P : string -> Prop) :
  Frame (@files_outside Env P).
Proof.
  split; unfold files_outside; [done | | done].
  intros w1 w2 w3 H1 H2 path Hpath. by rewrite H2, H1.
Qed.

Lemma files_outside_writable {Env} (P : string -> Prop) path :
  P path -> writable (@files_outside Env P) path.
Proof.
  intros HP w content other Hother. simpl.
  apply lookup_insert_ne. by intros ->.
Qed.

Lemma keeps_weaken {Env A} (R R' : World Env -> World Env -> Prop) (m : M Env A) :
  (forall w w', R w w' -> R' w w') -> keeps R m -> keeps R' m.
Proof. intros HR Hm w. apply HR, Hm. Qed.

Section Frames.
Context {Env : Type} (R : World Env -> World Env -> Prop) `{!Frame R}.

Lemma keeps_ret {A} (a : A) : keeps R (mret a : M Env A).
Proof. intros w. apply frame_refl. Qed.

Lemma keeps_raise {A} e : keeps R (raise e : M Env A).
Proof. intros w. apply frame_refl. Qed.

Lemma keeps_of_outcome {A} (r : Outcome A) : keeps R (of_outcome r : M Env A).
Proof. intros w. apply frame_refl. Qed.

Lemma keeps_bind {A B} (m : M Env A) (k : A -> M Env B) :
  keeps R m -> (forall a, keeps R (k a)) -> keeps R (m ≫= k).
Proof.
  intros Hm Hk w. unfold mbind, M_bind. specialize (Hm w).
  destruct (m w) as [[a|e] w1]; simpl in *; [|done].
  eapply frame_trans; [apply Hm | apply Hk].
Qed.

Lemma keeps_attempt {A} (m : M Env A) : keeps R m -> keeps R (attempt m).
Proof. intros Hm w. unfold attempt. specialize (Hm w). by destruct (m w). Qed.

Lemma keeps_try_except {A} (m : M Env A) (h : Exn -> M Env A) :
  keeps R m -> (forall e, keeps R (h e)) -> keeps R (try_except m h).
Proof.
  intros Hm Hh w. unfold try_except. specialize (Hm w).
  destruct (m w) as [[a|e] w1]; simpl in *; [done|].
  eapply frame_trans; [apply Hm | apply Hh].
Qed.

Lemma keeps_try_except_timeout {A} (m h : M Env A) :
  keeps R m -> keeps R h -> keeps R (try_except_timeout m h).
Proof.
  intros Hm Hh w. unfold try_except_timeout. specialize (Hm w).
  destruct (m w) as [[a|[|name]] w1]; simpl in *; [done| |done].
  eapply frame_trans; [apply Hm | apply Hh].
Qed.

Lemma keeps_try_finally {A} (m : M Env A) (f : M Env unit) :
  keeps R m -> keeps R f -> keeps R (try_finally m f).
Proof.
  intros Hm Hf w. unfold try_finally. specialize (Hm w).
  destruct (m w) as [r w1]; simpl in *. specialize (Hf w1).
  destruct (f w1) as [[[]|e] w2]; simpl in *; by eapply frame_trans.
Qed.

Lemma keeps_emit ev : keeps R (emit ev : M Env unit).
Proof. intros w. apply frame_env. Qed.

Lemma keeps_sleep n : keeps R (sleep n : M Env unit).
Proof. apply keeps_emit. Qed.

Lemma keeps_call handle {A} (c : Cmd A) : keeps R (call handle c : M Env A).
Proof.
  intros w. unfold call. destruct (handle A c (w_env w)) as [r s']. apply frame_env.
Qed.

Lemma keeps_scope {A} f (m : M Env A) : keeps R m -> keeps R (scope f m).
Proof.
  intros Hm w. unfold scope. specialize (Hm w). destruct (m w) as [r w1]; simpl in *.
  eapply frame_trans; [apply Hm | apply frame_env].
Qed.

Lemma keeps_get_fs : keeps R (get_fs : M Env _).
Proof. intros w. apply frame_refl. Qed.

Lemma keeps_get_driver : keeps R (get_driver : M Env _).
Proof. intros w. apply frame_refl. Qed.

Lemma keeps_set_driver b : keeps R (set_driver b : M Env _).
Proof. intros w. apply frame_env. Qed.

Lemma keeps_for_each {A} (xs : list A) (body : A -> M Env unit) :
  (forall x, keeps R (body x)) -> keeps R (for_each xs body).
Proof.
  intros Hbody. induction xs as [|x xs IH]; simpl.
  - apply keeps_ret.
  - apply keeps_bind; [apply Hbody | intros _; apply IH].
Qed.

Lemma keeps_for_fold {A St} (xs : list A) (body : A -> St -> M Env St) st :
  (forall x st, keeps R (body x st)) -> keeps R (for_fold xs body st).
Proof.
  intros Hbody. revert st. induction xs as [|x xs IH]; intros st; simpl.
  - apply keeps_ret.
  - apply keeps_bind; [apply Hbody | intros st'; apply IH].
Qed.

Lemma keeps_require_str o : keeps R (require_str o : M Env _).
Proof. destruct o; [apply keeps_ret | apply keeps_raise]. Qed.

Lemma keeps_contains_in sub o : keeps R (contains_in sub o : M Env _).
Proof. destruct o; [apply keeps_ret | apply keeps_raise]. Qed.

Lemma keeps_insert path content :
  writable R path -> keeps R (modify_fs (insert path content) : M Env _).
Proof. intros H w. apply H. Qed.

Lemma keeps_write_chunk path chunk :
  writable R path -> keeps R (write_chunk (Env := Env) path chunk).
Proof. intros H w. apply H. Qed.

End Frames.

Create HintDb keeps.

(** one structural step of a proof that a computation keeps [R] *)
Ltac keeps_step :=
  lazymatch goal with
  | |- keeps _ (mret _) => apply keeps_ret; try apply _
  | |- keeps _ (raise _) => apply keeps_raise; try apply _
  | |- keeps _ (of_outcome _) => apply keeps_of_outcome; try apply _
  | |- keeps _ (_ ≫= _) => apply keeps_bind; [try apply _ | | intros ?]
  | |- keeps _ (attempt _) => apply keeps_attempt
  | |- keeps _ (try_except _ _) => apply keeps_try_except; [try apply _ | | intros ?]
  | |- keeps _ (try_except_timeout _ _) => apply keeps_try_except_timeout; [try apply _ | | ]
  | |- keeps _ (try_finally _ _) => apply keeps_try_finally; [try apply _ | | ]
  | |- keeps _ (scope _ _) => apply keeps_scope; [try apply _ | ]
  | |- keeps _ (sleep _) => apply keeps_sleep; try apply _
  | |- keeps _ (call _ _) => apply keeps_call; try apply _
  | |- keeps _ get_fs => apply keeps_get_fs; try apply _
  | |- keeps _ get_driver => apply keeps_get_driver; try apply _
  | |- keeps _ (set_driver _) => apply keeps_set_driver; try apply _
  | |- keeps _ (require_str _) => apply keeps_require_str; try apply _
  | |- keeps _ (contains_in _ _) => apply keeps_contains_in; try apply _
  | |- keeps _ (for_each _ _) => apply keeps_for_each; [try apply _ | intros ?]
  | |- keeps _ (for_fold _ _ _) => apply keeps_for_fold; [try apply _ | intros ? ?]
  | |- keeps _ (swallow _ _) => apply keeps_ret; try apply _
  | |- keeps _ (match ?x with _ => _ end) => destruct x
  | |- keeps _ ((match ?x with _ => _ end) _) => destruct x
  | |- keeps _ (let _ := _ in _) => cbv zeta
  | |- keeps _ ((fun _ => _) _) => cbv beta
  | |- keeps _ ((fun _ => _) _ _) => cbv beta
  end.

Ltac keeps_auto :=
  repeat (first [ solve [eauto with keeps typeclass_instances] | keeps_step ]).

Section Returns.
Context {Env : Type}.

Lemma returns_ret {A} (a : A) : returns (mret a : M Env A).
Proof. intros w. by eexists _, _. Qed.

Lemma returns_bind {A B} (m : M Env A) (k : A -> M Env B) :
  returns m -> (forall a, returns (k a)) -> returns (m ≫= k).
Proof.
  intros Hm Hk w. unfold mbind, M_bind.
  destruct (Hm w) as (a & w1 & ->). apply Hk.
Qed.

Lemma returns_attempt {A} (m : M Env A) : returns (attempt m).
Proof. intros w. unfold attempt. destruct (m w). by eexists _, _. Qed.

Lemma returns_try_except {A} (m : M Env A) (h : Exn -> M Env A) :
  (forall e, returns (h e)) -> returns (try_except m h).
Proof.
  intros Hh w. unfold try_except. destruct (m w) as [[a|e] w1]; [by eexists _, _|].
  apply Hh.
Qed.

Lemma returns_try_except_timeout {A} (m h : M Env A) :
  returns m -> returns (try_except_timeout m h).
Proof.
  intros Hm w. unfold try_except_timeout. destruct (Hm w) as (a & w1 & ->).
  by eexists _, _.
Qed.

Lemma returns_scope {A} f (m : M Env A) : returns m -> returns (scope f m).
Proof.
  intros Hm w. unfold scope. destruct (Hm w) as (a & w1 & ->). by eexists _, _.
Qed.

Lemma returns_emit ev : returns (emit ev : M Env unit).
Proof. intros w. by eexists _, _. Qed.

Lemma returns_sleep n : returns (sleep n : M Env unit).
Proof. apply returns_emit. Qed.

Lemma returns_get_fs : returns (get_fs : M Env _).
Proof. intros w. by eexists _, _. Qed.

Lemma returns_modify_fs f : returns (modify_fs f : M Env _).
Proof. intros w. by eexists _, _. Qed.

Lemma returns_get_driver : returns (get_driver : M Env _).
Proof. intros w. by eexists _, _. Qed.

Lemma returns_set_driver b : returns (set_driver b : M Env _).
Proof. intros w. by eexists _, _. Qed.

Lemma returns_for_each {A} (xs : list A) (body : A -> M Env unit) :
  (forall x, returns (body x)) -> returns (for_each xs body).
Proof.
  intros Hbody. induction xs as [|x xs IH]; simpl.
  - apply returns_ret.
  - apply returns_bind; [apply Hbody | intros _; apply IH].
Qed.

Lemma returns_for_fold {A St} (xs : list A) (body : A -> St -> M Env St) st :
  (forall x st, returns (body x st)) -> returns (for_fold xs body st).
Proof.
  intros Hbody. revert st. induction xs as [|x xs IH]; intros st; simpl.
  - apply returns_ret.
  - apply returns_bind; [apply Hbody | intros st'; apply IH].
Qed.

(** a loop invariant holds of the value of a loop that returns *)
Lemma for_fold_invariant {A St} (I : St -> Prop) (xs : list A)
    (body : A -> St -> M Env St) :
  (forall x st w st' w', I st -> body x st w = (Ok st', w') -> I st') ->
  forall st w st' w',
    I st -> for_fold xs body st w = (Ok st', w') -> I st'.
Proof.
  intros Hbody. induction xs as [|x xs IH]; intros st w st' w' Hst Hrun; simpl in Hrun.
  - unfold mret, M_ret in Hrun. by simplify_eq.
  - unfold mbind, M_bind in Hrun. destruct (body x st w) as [[st1|e] w1] eqn:E; [|done].
    eapply IH; [|apply Hrun]. eapply Hbody; [apply Hst | apply E].
Qed.

End Returns.

(** one structural step of a proof that a computation never raises *)
Ltac returns_step :=
  lazymatch goal with
  | |- returns (mret _) => apply returns_ret
  | |- returns (_ ≫= _) => apply returns_bind; [ | intros ?]
  | |- returns (attempt _) => apply returns_attempt
  | |- returns (try_except _ _) => apply returns_try_except; intros ?
  | |- returns (try_except_timeout _ _) => apply returns_try_except_timeout
  | |- returns (scope _ _) => apply returns_scope
  | |- returns (sleep _) => apply returns_sleep
  | |- returns get_fs => apply returns_get_fs
  | |- returns (modify_fs _) => apply returns_modify_fs
  | |- returns get_driver => apply returns_get_driver
  | |- returns (set_driver _) => apply returns_set_driver
  | |- returns (for_each _ _) => apply returns_for_each; intros ?
  | |- returns (for_fold _ _ _) => apply returns_for_fold; intros ? ?
  | |- returns (swallow _ _) => apply returns_ret
  | |- returns (match ?x with _ => _ end) => destruct x
  | |- returns ((match ?x with _ => _ end) _) => destruct x
  | |- returns (let _ := _ in _) => cbv zeta
  | |- returns ((fun _ => _) _) => cbv beta
  | |- returns ((fun _ => _) _ _) => cbv beta
  end.

Create HintDb returns.

Ltac returns_auto :=
  repeat (first [ solve [eauto with returns] | returns_step ]).

(** ** More on the download fallback chain *)

Lemma keeps_result {Env A} (R : World Env -> World Env -> Prop) (m : M Env A) w r w' :
  keeps R m -> m w = (r, w') -> R w w'.
Proof. intros Hm E. specialize (Hm w). by rewrite E in Hm. Qed.

Section DownloadFrames.
Context {Env : Type} (handle : Handler Env) (cfg : Config).
Context (R : World Env -> World Env -> Prop) `{!Frame R}.

Lemma keeps_take_screenshot name : keeps R (_take_screenshot handle name).
Proof. unfold _take_screenshot. keeps_auto. Qed.

Lemma keeps_open_wb path : writable R path -> keeps R (open_wb handle path).
Proof. intros H. unfold open_wb. keeps_auto. by apply keeps_insert. Qed.

Lemma keeps_save_file response path :
  writable R path -> keeps R (_save_file_with_progress handle response path).
Proof.
  intros H. unfold _save_file_with_progress, content_length, _format_size.
  pose proof (keeps_open_wb path H). pose proof (keeps_write_chunk R path).
  keeps_auto.
Qed.

Lemma keeps_download_file url path :
  writable R path -> keeps R (_download_file handle cfg url path).
Proof.
  intros H. unfold _download_file, download_attempt, download_failed, raise_for_status.
  pose proof keeps_take_screenshot. pose proof (keeps_save_file).
  pose proof (keeps_open_wb path H). keeps_auto.
Qed.

End DownloadFrames.

Section Stored.
Context {Env : Type} (handle : Handler Env) (cfg : Config).

Lemma write_chunks path chunks : forall (w : World Env) acc,
  w_fs w !! path = Some acc ->
  exists w',
    for_each chunks
      (fun chunk => if bool_decide (chunk = []) then mret tt
                    else write_chunk path chunk) w = (Ok tt, w')
    /\ w_fs w' !! path = Some (acc ++ concat chunks).
Proof.
  induction chunks as [|chunk chunks IH]; intros w acc Hacc; simpl.
  - eexists. split; [done|]. by rewrite app_nil_r.
  - destruct (bool_decide (chunk = [])) eqn:E.
    + apply bool_decide_eq_true in E as ->. unfold mbind, M_bind, mret at 1, M_ret at 1.
      by apply IH.
    + unfold mbind, M_bind.
      change (write_chunk path chunk w)
        with (Ok tt, mkWorld (w_env w)
                       (<[path := default [] (w_fs w !! path) ++ chunk]> (w_fs w))
                       (w_driver w) (w_trace w)).
      cbn iota. rewrite app_assoc. apply IH. simpl. rewrite Hacc. apply lookup_insert_eq.
Qed.

(** a transfer that returns has stored the whole body of the response *)
Lemma save_file_stores response path (w w' : World Env) :
  _save_file_with_progress handle response path w = (Ok tt, w') ->
  resp_stream_error response = None
  /\ w_fs w' !! path = Some (concat (resp_chunks response))
  /\ exists t, w_trace w' = w_trace w ++ t.
Proof.
  intros H.
  destruct (emits_run (fun _ => True) _ _ _ _
              (emits_save_file handle (fun _ => True) response path) H)
    as (t & Et & _).
  unfold _save_file_with_progress in H.
  apply bind_ok in H as (n & w1 & E1 & H).
  apply bind_ok in H as ([] & w2 & E2 & H).
  apply bind_ok in H as ([] & w3 & E3 & H).
  apply bind_ok in H as ([] & w4 & E4 & H).
  assert (Hopen : w_fs w2 !! path = Some []).
  { unfold open_wb in E2. apply bind_ok in E2 as ([] & w1' & _ & E2).
    msimpl in E2. simplify_eq. simpl. apply lookup_insert_eq. }
  destruct (write_chunks path (resp_chunks response) w2 [] Hopen) as (w3' & E3' & Hfs).
  rewrite E3 in E3'. simplify_eq.
  destruct (resp_stream_error response) as [e|]; [done|].
  msimpl in E4. simplify_eq.
  assert (w' = w4) as ->.
  { unfold _format_size in H. repeat case_match; msimpl in H; by simplify_eq. }
  eauto.
Qed.

Lemma download_attempt_stored url path (w w' : World Env) :
  download_attempt handle cfg url path w = (Ok true, w') ->
  exists t u response,
    w_trace w' = w_trace w ++ t
    /\ In (ECmd (SessionGet u) (Ok response)) t
    /\ resp_stream_error response = None
    /\ w_fs w' !! path = Some (concat (resp_chunks response)).
Proof.
  intros H. unfold download_attempt in H. cbv zeta in H.
  match type of H with (?m ≫= ?k) _ = _ =>
    match k with context [call handle (SessionGet _)] => idtac end end.
  apply bind_ok in H as ([] & w1 & E1 & H). apply call_ok in E1 as (T1 & _).
  apply bind_ok in H as ([] & w2 & E2 & H).
  apply bind_ok in H as ([] & w3 & E3 & H).
  apply (emits_run (fun _ => True)) in E3 as (t3 & T3 & _);
    [|apply emits_take_screenshot; apply _].
  apply bind_ok in H as (button & w4 & E4 & H).
  apply (emits_run (fun _ => True)) in E4 as (t4 & T4 & _); [|emits_auto].
  msimpl in E2. simplify_eq. simpl in T3.
  destruct button as [download_button|].
  - apply bind_ok in H as (download_url & w5 & E5 & H). apply call_ok in E5 as (T5 & _).
    apply bind_ok in H as (response & w6 & E6 & H). apply call_ok in E6 as (T6 & _).
    apply bind_ok in H as ([] & w7 & E7 & H).
    assert (w7 = w6) as ->.
    { unfold raise_for_status in E7. case_match; msimpl in E7; by simplify_eq. }
    apply bind_ok in H as ([] & w8 & E8 & H).
    apply save_file_stores in E8 as (Hnone & Hfs & t8 & T8).
    msimpl in H. simplify_eq.
    eexists _, download_url, response. split_and!; [|..|done|done].
    + rewrite T8, T6, T5, T4, T3, T1, <- !List.app_assoc. reflexivity.
    + rewrite !in_app_iff. simpl.
      repeat match goal with
             | |- _ \/ _ => first [left; reflexivity | left; left; reflexivity | right]
             end.
  - apply bind_ok in H as ([] & w5 & E5 & H).
    apply (emits_run (fun _ => True)) in E5 as (t5 & T5 & _);
      [|apply emits_take_screenshot; apply _].
    apply bind_ok in H as (response & w6 & E6 & H). apply call_ok in E6 as (T6 & _).
    destruct (status_code response =? 200); [|msimpl in H; by simplify_eq].
    apply bind_ok in H as ([] & w8 & E8 & H).
    apply save_file_stores in E8 as (Hnone & Hfs & t8 & T8).
    msimpl in H. simplify_eq.
    eexists _, url, response. split_and!; [|..|done|done].
    + rewrite T8, T6, T5, T4, T3, T1, <- !List.app_assoc. reflexivity.
    + rewrite !in_app_iff. simpl.
      repeat match goal with
             | |- _ \/ _ => first [left; reflexivity | left; left; reflexivity | right]
             end.
Qed.

(** the attempt returns [False] only on the direct-transfer path, when the
    file's URL answers with a status other than 200; nothing is written *)
Lemma download_attempt_false url path (w w' : World Env) :
  download_attempt handle cfg url path w = (Ok false, w') ->
  w_fs w' = w_fs w
  /\ exists t response,
       w_trace w' = w_trace w ++ t
       /\ In (ECmd (SessionGet url) (Ok response)) t
       /\ status_code response <> 200.
Proof.
  intros H. unfold download_attempt in H. cbv zeta in H.
  apply bind_ok in H as ([] & w1 & E1 & H). apply call_ok in E1 as (T1 & F1 & _).
  apply bind_ok in H as ([] & w2 & E2 & H).
  pose proof (keeps_result same_files _ _ _ _ (keeps_sleep _ _) E2) as F2.
  apply (emits_run (fun _ => True)) in E2 as (t2 & T2 & _); [|emits_auto].
  apply bind_ok in H as ([] & w3 & E3 & H).
  pose proof (keeps_result same_files _ _ _ _ (keeps_take_screenshot handle _ _) E3) as F3.
  apply (emits_run (fun _ => True)) in E3 as (t3 & T3 & _);
    [|apply emits_take_screenshot; apply _].
  apply bind_ok in H as (button & w4 & E4 & H).
  assert (F4 : same_files w3 w4) by (eapply keeps_result; [|apply E4]; keeps_auto).
  apply (emits_run (fun _ => True)) in E4 as (t4 & T4 & _); [|emits_auto].
  destruct button as [download_button|].
  - apply bind_ok in H as (download_url & w5 & _ & H).
    apply bind_ok in H as (response & w6 & _ & H).
    apply bind_ok in H as ([] & w7 & _ & H).
    apply bind_ok in H as ([] & w8 & _ & H).
    msimpl in H. by simplify_eq.
  - apply bind_ok in H as ([] & w5 & E5 & H).
    pose proof (keeps_result same_files _ _ _ _ (keeps_take_screenshot handle _ _) E5) as F5.
    apply (emits_run (fun _ => True)) in E5 as (t5 & T5 & _);
      [|apply emits_take_screenshot; apply _].
    apply bind_ok in H as (response & w6 & E6 & H).
    apply call_ok in E6 as (T6 & F6 & _).
    destruct (status_code response =? 200) eqn:Hstatus.
    { apply bind_ok in H as ([] & w8 & _ & H). msimpl in H. by simplify_eq. }
    msimpl in H. simplify_eq. unfold same_files in *. split.
    + by rewrite F6, F5, F4, F3, F2, F1.
    + eexists _, response. split_and!.
      * rewrite T6, T5, T4, T3, T2, T1, <- !List.app_assoc. reflexivity.
      * rewrite !in_app_iff. simpl.
        repeat match goal with
               | |- _ \/ _ => first [left; reflexivity | left; left; reflexivity | right]
               end.
      * by apply Nat.eqb_neq.
Qed.

End Stored.

(** X5.  [_download_file] never raises: whatever the browser, the session
    and the operating system answer, also when the placeholder cannot be
    written, it returns [True] or [False]. *)
Theorem download_file_never_raises {Env} (handle : Handler Env) (cfg : Config)
    (file_url : option string) (file_path : string) :
  returns (_download_file handle cfg file_url file_path).
Proof. intros w. apply download_file_returns. Qed.

(** X6.  [_download_file] opens no file for writing other than
    [file_path]: every other path holds the same content, or no file,
    after the call as before.  (The screenshots are saved by the browser:
    they are requests to the environment, not files of the model.) *)
Theorem download_file_writes_only_its_path {Env} (handle : Handler Env) (cfg : Config)
    (file_url : option string) (file_path other : string) (w : World Env) :
  other <> file_path ->
  w_fs (snd (_download_file handle cfg file_url file_path w)) !! other
  = w_fs w !! other.
Proof.
  intros Hother.
  apply (keeps_download_file handle cfg (files_outside (fun path => path = file_path))
           file_url file_path); [|done].
  by apply files_outside_writable.
Qed.

Lemma download_file_writes_only_its_path_witness :
  w_fs (snd (_download_file (site_handler preview_site) (demo_config false)
               (Some preview_ok) "d/b.pdf"
               (start_world preview_ok {[ "d/a.pdf" := bytes "old" ]})))
    !! "d/a.pdf"
  = Some (bytes "old").
Proof.
  refine (eq_trans
            (download_file_writes_only_its_path (site_handler preview_site)
               (demo_config false) (Some preview_ok) "d/b.pdf" "d/a.pdf"
               (start_world preview_ok {[ "d/a.pdf" := bytes "old" ]}) _) _).
  - discriminate.
  - vm_compute. reflexivity.
Defined.

(** X7.  When [_download_file] returns [True], either the file was there
    with a non-zero size and was skipped, or the call received a response
    from the session whose stream ended without error and [file_path] now
    holds exactly the bytes of that response, in order. *)
Theorem download_file_true_means_stored {Env} (handle : Handler Env) (cfg : Config)
    (file_url : option string) (file_path : string) (w w' : World Env) :
  _download_file handle cfg file_url file_path w = (Ok true, w') ->
  (skip_existing cfg = true /\ 0 < getsize (w_fs w) file_path /\ w_fs w' = w_fs w)
  \/ exists body url response,
       w_trace w' = w_trace w ++ [ECall (CallDownload file_url file_path) true body]
       /\ In (ECmd (SessionGet url) (Ok response)) body
       /\ resp_stream_error response = None
       /\ w_fs w' !! file_path = Some (concat (resp_chunks response)).
Proof.
  unfold _download_file, scope. intros H.
  match type of H with context [try_except ?m ?h w] =>
    destruct (try_except m h w) as [r w1] eqn:E end.
  simplify_eq. unfold try_except in E.
  match type of E with context [mbind ?k ?m w] =>
    destruct (mbind k m w) as [[ok|e] w2] eqn:E2 end.
  - simplify_eq. unfold mbind, M_bind, get_fs in E2. cbn beta iota in E2.
    assert (Hattempt : download_attempt handle cfg file_url file_path w = (Ok true, w1) ->
      exists body url response,
       w_trace w ++ [ECall (CallDownload file_url file_path) true
                       (drop (length (w_trace w)) (w_trace w1))]
       = w_trace w ++ [ECall (CallDownload file_url file_path) true body]
       /\ In (ECmd (SessionGet url) (Ok response)) body
       /\ resp_stream_error response = None
       /\ w_fs w1 !! file_path = Some (concat (resp_chunks response))).
    { intros Ha. apply download_attempt_stored in Ha as (t & u & response & Ht & Hin & Hnone & Hfs).
      exists t, u, response. rewrite Ht, drop_app_length. by split_and!. }
    destruct (skip_existing cfg) eqn:Hskip; simpl in E2; [|right; by apply Hattempt].
    destruct (path_exists (w_fs w) file_path); simpl in E2; [|right; by apply Hattempt].
    destruct (0 <? getsize (w_fs w) file_path) eqn:Hsize; [|right; by apply Hattempt].
    left. msimpl in E2. simplify_eq. apply Nat.ltb_lt in Hsize. by split_and!.
  - destruct (download_failed_returns handle file_path w2) as (w3 & E3 & _).
    rewrite E3 in E. by simplify_eq.
Qed.

Lemma download_file_true_means_stored_witness :
  let w := start_world preview_ok ∅ in
  let w' := snd (_download_file (site_handler preview_site) (demo_config false)
                   (Some preview_ok) "d/a.pdf" w) in
  (skip_existing (demo_config false) = true
   /\ 0 < getsize (w_fs w) "d/a.pdf" /\ w_fs w' = w_fs w)
  \/ exists body url response,
       w_trace w' = w_trace w ++ [ECall (CallDownload (Some preview_ok) "d/a.pdf")
                                    true body]
       /\ In (ECmd (SessionGet url) (Ok response)) body
       /\ resp_stream_error response = None
       /\ w_fs w' !! "d/a.pdf" = Some (concat (resp_chunks response)).
Proof.
  intros w w'.
  apply (download_file_true_means_stored (site_handler preview_site)
           (demo_config false) (Some preview_ok) "d/a.pdf" w w').
  vm_compute. reflexivity.
Defined.

(** X8.  When [_download_file] returns [False] and the operating system
    does not refuse to open [file_path] for writing, either an empty
    placeholder is at [file_path], or no download button was found, the
    file's own URL answered with a status other than 200, and no file was
    written or changed at all. *)
Theorem download_file_false_means_placeholder {Env} (handle : Handler Env)
    (cfg : Config) (file_url : option string) (file_path : string)
    (w w' : World Env) :
  _download_file handle cfg file_url file_path w = (Ok false, w') ->
  (forall s, fst (handle _ (OpenWrite file_path) s) = Ok tt) ->
  w_fs w' !! file_path = Some []
  \/ (w_fs w' = w_fs w
      /\ exists body response,
           w_trace w' = w_trace w ++ [ECall (CallDownload file_url file_path) true body]
           /\ In (ECmd (SessionGet file_url) (Ok response)) body
           /\ status_code response <> 200).
Proof.
  unfold _download_file, scope. intros H Hopen.
  match type of H with context [try_except ?m ?h w] =>
    destruct (try_except m h w) as [r w1] eqn:E end.
  simplify_eq. unfold try_except in E.
  match type of E with context [mbind ?k ?m w] =>
    destruct (mbind k m w) as [[ok|e] w2] eqn:E2 end.
  - simplify_eq. unfold mbind, M_bind, get_fs in E2. cbn beta iota in E2.
    assert (Hattempt : download_attempt handle cfg file_url file_path w = (Ok false, w1) ->
      w_fs w1 = w_fs w
      /\ exists body response,
           w_trace w ++ [ECall (CallDownload file_url file_path) true
                           (drop (length (w_trace w)) (w_trace w1))]
           = w_trace w ++ [ECall (CallDownload file_url file_path) true body]
           /\ In (ECmd (SessionGet file_url) (Ok response)) body
           /\ status_code response <> 200).
    { intros Ha. apply download_attempt_false in Ha as (Hfs & t & response & Ht & Hin & Hst).
      split; [done|]. exists t, response. rewrite Ht, drop_app_length. by split_and!. }
    right. simpl.
    destruct (skip_existing cfg); simpl in E2; [|by apply Hattempt].
    destruct (path_exists (w_fs w) file_path); simpl in E2; [|by apply Hattempt].
    destruct (0 <? getsize (w_fs w) file_path); [|by apply Hattempt].
    msimpl in E2. by simplify_eq.
  - destruct (download_failed_returns handle file_path w2) as (w3 & E3 & Hfs).
    rewrite E3 in E. simplify_eq. left. simpl. by apply Hfs.
Qed.

Lemma download_file_false_means_placeholder_witness :
  let w := start_world preview_ok {[ "d/b.bin" := bytes "old" ]} in
  let gone := snd (_download_file (site_handler preview_site) (demo_config false)
                     (Some preview_gone) "d/b.bin" w) in
  let refused := snd (_download_file (site_handler preview_site) (demo_config false)
                        (Some preview_no_button) "d/b.bin" w) in
  (w_fs gone !! "d/b.bin" = Some []
   \/ (w_fs gone = w_fs w
       /\ exists body response,
            w_trace gone
            = w_trace w ++ [ECall (CallDownload (Some preview_gone) "d/b.bin") true body]
            /\ In (ECmd (SessionGet (Some preview_gone)) (Ok response)) body
            /\ status_code response <> 200))
  /\ (w_fs refused !! "d/b.bin" = Some []
      \/ (w_fs refused = w_fs w
          /\ exists body response,
               w_trace refused
               = w_trace w ++ [ECall (CallDownload (Some preview_no_button) "d/b.bin")
                                 true body]
               /\ In (ECmd (SessionGet (Some preview_no_button)) (Ok response)) body
               /\ status_code response <> 200)).
Proof.
  intros w gone refused. split.
  - apply (download_file_false_means_placeholder (site_handler preview_site)
             (demo_config false) (Some preview_gone) "d/b.bin" w gone).
    + vm_compute. reflexivity.
    + intros s. reflexivity.
  - apply (download_file_false_means_placeholder (site_handler preview_site)
             (demo_config false) (Some preview_no_button) "d/b.bin" w refused).
    + vm_compute. reflexivity.
    + intros s. reflexivity.
Defined.

Section Ledger.
Context {Env : Type} (handle : Handler Env) (cfg : Config).

(** the handler: the error screenshot, then the attempt to open the
    placeholder, whose answer decides what is left *)
Lemma download_failed_opens file_path (w : World Env) :
  exists w' shot answer,
    download_failed handle file_path w = (Ok false, w')
    /\ w_trace w' = w_trace w ++ shot ++ [ECmd (OpenWrite file_path) answer]
    /\ match answer with
       | Ok _ => w_fs w' !! file_path = Some []
       | Raise _ => w_fs w' = w_fs w
       end.
Proof.
  unfold download_failed. cbv zeta.
  destruct (take_screenshot_returns handle
              ("download_error_" +:+ _sanitize_filename (Py.basename file_path)) w)
    as (w1 & E1 & Hfs & _).
  destruct (emits_run (fun _ => True) _ _ _ _
              (emits_take_screenshot handle (fun _ => True) _) E1) as (shot & T1 & _).
  rewrite bind_run, E1. unfold open_wb. msimpl.
  destruct (handle _ (OpenWrite file_path) (w_env w1)) as [[[]|e] s'];
    msimpl; eexists _, shot, _; (split_and!; [done| |]).
  - by rewrite T1, <- List.app_assoc.
  - apply lookup_insert_eq.
  - by rewrite T1, <- List.app_assoc.
  - done.
Qed.

(** the call when the skip does not apply *)
Lemma download_file_unskipped file_url file_path (w : World Env) :
  skip_existing cfg = false \/ getsize (w_fs w) file_path = 0 ->
  _download_file handle cfg file_url file_path w
  = scope (CallDownload file_url file_path)
      (try_except (download_attempt handle cfg file_url file_path)
         (fun _ => download_failed handle file_path)) w.
Proof.
  intros Hskip. unfold _download_file, scope, try_except.
  rewrite bind_run. unfold get_fs. cbn beta iota.
  destruct Hskip as [-> | Hsize]; [done|].
  rewrite Hsize. by destruct (skip_existing cfg && path_exists (w_fs w) file_path).
Qed.

End Ledger.



(** the placeholder of the fixture is replaced by the file *)
Example download_file_placeholder_is_replaced :
  let result := _download_file (site_handler preview_site) (demo_config true)
                  (Some preview_ok) "d/a.pdf"
                  (start_world preview_ok {[ "d/a.pdf" := [] ]}) in
  fst result = Ok true /\ w_fs (snd result) !! "d/a.pdf" = Some (bytes "data").
Proof. vm_compute. by split. Qed.

(** C10 (amended).  When a file exists at [file_path], the skip does not
    apply (skipping is disabled, or the file is empty) and the download
    attempt raises, [_download_file] returns [False] after asking to open
    [file_path] for writing, as the last request of the call.  When that is
    granted the file is empty afterwards: its previous content is gone.
    When it is refused the error is swallowed and the files are as the
    failed attempt left them. *)
Theorem download_file_failure_truncates {Env} (handle : Handler Env) (cfg : Config)
    (file_url : option string) (file_path : string) (w w1 : World Env)
    (content : list byte) (e : Exn) :
  w_fs w !! file_path = Some content ->
  skip_existing cfg = false \/ length content = 0 ->
  download_attempt handle cfg file_url file_path w = (Raise e, w1) ->
  exists w' before answer,
    _download_file handle cfg file_url file_path w = (Ok false, w')
    /\ w_trace w'
       = w_trace w ++ [ECall (CallDownload file_url file_path) true
                         (before ++ [ECmd (OpenWrite file_path) answer])]
    /\ match answer with
       | Ok _ => w_fs w' !! file_path = Some []
       | Raise _ => w_fs w' = w_fs w1
       end.
Proof.
  intros Hfile Hskip Hraise.
  destruct (path_exists_getsize _ _ _ Hfile) as [Hex Hsz].
  rewrite download_file_unskipped by (rewrite Hsz; tauto).
  destruct (download_failed_opens handle file_path w1)
    as (w2 & shot & answer & E2 & T2 & Hfs).
  destruct (emits_run (fun _ => True) _ _ _ _
              (emits_download_attempt handle cfg (fun _ => True) file_url file_path)
              Hraise) as (t1 & T1 & _).
  unfold scope, try_except. rewrite Hraise, E2.
  eexists _, (t1 ++ shot), answer. split_and!; [done| |].
  - cbn [w_trace is_ok]. by rewrite T2, T1, <- !List.app_assoc, drop_app_length.
  - by destruct answer.
Qed.

Lemma download_file_failure_truncates_witness :
  let w := start_world preview_ok {[ "d/a.pdf" := bytes "old" ]} in
  let w1 := snd (download_attempt (site_handler preview_site) (demo_config false)
                   (Some preview_cut) "d/a.pdf" w) in
  exists w' before answer,
    _download_file (site_handler preview_site) (demo_config false)
      (Some preview_cut) "d/a.pdf" w = (Ok false, w')
    /\ w_trace w'
       = w_trace w ++ [ECall (CallDownload (Some preview_cut) "d/a.pdf") true
                         (before ++ [ECmd (OpenWrite "d/a.pdf") answer])]
    /\ match answer with
       | Ok _ => w_fs w' !! "d/a.pdf" = Some []
       | Raise _ => w_fs w' = w_fs w1
       end.
Proof.
  intros w w1.
  apply (download_file_failure_truncates (site_handler preview_site)
           (demo_config false) (Some preview_cut) "d/a.pdf" w w1 (bytes "old")
           (Exception "ChunkedEncodingError")).
  - vm_compute. reflexivity.
  - left. reflexivity.
  - vm_compute. reflexivity.
Defined.

(** the transfer of the fixture breaks after one chunk: what was written
    and what was there before are both gone *)
Example download_file_failure_truncates_fixture :
  let result := _download_file (site_handler preview_site) (demo_config false)
                  (Some preview_cut) "d/a.pdf"
                  (start_world preview_ok {[ "d/a.pdf" := bytes "old" ]}) in
  fst result = Ok false /\ w_fs (snd result) !! "d/a.pdf" = Some [].
Proof. vm_compute. by split. Qed.

(** C10, as stated, fails for a file that cannot be opened for writing:
    the navigation fails, the handler's [open] is refused and swallowed,
    and the content that was there is preserved. *)
Lemma download_file_failure_keeps_locked_file :
  let result := _download_file (site_handler locked_site) (demo_config false)
                  (Some preview_gone) "d/a.pdf"
                  (start_world preview_ok {[ "d/a.pdf" := bytes "old" ]}) in
  fst result = Ok false
  /\ w_fs (snd result) !! "d/a.pdf" = Some (bytes "old").
Proof. vm_compute. by split. Qed.

(** ** More on course discovery *)

Section DiscoveryFrames.
Context {Env : Type} (handle : Handler Env) (cfg : Config).
Context (R : World Env -> World Env -> Prop) `{!Frame R}.

Lemma keeps_extract_course_id course_url :
  keeps R (extract_course_id (Env := Env) course_url).
Proof. unfold extract_course_id, course_path_parts, index1. keeps_auto. Qed.

Lemma keeps_dashboard : keeps R (_get_courses_from_dashboard handle).
Proof.
  unfold _get_courses_from_dashboard, dashboard_card.
  pose proof keeps_extract_course_id. keeps_auto.
Qed.

Lemma keeps_table : keeps R (_get_courses_from_all_courses_table handle cfg).
Proof.
  unfold _get_courses_from_all_courses_table, table_row.
  pose proof keeps_extract_course_id. pose proof (keeps_take_screenshot handle R).
  keeps_auto.
Qed.

Lemma keeps_list_view : keeps R (_get_courses_from_list_view handle cfg).
Proof.
  unfold _get_courses_from_list_view, list_link, course_path_parts, index1.
  pose proof (keeps_take_screenshot handle R). keeps_auto.
Qed.

Lemma keeps_get_courses : keeps R (get_courses handle cfg).
Proof.
  unfold get_courses, open_courses_page.
  pose proof (keeps_take_screenshot handle R).
  pose proof keeps_dashboard. pose proof keeps_table. pose proof keeps_list_view.
  keeps_auto.
Qed.

End DiscoveryFrames.

Section ListView.
Context {Env : Type} (handle : Handler Env) (cfg : Config).

Lemma existsb_eqb_false (s : string) (l : list string) :
  existsb (String.eqb s) l = false -> ~ In s l.
Proof.
  intros H Hin. apply not_true_iff_false in H. apply H.
  apply existsb_exists. exists s. split; [done | apply String.eqb_refl].
Qed.

Lemma list_link_listed link courses (w : World Env) courses' w' :
  listed_courses courses -> list_link handle link courses w = (Ok courses', w') ->
  listed_courses courses'.
Proof.
  intros HI H. unfold list_link, try_except in H.
  match type of H with context [mbind ?k ?m w] =>
    destruct (mbind k m w) as [[cs|e] w1] eqn:E end;
    [|msimpl in H; by simplify_eq].
  simplify_eq.
  apply bind_ok in E as (href & w2 & _ & E).
  apply bind_ok in E as (is_all & w3 & _ & E).
  apply bind_ok in E as (course_url & w4 & _ & E).
  destruct (is_all || Py.contains "/courses/favorites" course_url
            || Py.contains "/courses/search" course_url);
    [msimpl in E; by simplify_eq|].
  destruct (Py.contains "/courses/" course_url) eqn:Hurl;
    [|msimpl in E; by simplify_eq].
  apply bind_ok in E as (parts & w5 & _ & E).
  destruct parts as [|course_id parts]; [msimpl in E; by simplify_eq|].
  destruct (Py.isdigit course_id) eqn:Hdigit; [|msimpl in E; by simplify_eq].
  apply bind_ok in E as (text & w6 & _ & E).
  destruct (String.eqb (Py.strip_ws text) EmptyString
            || existsb (String.eqb (Py.lower (Py.strip_ws text))) navigation_labels)
    eqn:Hname; [msimpl in E; by simplify_eq|].
  destruct (existsb (fun c => String.eqb (c_id c) course_id) courses) eqn:Hold;
    [msimpl in E; by simplify_eq|].
  msimpl in E. simplify_eq.
  apply orb_false_iff in Hname as [Hempty Hnav].
  destruct HI as [Hall Hdistinct]. split.
  - apply Forall_app. split; [done|]. constructor; [|constructor].
    unfold listed_course. cbn [c_id c_name c_url]. split_and!; [done| |by apply existsb_eqb_false|done].
    by apply String.eqb_neq.
  - rewrite map_app. simpl. apply NoDup_app. split_and!; [done| |apply NoDup_singleton].
    intros id Hid Hnew. apply list_elem_of_singleton in Hnew as ->.
    apply not_true_iff_false in Hold. apply Hold.
    apply list_elem_of_fmap in Hid as (c & Hc & Hin).
    apply existsb_exists. exists c. split; [by apply list_elem_of_In|].
    rewrite <- Hc. apply String.eqb_refl.
Qed.

Lemma list_view_listed (w : World Env) :
  exists courses w',
    _get_courses_from_list_view handle cfg w = (Ok courses, w') /\ listed_courses courses.
Proof.
  assert (Hnil : listed_courses []) by (split; constructor).
  unfold _get_courses_from_list_view, scope, try_except.
  match goal with |- context [mbind ?k ?m w] =>
    destruct (mbind k m w) as [[cs|e] w1] eqn:E end.
  - eexists _, _. split; [done|].
    apply bind_ok in E as (current_url & w2 & _ & E).
    apply bind_ok in E as ([] & w3 & _ & E).
    apply bind_ok in E as ([] & w4 & _ & E).
    apply bind_ok in E as (course_links & w5 & _ & E).
    eapply (for_fold_invariant listed_courses); [|apply Hnil|apply E].
    intros link st wa st' wb. apply list_link_listed.
  - destruct (screenshot_then_empty handle "list_courses_error" w1) as (cs & w2 & E2).
    rewrite E2. eexists _, _. split; [done|].
    apply bind_ok in E2 as ([] & w3 & _ & E2). msimpl in E2. by simplify_eq.
Qed.

End ListView.

(** X9.  [get_courses] never raises, and it opens no file for writing:
    the download tree is the same after the call as before.  (It does ask
    the browser for screenshots.) *)
Theorem get_courses_returns_and_writes_nothing {Env} (handle : Handler Env)
    (cfg : Config) (w : World Env) :
  exists courses w',
    get_courses handle cfg w = (Ok courses, w') /\ w_fs w' = w_fs w.
Proof.
  destruct (get_courses_returns handle cfg w) as (courses & w' & E).
  exists courses, w'. split; [done|].
  pose proof (keeps_get_courses handle cfg same_files w) as H.
  by rewrite E in H.
Qed.

(** X10.  The list-view strategy never raises, and of the courses it
    returns no two have the same id; every id passed [isdigit], every name
    is non-empty and is not, in lower case, one of the navigation labels
    "all courses", "dashboard" and "courses", and every URL contains
    "/courses/". *)
Theorem list_view_courses_distinct_and_numeric {Env} (handle : Handler Env)
    (cfg : Config) (w : World Env) :
  exists courses w',
    _get_courses_from_list_view handle cfg w = (Ok courses, w')
    /\ Forall listed_course courses
    /\ NoDup (map c_id courses).
Proof.
  destruct (list_view_listed handle cfg w) as (courses & w' & E & Hall & Hdistinct).
  by exists courses, w'.
Qed.

(** ** The cascade of discovery *)

Section Cascade.
Context {Env : Type} (handle : Handler Env) (cfg : Config).

Lemma traces_open_courses_page :
  traces (open_courses_page handle cfg)
    (fun r t =>
       step (DriverGet (Some (canvas_url cfg +:+ "/courses")))
         (fun _ rest => is_ok r = true
                        /\ pause (delay cfg) (shot_then "courses_page" ends) rest)
         (fun _ rest => is_ok r = false /\ ends rest) t).
Proof. unfold open_courses_page. repeat traces_step; grammar. Qed.

End Cascade.

(** C5 (amended).  [get_courses] first navigates to the courses page.
    When that navigation raises, no strategy is tried and the result is
    the empty list, after the error screenshot.  Otherwise the dashboard
    strategy runs; when it yields courses they are the result, as found,
    and no other strategy runs; otherwise the table strategy runs next with
    the same rule; otherwise the result is whatever the list-view strategy
    yields.  No strategy raises. *)
Theorem get_courses_strategy_order {Env} (handle : Handler Env) (cfg : Config)
    (w : World Env) :
  exists r w0 opening,
    open_courses_page handle cfg w = (r, w0)
    /\ w_trace w0 = w_trace w ++ opening
    /\ step (DriverGet (Some (canvas_url cfg +:+ "/courses")))
         (fun _ rest => is_ok r = true
                        /\ pause (delay cfg) (shot_then "courses_page" ends) rest)
         (fun _ rest => is_ok r = false /\ ends rest) opening
    /\ match r with
       | Raise _ =>
           exists w', _take_screenshot handle "courses_error" w0 = (Ok tt, w')
                      /\ get_courses handle cfg w = (Ok [], w')
       | Ok _ =>
           exists cs1 w1,
             _get_courses_from_dashboard handle w0 = (Ok cs1, w1)
             /\ match cs1 with
                | _ :: _ => get_courses handle cfg w = (Ok cs1, w1)
                | [] =>
                    exists cs2 w2,
                      _get_courses_from_all_courses_table handle cfg w1 = (Ok cs2, w2)
                      /\ match cs2 with
                         | _ :: _ => get_courses handle cfg w = (Ok cs2, w2)
                         | [] =>
                             exists cs3 w3,
                               _get_courses_from_list_view handle cfg w2 = (Ok cs3, w3)
                               /\ get_courses handle cfg w = (Ok cs3, w3)
                         end
                end
       end.
Proof.
  destruct (open_courses_page handle cfg w) as [r w0] eqn:Hopen.
  destruct (traces_run _ _ _ _ _ (traces_open_courses_page handle cfg) Hopen)
    as (opening & Topening & Hopening).
  exists r, w0, opening. split_and!; [done..|].
  destruct r as [[]|e].
  - destruct (dashboard_returns handle w0) as (cs1 & w1 & H1).
    exists cs1, w1. split; [done|].
    destruct cs1 as [|c1 cs1].
    + destruct (table_returns handle cfg w1) as (cs2 & w2 & H2).
      exists cs2, w2. split; [done|].
      destruct cs2 as [|c2 cs2].
      * destruct (list_view_returns handle cfg w2) as (cs3 & w3 & H3).
        exists cs3, w3. split; [done|].
        unfold get_courses, try_except, mbind, M_bind.
        rewrite Hopen. cbn beta iota. rewrite H1. cbn beta iota.
        rewrite H2. cbn beta iota. by rewrite H3.
      * unfold get_courses, try_except, mbind, M_bind.
        rewrite Hopen. cbn beta iota. rewrite H1. cbn beta iota.
        by rewrite H2.
    + unfold get_courses, try_except, mbind, M_bind.
      rewrite Hopen. cbn beta iota. by rewrite H1.
  - destruct (take_screenshot_returns handle "courses_error" w0) as (w' & E & _).
    exists w'. split; [done|].
    unfold get_courses, try_except. rewrite bind_run, Hopen, bind_run, E. done.
Qed.

(** the table fixture: the courses come back in the order of the rows *)
Example get_courses_table_order :
  fst (get_courses (site_handler table_site) (demo_config true)
         (start_world "https://canvas.test/" ∅))
  = Ok table_courses.
Proof. vm_compute. reflexivity. Qed.


(** C5, as stated, fails when the courses page cannot be loaded: the
    dashboard strategy would yield nothing and the table strategy the three
    courses of the table, but neither is tried and the result is empty. *)
Lemma get_courses_unreachable_page_tries_nothing :
  let handle := site_handler outage_site in
  let w := start_world "https://canvas.test/" ∅ in
  let dashboard := _get_courses_from_dashboard handle w in
  let table := _get_courses_from_all_courses_table handle (demo_config true)
                 (snd dashboard) in
  let result := get_courses handle (demo_config true) w in
  fst dashboard = Ok []
  /\ fst table = Ok table_courses
  /\ fst result = Ok []
  /\ w_trace (snd result)
     = [ECmd (DriverGet (Some courses_page)) (Raise (Exception "WebDriverException"));
        ECmd (SaveScreenshot "courses_error") (Ok tt)].
Proof. vm_compute. by split_and!. Qed.

(** ** The order of the descents *)

Lemma listings_app t1 t2 : listings (t1 ++ t2) = listings t1 ++ listings t2.
Proof. apply omap_app. Qed.

Lemma default_last_app {A} (a : A) l1 l2 :
  default a (last (l1 ++ l2)) = default (default a (last l1)) (last l2).
Proof.
  destruct l2 as [|b l2] using rev_ind; [by rewrite app_nil_r|].
  by rewrite app_assoc, !last_snoc.
Qed.

Lemma rows_tested_app t1 t2 : rows_tested (t1 ++ t2) = rows_tested t1 ++ rows_tested t2.
Proof. apply omap_app. Qed.

(** the rows of a trace that is known event by event *)
Ltac rows_leaf :=
  repeat match goal with x : Outcome _ |- _ => destruct x end;
  repeat split; reflexivity.

Section Listing.
Context {Env : Type} (handle : Handler Env) (cfg : Config).

(** opening a folder tests no row and reads the rows at most once *)
Lemma traces_rows_open_listing current_dir folder_url :
  traces (open_listing handle cfg current_dir folder_url)
    (fun r t =>
       rows_tested t = []
       /\ listings t = match r with Ok (Some rows) => [rows] | _ => [] end).
Proof. unfold open_listing. repeat traces_step; rows_leaf. Qed.

(** one row of the second loop tests that row *)
Lemma traces_rows_download_item current_dir item :
  traces (download_item handle cfg current_dir item)
    (fun r t => is_ok r = true /\ rows_tested t = [item] /\ listings t = []).
Proof.
  unfold download_item. pose proof (traces_download_file handle cfg).
  repeat traces_step; rows_leaf.
Qed.

Lemma traces_rows_download_files current_dir items :
  traces (for_each items (download_item handle cfg current_dir))
    (fun r t => rows_tested t = items /\ listings t = []).
Proof.
  induction items as [|item items IH]; simpl.
  - by apply traces_ret.
  - apply traces_bind. eapply traces_weaken; [apply traces_rows_download_item|].
    intros [[]|e] t1 (Hok & Hrows1 & Hread1); [|done].
    eapply traces_weaken; [apply IH|].
    intros r t2 [Hrows2 Hread2].
    by rewrite rows_tested_app, listings_app, Hrows1, Hrows2, Hread1, Hread2.
Qed.

Section Descents.
Context (recur : string -> string -> M Env unit).
Hypothesis recur_one_visit : forall subfolder_path subfolder_url,
  traces (recur subfolder_path subfolder_url)
    (fun _ t =>
       t = [] \/ exists ret body,
                   t = [ECall (CallFolder subfolder_path subfolder_url) ret body]).

(** one row of the first loop tests that row; the rows kept for the
    second loop are those read last, or the ones before when none was
    read *)
Lemma traces_rows_descend_item current_dir folder_url item items folder_name :
  traces (descend_item handle cfg recur current_dir folder_url item (items, folder_name))
    (fun r t =>
       exists items' folder_name',
         r = Ok (items', folder_name')
         /\ rows_tested t = [item]
         /\ items' = default items (last (listings t))).
Proof.
  unfold descend_item, folder_row, subfolder_error.
  repeat traces_step;
    repeat match goal with
           | H : _ \/ _ |- _ => destruct H as [H | (? & ? & H)]; subst
           end;
    eexists _, _; rows_leaf.
Qed.

Lemma traces_rows_first_loop current_dir folder_url rows : forall items folder_name,
  traces (for_fold rows (descend_item handle cfg recur current_dir folder_url)
            (items, folder_name))
    (fun r t =>
       exists items' folder_name',
         r = Ok (items', folder_name')
         /\ rows_tested t = rows
         /\ items' = default items (last (listings t))).
Proof.
  induction rows as [|item rows IH]; intros items folder_name; simpl.
  - apply traces_ret. by exists items, folder_name.
  - apply traces_bind. eapply traces_weaken; [apply traces_rows_descend_item|].
    intros r t1 (items1 & name1 & -> & Hrows1 & ->).
    eapply traces_weaken; [apply IH|].
    intros r t2 (items2 & name2 & -> & Hrows2 & ->). eexists _, _.
    split_and!; [done| |].
    + by rewrite rows_tested_app, Hrows1, Hrows2.
    + by rewrite listings_app, default_last_app.
Qed.

(** the rows a visit tests: those found at the opening, then those read
    last *)
Lemma traces_rows_folder_visit current_dir folder_url :
  traces (listing ← descend_subfolders handle cfg recur current_dir folder_url;
          download_files handle cfg current_dir listing)
    (fun _ t =>
       rows_tested t = match listings t with
                       | [] => []
                       | rows :: _ => rows ++ default rows (last (listings t))
                       end).
Proof.
  unfold descend_subfolders. apply traces_bind, traces_bind.
  eapply traces_weaken; [apply traces_rows_open_listing|].
  intros [[items|]|e] t0 [Hrows0 Hread0]; cbn beta iota.
  - apply traces_bind. eapply traces_weaken; [apply traces_rows_first_loop|].
    intros r t1 (items1 & name1 & -> & Hrows1 & ->). apply traces_ret.
    eapply traces_weaken; [apply traces_rows_download_files|].
    intros r t2 [Hrows2 Hread2].
    rewrite !rows_tested_app, !listings_app, Hrows0, Hrows1, Hrows2, Hread0, Hread2.
    cbn [app rows_tested omap]. rewrite !app_nil_r.
    cbn [fst]. f_equal.
    change (items :: listings t1) with ([items] ++ listings t1).
    by rewrite default_last_app.
  - apply traces_ret, traces_ret.
    rewrite !rows_tested_app, !listings_app, Hrows0, Hread0. done.
  - by rewrite Hrows0, Hread0.
Qed.

End Descents.

Lemma traces_rows_process_folder limit : forall current_dir folder_url,
  traces (_process_folder handle cfg (S limit) current_dir folder_url)
    (fun r t =>
       exists body,
         t = [ECall (CallFolder current_dir folder_url) (is_ok r) body]
         /\ rows_tested body = match listings body with
                               | [] => []
                               | rows :: _ => rows ++ default rows (last (listings body))
                               end).
Proof.
  induction limit as [|limit IH]; intros current_dir folder_url.
  - change (_process_folder handle cfg 1 current_dir folder_url)
      with (scope (CallFolder current_dir folder_url)
              (listing ← descend_subfolders handle cfg (_process_folder handle cfg 0)
                           current_dir folder_url;
               download_files handle cfg current_dir listing)).
    apply traces_scope. eapply traces_weaken.
    + apply traces_rows_folder_visit. intros sub url. apply traces_raise. by left.
    + intros r t Ht. by exists t.
  - change (_process_folder handle cfg (S (S limit)) current_dir folder_url)
      with (scope (CallFolder current_dir folder_url)
              (listing ← descend_subfolders handle cfg
                           (_process_folder handle cfg (S limit))
                           current_dir folder_url;
               download_files handle cfg current_dir listing)).
    apply traces_scope. eapply traces_weaken.
    + apply traces_rows_folder_visit. intros sub url.
      eapply traces_weaken; [apply IH|].
      intros r t (body & -> & _). right. by eexists _, _.
    + intros r t Ht. by exists t.
Qed.

End Listing.

(** X11.  A folder visit tests its rows in the order of the listings: the
    requests for a row's class among the events of the visit are, in
    order, one for every row found at the opening (the first loop, which
    goes on through these rows whatever is read again after a descent)
    and then one for every row of the listing read last (the second
    loop); when no listing is read, no row is tested. *)
Theorem process_folder_descends_in_listing_order {Env} (handle : Handler Env)
    (cfg : Config) (limit : nat) (current_dir folder_url : string) (w : World Env) :
  exists returned body,
    w_trace (snd (_process_folder handle cfg (S limit) current_dir folder_url w))
    = w_trace w ++ [ECall (CallFolder current_dir folder_url) returned body]
    /\ rows_tested body = match listings body with
                          | [] => []
                          | rows :: _ => rows ++ default rows (last (listings body))
                          end.
Proof.
  destruct (traces_rows_process_folder handle cfg limit current_dir folder_url w)
    as (t & Et & body & -> & Hbody).
  by eexists _, body.
Qed.

(** the fixture tree: both loops go through the rows [10; 11] *)
Example process_folder_rows_of_fixture_tree :
  let result := _process_folder (site_handler tree_site) (demo_config true) 5
                  "Canvas_Downloads/C/Files" tree_root
                  (start_world tree_root ∅) in
  rows_tested (inside (w_trace (snd result))) = [10; 11; 10; 11]
  /\ listings (inside (w_trace (snd result))) = [[10; 11]; [10; 11]].
Proof. vm_compute. by split. Qed.


(** *** What a folder visit can raise, and where it writes *)

Section Paths.

Lemma startswith_empty (p : string) :
  p <> EmptyString -> Py.startswith EmptyString p = false.
Proof.
  intros Hp. unfold Py.startswith. destruct (Py.chars p) as [|c l] eqn:E; [|done].
  destruct Hp. apply chars_inj. by rewrite E.
Qed.

Lemma join_split (dir name : string) :
  Py.startswith name "/" = false ->
  Py.chars (Py.join dir name) = Py.chars (Py.join dir EmptyString) ++ Py.chars name.
Proof.
  intros Hname. unfold Py.join. rewrite Hname, startswith_empty by done.
  destruct (String.eqb dir EmptyString || Py.endswith dir "/");
    rewrite !chars_app, ?chars_nil, ?app_nil_r, <- ?List.app_assoc; done.
Qed.

Lemma join_empty_prefix (dir : string) :
  exists sep, Py.chars (Py.join dir EmptyString) = Py.chars dir ++ sep.
Proof.
  unfold Py.join. rewrite startswith_empty by done.
  destruct (String.eqb dir EmptyString || Py.endswith dir "/");
    rewrite !chars_app, ?chars_nil; eauto.
Qed.

Lemma below_file (dir name : string) :
  Py.startswith name "/" = false -> below dir (Py.join dir name).
Proof.
  intros Hname. unfold below, Py.startswith. rewrite (join_split _ _ Hname).
  apply is_prefix_app.
Qed.

Lemma within_refl (base : string) : within base base.
Proof. by intros path. Qed.

Lemma within_join (base dir name : string) :
  within base dir -> Py.startswith name "/" = false ->
  within base (Py.join dir name).
Proof.
  intros Hdir Hname path Hpath. apply Hdir.
  unfold below, Py.startswith in *. apply is_prefix_spec in Hpath as [rest Hrest].
  destruct (join_empty_prefix (Py.join dir name)) as [sep Hsep].
  rewrite Hsep, (join_split _ _ Hname), <- !List.app_assoc in Hrest.
  rewrite Hrest. apply is_prefix_app.
Qed.

Lemma sanitized_not_absolute (filename : string) :
  Py.startswith (_sanitize_filename filename) "/" = false.
Proof.
  apply not_true_iff_false. intros H. unfold Py.startswith in H.
  apply is_prefix_spec in H as [rest Hrest].
  apply (sanitized_no_separator filename). rewrite Hrest. by left.
Qed.

Lemma safe_name_not_absolute (file_name : string) :
  Py.startswith (safe_name_with_default_extension file_name) "/" = false.
Proof.
  unfold safe_name_with_default_extension. cbv zeta.
  destruct (negb _); [|apply sanitized_not_absolute].
  pose proof (sanitized_not_absolute file_name) as H.
  destruct (sanitized_shape file_name) as (Hne & _).
  unfold Py.startswith in *. rewrite chars_app.
  destruct (Py.chars (_sanitize_filename file_name)) as [|c l]; [done|].
  exact H.
Qed.

End Paths.

Section FolderReturns.
Context {Env : Type} (handle : Handler Env) (cfg : Config).

Lemma returns_take_screenshot name : returns (_take_screenshot handle name).
Proof.
  intros w. destruct (take_screenshot_returns handle name w) as (w' & E & _).
  by eexists _, _.
Qed.

Lemma returns_descend_item recur current_dir folder_url item st :
  returns (descend_item handle cfg recur current_dir folder_url item st).
Proof.
  destruct st as [items folder_name]. unfold descend_item, subfolder_error.
  pose proof returns_take_screenshot. returns_auto.
Qed.

Lemma process_folder_unfold limit current_dir folder_url :
  _process_folder handle cfg (S limit) current_dir folder_url
  = scope (CallFolder current_dir folder_url)
      (listing ← descend_subfolders handle cfg (_process_folder handle cfg limit)
                   current_dir folder_url;
       download_files handle cfg current_dir listing).
Proof. done. Qed.

Lemma returns_download_files current_dir listing :
  returns (download_files handle cfg current_dir listing).
Proof. unfold download_files, download_item. returns_auto. Qed.

End FolderReturns.

Section FolderFrames.
Context {Env : Type} (handle : Handler Env) (cfg : Config) (base : string).

Lemma keeps_download_into dir name url :
  within base dir -> Py.startswith name "/" = false ->
  keeps (files_outside (below base))
    (_download_file handle cfg url (Py.join dir name)).
Proof.
  intros Hdir Hname. apply keeps_download_file; [apply _|].
  apply files_outside_writable, Hdir. by apply below_file.
Qed.

Lemma keeps_download_item dir item :
  within base dir ->
  keeps (files_outside (below base)) (download_item handle cfg dir item).
Proof.
  intros Hdir. unfold download_item.
  pose proof (fun name url =>
                keeps_download_into dir (_sanitize_filename name) url Hdir
                  (sanitized_not_absolute name)).
  keeps_auto.
Qed.

Lemma keeps_descend_item recur dir folder_url item st :
  (forall name url,
      keeps (files_outside (below base))
        (recur (Py.join dir (_sanitize_filename name)) url)) ->
  keeps (files_outside (below base))
    (descend_item handle cfg recur dir folder_url item st).
Proof.
  intros Hrecur. destruct st as [items folder_name].
  unfold descend_item, folder_row, subfolder_error.
  pose proof (keeps_take_screenshot handle (files_outside (below base))).
  keeps_auto.
Qed.

Lemma keeps_process_folder limit : forall dir url,
  within base dir ->
  keeps (files_outside (below base)) (_process_folder handle cfg limit dir url).
Proof.
  induction limit as [|limit IH]; intros dir url Hdir; simpl.
  - apply keeps_raise. apply _.
  - apply keeps_scope; [apply _|]. apply keeps_bind; [apply _| |].
    + unfold descend_subfolders, open_listing.
      pose proof (keeps_take_screenshot handle (files_outside (below base))).
      pose proof (fun item st =>
                    keeps_descend_item (_process_folder handle cfg limit) dir url item st
                      (fun name url' =>
                         IH _ url' (within_join _ _ _ Hdir (sanitized_not_absolute name)))).
      keeps_auto.
    + intros listing. unfold download_files.
      pose proof (fun item => keeps_download_item dir item Hdir).
      keeps_auto.
Qed.

End FolderFrames.

(** X12.  A folder visit raises only when opening its listing raises, and
    then it raises the same exception; once the listing is open (or the
    wait for it timed out), the visit returns normally whatever happens in
    a subfolder or with a file. *)
Theorem process_folder_raises_only_on_opening {Env} (handle : Handler Env)
    (cfg : Config) (limit : nat) (current_dir folder_url : string) (w : World Env) :
  fst (_process_folder handle cfg (S limit) current_dir folder_url w)
  = match fst (open_listing handle cfg current_dir folder_url w) with
    | Ok _ => Ok tt
    | Raise e => Raise e
    end.
Proof.
  rewrite process_folder_unfold. unfold scope, descend_subfolders, mbind, M_bind.
  destruct (open_listing handle cfg current_dir folder_url w) as [[[items|]|e] w1];
    cbn [fst]; [| |done].
  - destruct (returns_for_fold items
                (descend_item handle cfg (_process_folder handle cfg limit)
                   current_dir folder_url)
                (items, Py.basename current_dir)
                (returns_descend_item handle cfg _ current_dir folder_url) w1)
      as (st & w2 & ->).
    unfold mbind, M_bind, mret, M_ret.
    destruct (returns_download_files handle cfg current_dir (Some (fst st)) w2)
      as ([] & w3 & ->).
    done.
  - unfold mret, M_ret. by destruct (returns_download_files handle cfg current_dir None w1)
      as ([] & w3 & ->).
Qed.

(** X13.  A folder visit writes downloads and placeholders only inside
    its directory: a path that does not start with [current_dir] and its
    separator holds the same file, or none, after the visit as before,
    however deep the visit descends. *)
Theorem process_folder_writes_inside_its_directory {Env} (handle : Handler Env)
    (cfg : Config) (limit : nat) (current_dir folder_url path : string)
    (w : World Env) :
  ~ below current_dir path ->
  w_fs (snd (_process_folder handle cfg limit current_dir folder_url w)) !! path
  = w_fs w !! path.
Proof.
  intros Hpath.
  by apply (keeps_process_folder handle cfg current_dir limit current_dir folder_url
              (within_refl current_dir) w).
Qed.

Lemma process_folder_writes_inside_its_directory_witness :
  w_fs (snd (_process_folder (site_handler tree_site) (demo_config true) 5
               "Canvas_Downloads/C/Files" tree_root
               (start_world tree_root
                  {[ "Canvas_Downloads/C/Files_old/y.doc" := bytes "old" ]})))
    !! "Canvas_Downloads/C/Files_old/y.doc"
  = Some (bytes "old").
Proof.
  refine (eq_trans
            (process_folder_writes_inside_its_directory (site_handler tree_site)
               (demo_config true) 5 "Canvas_Downloads/C/Files" tree_root
               "Canvas_Downloads/C/Files_old/y.doc"
               (start_world tree_root
                  {[ "Canvas_Downloads/C/Files_old/y.doc" := bytes "old" ]}) _) _).
  - vm_compute. discriminate.
  - vm_compute. reflexivity.
Defined.

(** ** More on the per-course scans and the run *)

Section ScanFrames.
Context {Env : Type} (handle : Handler Env) (cfg : Config).
Context (R : World Env -> World Env -> Prop) `{!Frame R}.

Lemma keeps_name_from_url url : keeps R (name_from_url (Env := Env) cfg url).
Proof. unfold name_from_url. keeps_auto. Qed.

Lemma keeps_find_downloadable_links : keeps R (_find_downloadable_links handle).
Proof. unfold _find_downloadable_links. keeps_auto. Qed.

Lemma keeps_hrefs_of links : keeps R (hrefs_of handle links).
Proof. unfold hrefs_of. keeps_auto. Qed.

Lemma keeps_add_new_links candidates links :
  keeps R (add_new_links handle candidates links).
Proof. unfold add_new_links. pose proof keeps_hrefs_of. keeps_auto. Qed.

Lemma keeps_find_enhanced_download_links :
  keeps R (_find_enhanced_download_links handle).
Proof.
  unfold _find_enhanced_download_links.
  pose proof keeps_find_downloadable_links. pose proof keeps_add_new_links.
  keeps_auto.
Qed.

Lemma keeps_content_links_of all_links :
  keeps R (content_links_of handle cfg all_links).
Proof. unfold content_links_of. keeps_auto. Qed.

End ScanFrames.

Section CourseFrames.
Context {Env : Type} (handle : Handler Env) (cfg : Config) (base : string).

Lemma keeps_download_named url dir name found :
  within base dir ->
  keeps (files_outside (Env := Env) (below base)) (download_named handle cfg url dir name found).
Proof.
  intros Hdir. unfold download_named.
  pose proof (keeps_download_into handle cfg base dir
                (safe_name_with_default_extension name) url Hdir
                (safe_name_not_absolute name)).
  keeps_auto.
Qed.

Lemma keeps_process_direct_links course_dir subfolder_name :
  within base course_dir -> Py.startswith subfolder_name "/" = false ->
  keeps (files_outside (Env := Env) (below base)) (_process_direct_links handle cfg course_dir subfolder_name).
Proof.
  intros Hdir Hname. unfold _process_direct_links.
  pose proof (keeps_find_downloadable_links handle (files_outside (Env := Env) (below base))).
  pose proof (keeps_name_from_url (Env := Env) cfg (files_outside (Env := Env) (below base))).
  pose proof (fun url name found =>
                keeps_download_named url _ name found
                  (within_join _ _ _ Hdir Hname)).
  keeps_auto.
Qed.

Lemma keeps_download_from_page link_dir link_text found :
  within base link_dir ->
  keeps (files_outside (Env := Env) (below base)) (download_from_page handle cfg link_dir link_text found).
Proof.
  intros Hdir. unfold download_from_page, or_else.
  pose proof (keeps_find_enhanced_download_links handle (files_outside (Env := Env) (below base))).
  pose proof (keeps_name_from_url (Env := Env) cfg (files_outside (Env := Env) (below base))).
  pose proof (fun url name found => keeps_download_named url _ name found Hdir).
  keeps_auto.
Qed.

Lemma keeps_process_clickable_links course_dir subfolder_name return_url :
  within base course_dir -> Py.startswith subfolder_name "/" = false ->
  keeps (files_outside (Env := Env) (below base))
    (_process_clickable_links handle cfg course_dir subfolder_name return_url).
Proof.
  intros Hdir Hname. unfold _process_clickable_links.
  pose proof (keeps_content_links_of handle cfg (files_outside (Env := Env) (below base))).
  pose proof (keeps_take_screenshot handle (files_outside (Env := Env) (below base))).
  pose proof (fun text text' found =>
                keeps_download_from_page _ text' found
                  (within_join _ _ _ (within_join _ _ _ Hdir Hname)
                     (sanitized_not_absolute text))).
  keeps_auto.
Qed.

Lemma keeps_process_course_homepage course_id course_name course_dir :
  within base course_dir ->
  keeps (files_outside (Env := Env) (below base))
    (_process_course_homepage handle cfg course_id course_name course_dir).
Proof.
  intros Hdir. unfold _process_course_homepage.
  pose proof (keeps_take_screenshot handle (files_outside (Env := Env) (below base))).
  pose proof (keeps_process_direct_links course_dir "Homepage_Direct" Hdir eq_refl).
  pose proof (fun url =>
                keeps_process_clickable_links course_dir "Homepage" url Hdir eq_refl).
  keeps_auto.
Qed.

Lemma keeps_module_link module_dir item_name link found :
  within base module_dir ->
  keeps (files_outside (Env := Env) (below base)) (module_link handle cfg module_dir item_name link found).
Proof.
  intros Hdir. unfold module_link.
  pose proof (keeps_name_from_url (Env := Env) cfg (files_outside (Env := Env) (below base))).
  pose proof (fun url name found => keeps_download_named url _ name found Hdir).
  keeps_auto.
Qed.

Lemma keeps_process_course_modules course_id course_name course_dir :
  within base course_dir ->
  keeps (files_outside (Env := Env) (below base))
    (_process_course_modules handle cfg course_id course_name course_dir).
Proof.
  intros Hdir. unfold _process_course_modules, module_entry, module_item.
  pose proof (keeps_take_screenshot handle (files_outside (Env := Env) (below base))).
  pose proof (fun name item_name link found =>
                keeps_module_link _ item_name link found
                  (within_join _ _ _ Hdir (sanitized_not_absolute name))).
  keeps_auto.
Qed.

Lemma keeps_process_course_files_section course_id course_name course_dir :
  within base course_dir ->
  keeps (files_outside (Env := Env) (below base))
    (_process_course_files_section handle cfg course_id course_name course_dir).
Proof.
  intros Hdir. unfold _process_course_files_section.
  pose proof (keeps_take_screenshot handle (files_outside (Env := Env) (below base))).
  pose proof (fun limit url =>
                keeps_process_folder handle cfg base limit _ url
                  (within_join _ _ "Files" Hdir eq_refl)).
  keeps_auto.
Qed.

End CourseFrames.

Section RunFrames.
Context {Env : Type} (handle : Handler Env) (cfg : Config).

Lemma keeps_process_course_dir course :
  keeps (files_outside
           (below (Py.join (base_download_dir cfg) (_sanitize_filename (c_name course)))))
    (process_course handle cfg course).
Proof.
  unfold process_course. cbv zeta.
  set (course_dir := Py.join (base_download_dir cfg) (_sanitize_filename (c_name course))).
  pose proof (keeps_process_course_homepage handle cfg course_dir
                (c_id course) (c_name course) _ (within_refl course_dir)).
  pose proof (keeps_process_course_modules handle cfg course_dir
                (c_id course) (c_name course) _ (within_refl course_dir)).
  pose proof (keeps_process_course_files_section handle cfg course_dir
                (c_id course) (c_name course) _ (within_refl course_dir)).
  keeps_auto.
Qed.

Lemma keeps_process_course course :
  keeps (files_outside (below (base_download_dir cfg)))
    (process_course handle cfg course).
Proof.
  eapply keeps_weaken; [|apply keeps_process_course_dir].
  intros w w' H path Hpath. apply H. intros Hbelow. apply Hpath.
  by apply (within_join _ _ _ (within_refl (base_download_dir cfg))
              (sanitized_not_absolute (c_name course))).
Qed.

Lemma keeps_run :
  keeps (files_outside (below (base_download_dir cfg))) (run handle cfg).
Proof.
  unfold run, discover, close_browser.
  pose proof keeps_process_course.
  pose proof (keeps_get_courses handle cfg
                (files_outside (below (base_download_dir cfg)))).
  keeps_auto.
Qed.

End RunFrames.

(** X14.  [process_course] writes downloads and placeholders only
    inside the directory of its course, [base_download_dir] joined with the
    sanitized course name: every other path holds the same file, or none,
    afterwards. *)
Theorem process_course_writes_inside_course_dir {Env} (handle : Handler Env)
    (cfg : Config) (course : Course) (path : string) (w : World Env) :
  ~ below (Py.join (base_download_dir cfg) (_sanitize_filename (c_name course))) path ->
  w_fs (snd (process_course handle cfg course w)) !! path = w_fs w !! path.
Proof. intros Hpath. by apply (keeps_process_course_dir handle cfg course w). Qed.

Lemma process_course_writes_inside_course_dir_witness :
  let result :=
    process_course (site_handler one_course_site) (demo_config true) course_fine
      (start_world "https://canvas.test/"
         {[ "Canvas_Downloads/Finer/Week 1/Report.PDF.pdf" := bytes "old" ]}) in
  w_fs (snd result) !! "Canvas_Downloads/Finer/Week 1/Report.PDF.pdf"
  = Some (bytes "old").
Proof.
  refine (eq_trans
            (process_course_writes_inside_course_dir (site_handler one_course_site)
               (demo_config true) course_fine
               "Canvas_Downloads/Finer/Week 1/Report.PDF.pdf"
               (start_world "https://canvas.test/"
                  {[ "Canvas_Downloads/Finer/Week 1/Report.PDF.pdf" := bytes "old" ]})
               _) _).
  - vm_compute. discriminate.
  - vm_compute. reflexivity.
Defined.

(** X15.  Whatever the portal serves, [run] writes downloads and
    placeholders only inside [base_download_dir]: a path that does not
    start with that directory and its separator holds the same file, or
    none, after the run as before. *)
Theorem run_writes_inside_download_dir {Env} (handle : Handler Env) (cfg : Config)
    (path : string) (w : World Env) :
  ~ below (base_download_dir cfg) path ->
  w_fs (snd (run handle cfg w)) !! path = w_fs w !! path.
Proof. intros Hpath. by apply (keeps_run handle cfg w). Qed.

Lemma run_writes_inside_download_dir_witness :
  w_fs (snd (run (site_handler one_course_site) (demo_config true)
               (mkWorld "https://canvas.test/"
                  {[ "Canvas_Downloads.bak/Fine/Week 1/Report.PDF.pdf" := bytes "old" ]}
                  false [])))
    !! "Canvas_Downloads.bak/Fine/Week 1/Report.PDF.pdf"
  = Some (bytes "old").
Proof.
  refine (eq_trans
            (run_writes_inside_download_dir (site_handler one_course_site)
               (demo_config true) "Canvas_Downloads.bak/Fine/Week 1/Report.PDF.pdf"
               (mkWorld "https://canvas.test/"
                  {[ "Canvas_Downloads.bak/Fine/Week 1/Report.PDF.pdf" := bytes "old" ]}
                  false []) _) _).
  - vm_compute. discriminate.
  - vm_compute. reflexivity.
Defined.

#[export] Instance no_course_call_sequential : Sequential no_course_call.
Proof. apply Forall_sequential. Qed.

#[export] Instance no_course_call_requests : Requests no_course_call.
Proof. apply Forall_requests. by intros []. Qed.

Lemma course_calls_app t1 t2 :
  course_calls (t1 ++ t2) = course_calls t1 ++ course_calls t2.
Proof. apply omap_app. Qed.

Lemma course_calls_none t : no_course_call t -> course_calls t = [].
Proof.
  induction 1 as [|e t He _ IH]; [done|].
  destruct e as [A c r|n|[] returned body]; done.
Qed.

Section RunTraces.
Context {Env : Type} (handle : Handler Env) (cfg : Config).

Lemma emits_get_courses : emits no_course_call (get_courses handle cfg).
Proof.
  unfold get_courses, open_courses_page.
  pose proof (emits_take_screenshot handle no_course_call).
  assert (emits no_course_call (_get_courses_from_dashboard handle))
    by (apply emits_scope; intros; by repeat constructor).
  assert (emits no_course_call (_get_courses_from_all_courses_table handle cfg))
    by (apply emits_scope; intros; by repeat constructor).
  assert (emits no_course_call (_get_courses_from_list_view handle cfg))
    by (apply emits_scope; intros; by repeat constructor).
  emits_auto.
Qed.

Lemma emits_discover : emits no_course_call (discover handle cfg).
Proof. unfold discover. pose proof emits_get_courses. emits_auto. Qed.

Lemma emits_close_browser : emits no_course_call (close_browser handle).
Proof. unfold close_browser. emits_auto. Qed.

(** [run] goes on to the courses only with a non-empty list *)
Lemma discover_some (w : World Env) courses w1 :
  discover handle cfg w = (Ok (Some courses), w1) -> courses <> [].
Proof.
  intros H. unfold discover in H.
  apply bind_ok in H as ([] & wa & _ & H).
  apply bind_ok in H as (logged_in & wb & _ & H).
  apply bind_ok in H as ([] & wc & _ & H).
  destruct (negb (login_returned logged_in)); [msimpl in H; by simplify_eq|].
  apply bind_ok in H as (cs & wd & _ & H).
  destruct cs; msimpl in H; by simplify_eq.
Qed.

Lemma for_each_courses courses : forall (w w' : World Env),
  for_each courses (process_course handle cfg) w = (Ok tt, w') ->
  exists t, w_trace w' = w_trace w ++ t
            /\ course_calls t = map (fun c => (c, true)) courses.
Proof.
  induction courses as [|c courses IH]; intros w w' H; simpl in H.
  - msimpl in H. simplify_eq. exists []. by rewrite app_nil_r.
  - apply bind_ok in H as ([] & w1 & E1 & H).
    apply IH in H as (t & Et & Hcalls).
    unfold process_course, scope in E1.
    match type of E1 with context [mbind ?k ?m w] =>
      destruct (mbind k m w) as [r w0] end.
    simplify_eq. cbn [w_trace] in Et. eexists. split.
    + rewrite Et, <- List.app_assoc. reflexivity.
    + rewrite course_calls_app, Hcalls. done.
Qed.

(** a course call is one bracket, marked with how it ended *)
Lemma process_course_call course (w w' : World Env) r :
  process_course handle cfg course w = (r, w') ->
  exists body, w_trace w' = w_trace w ++ [ECall (CallCourse course) (is_ok r) body].
Proof.
  unfold process_course, scope.
  match goal with |- context [mbind ?k ?m w] =>
    destruct (mbind k m w) as [r0 w0] end.
  intros H. simplify_eq. by eexists.
Qed.

(** the [finally] clause after a body that returned *)
Lemma finally_closes (m : M Env bool) (w w1 : World Env) b :
  m w = (Ok b, w1) ->
  exists r w' closing,
    try_finally m (close_browser handle) w = (r, w')
    /\ w_trace w' = w_trace w1 ++ closing
    /\ closed_with (w_driver w1) b r closing
    /\ w_fs w' = w_fs w1.
Proof.
  intros E. unfold try_finally, closed_with. rewrite E.
  unfold close_browser. msimpl. destruct (w_driver w1).
  - msimpl. destruct (handle _ Quit (w_env w1)) as [[[]|e] s'];
      eexists _, _, _; (split_and!; [done|done| |done]); by eexists.
  - eexists _, _, []. split_and!; try done. cbn [snd]. by rewrite app_nil_r.
Qed.

End RunTraces.

(** X16.  When [run] returns [True], the courses that were discovered
    formed a non-empty list and every one of them was processed, once and
    in discovery order, and each call of [process_course] returned
    normally. *)
Theorem run_true_means_every_course_processed {Env} (handle : Handler Env)
    (cfg : Config) (w w' : World Env) :
  run handle cfg w = (Ok true, w') ->
  exists courses w1 t,
    discover handle cfg w = (Ok (Some courses), w1)
    /\ courses <> []
    /\ w_trace w' = w_trace w ++ t
    /\ course_calls t = map (fun c => (c, true)) courses.
Proof.
  intros H. unfold run, try_finally in H.
  match type of H with context [try_except ?m ?h w] =>
    destruct (try_except m h w) as [r w2] eqn:E end.
  destruct (emits_close_browser handle w2) as (t3 & T3 & H3).
  destruct (close_browser handle w2) as [[[]|e] w3]; simplify_eq. cbn [snd] in T3.
  unfold try_except in E.
  match type of E with context [mbind ?k ?m w] =>
    destruct (mbind k m w) as [[b|e] wb] eqn:Eb end;
    [|msimpl in E; by simplify_eq].
  simplify_eq.
  apply bind_ok in Eb as (discovered & w1 & E1 & Eb).
  destruct discovered as [courses|]; [|msimpl in Eb; by simplify_eq].
  apply bind_ok in Eb as ([] & w2' & E2 & Eb). msimpl in Eb. simplify_eq.
  destruct (emits_run no_course_call _ _ _ _ (emits_discover handle cfg) E1)
    as (t1 & T1 & H1).
  apply for_each_courses in E2 as (t2 & T2 & H2).
  exists courses, w1, (t1 ++ t2 ++ t3). split_and!.
  - done.
  - by eapply discover_some.
  - by rewrite T3, T2, T1, <- !List.app_assoc.
  - rewrite !course_calls_app, (course_calls_none t1), (course_calls_none t3), H2
      by done.
    by rewrite app_nil_r.
Qed.

Lemma run_true_means_every_course_processed_witness :
  let w := fresh_world "https://canvas.test/" in
  let w' := snd (run (site_handler one_course_site) (demo_config true) w) in
  exists courses w1 t,
    discover (site_handler one_course_site) (demo_config true) w
    = (Ok (Some courses), w1)
    /\ courses <> []
    /\ w_trace w' = w_trace w ++ t
    /\ course_calls t = map (fun c => (c, true)) courses.
Proof.
  intros w w'.
  apply (run_true_means_every_course_processed (site_handler one_course_site)
           (demo_config true) w w').
  vm_compute. reflexivity.
Defined.

(** X17.  [run] always closes the browser it holds, and raises nothing of
    its own: if [self.driver] is set when the work ends, the last request
    of the run is [quit], and [run] raises exactly when [quit] raises;
    without a driver it sends no [quit] at the end and returns [True] or
    [False]. *)
Theorem run_closes_the_browser {Env} (handle : Handler Env) (cfg : Config)
    (w : World Env) :
  exists r w' t,
    run handle cfg w = (r, w')
    /\ w_trace w' = w_trace w ++ t
    /\ ((w_driver w' = false /\ exists b, r = Ok b)
        \/ (w_driver w' = true
            /\ exists before answer,
                 t = before ++ [ECmd Quit answer]
                 /\ match answer with
                    | Ok _ => exists b, r = Ok b
                    | Raise e => r = Raise e
                    end)).
Proof.
  unfold run, try_finally.
  match goal with |- context [try_except ?m ?h w] =>
    assert (Hm : emits (fun _ => True) (try_except m h));
      [|assert (Hr : returns (try_except m h)) by (apply returns_try_except; intros e; apply returns_ret);
        destruct (Hm w) as (t1 & T1 & _); destruct (Hr w) as (b & w1 & E)]
  end.
  { pose proof (emits_weaken no_course_call (fun _ => True) _ (fun _ _ => I)
                  (emits_discover handle cfg)).
    assert (forall c, emits (fun _ => True) (process_course handle cfg c))
      by (intros c; by apply emits_scope).
    emits_auto. }
  rewrite E in T1 |- *. cbn [snd] in T1.
  unfold close_browser. msimpl.
  destruct (w_driver w1) eqn:Hdriver.
  - msimpl. destruct (handle _ Quit (w_env w1)) as [[[]|e] s'].
    + eexists _, _, _. split_and!; [done| |right].
      * cbn [w_trace]. rewrite T1, <- List.app_assoc. done.
      * split; [done|]. eexists _, _. split; [done|]. by eexists.
    + eexists _, _, _. split_and!; [done| |right].
      * cbn [w_trace]. rewrite T1, <- List.app_assoc. done.
      * split; [done|]. eexists _, _. split; [done|]. done.
  - eexists _, _, _. split_and!; [done|done|left]. split; [done | by eexists].
Qed.

Section NoCourses.
Context {Env : Type} (handle : Handler Env) (cfg : Config).

Lemma keeps_discover (R : World Env -> World Env -> Prop) `{!Frame R} :
  keeps R (discover handle cfg).
Proof. unfold discover. pose proof (keeps_get_courses handle cfg R). keeps_auto. Qed.

(** [run] after a discovery that gave nothing *)
Lemma run_after_empty_discovery (w w1 : World Env) r :
  discover handle cfg w = (r, w1) ->
  match r with Ok (Some _) => False | _ => True end ->
  exists r' w' t closing,
    run handle cfg w = (r', w')
    /\ (r' = Ok false \/ exists e, r' = Raise e)
    /\ w_trace w' = w_trace w ++ t
    /\ course_calls t = []
    /\ w_fs w' = w_fs w
    /\ w_trace w' = w_trace w1 ++ closing
    /\ closed_with (w_driver w1) false r' closing.
Proof.
  intros E Hr.
  pose proof (keeps_result same_files _ _ _ _ (keeps_discover same_files) E) as Hfs.
  destruct (emits_run no_course_call _ _ _ _ (emits_discover handle cfg) E)
    as (t1 & T1 & H1).
  assert (Hbody : try_except
               (discovered ← discover handle cfg;
                match discovered with
                | None => mret false
                | Some courses =>
                    for_each courses (process_course handle cfg);; mret true
                end)
               (fun _ => mret false) w = (Ok false, w1)).
  { unfold try_except. rewrite bind_run, E. by destruct r as [[courses|]|e]. }
  destruct (finally_closes handle _ _ _ _ Hbody) as (r' & w' & closing & Erun & T2 & Hclosed & Hfs2).
  exists r', w', (t1 ++ closing), closing. split_and!; [done| | | | |done|done].
  - unfold closed_with in Hclosed. destruct (w_driver w1).
    + destruct Hclosed as ([[]|e] & _ & ->); eauto.
    + destruct Hclosed as [_ ->]. by left.
  - by rewrite T2, T1, <- List.app_assoc.
  - rewrite course_calls_app, (course_calls_none t1) by done.
    unfold closed_with in Hclosed. destruct (w_driver w1).
    + by destruct Hclosed as (answer & -> & _).
    + by destruct Hclosed as [-> _].
  - by rewrite Hfs2, <- Hfs.
Qed.

End NoCourses.

(** X18.  When the login fails, no course is found, or the preparation
    raises, [run] gives up cleanly: it calls [process_course] for no
    course and opens no file for writing; then it closes the browser: with
    a browser the one further request is [quit] and [run] returns [False]
    unless [quit] raises, which [run] then raises; without a browser
    nothing more is sent and [run] returns [False]. *)
Theorem run_without_courses_does_nothing {Env} (handle : Handler Env) (cfg : Config)
    (w w1 : World Env) (r : Outcome (option (list Course))) :
  discover handle cfg w = (r, w1) ->
  match r with Ok (Some _) => False | _ => True end ->
  exists r' w' t closing,
    run handle cfg w = (r', w')
    /\ (r' = Ok false \/ exists e, r' = Raise e)
    /\ w_trace w' = w_trace w ++ t
    /\ course_calls t = []
    /\ w_fs w' = w_fs w
    /\ w_trace w' = w_trace w1 ++ closing
    /\ closed_with (w_driver w1) false r' closing.
Proof. apply run_after_empty_discovery. Qed.

Lemma run_without_courses_does_nothing_witness :
  let w := fresh_world "https://canvas.test/" in
  let w1 := snd (discover (site_handler preview_site) (demo_config true) w) in
  exists r' w' t closing,
    run (site_handler preview_site) (demo_config true) w = (r', w')
    /\ (r' = Ok false \/ exists e, r' = Raise e)
    /\ w_trace w' = w_trace w ++ t
    /\ course_calls t = []
    /\ w_fs w' = w_fs w
    /\ w_trace w' = w_trace w1 ++ closing
    /\ closed_with (w_driver w1) false r' closing.
Proof.
  intros w w1.
  apply (run_without_courses_does_nothing (site_handler preview_site)
           (demo_config true) w w1 (Ok None)).
  - vm_compute. reflexivity.
  - exact I.
Defined.

(** C4 (amended).  An exception that escapes [process_course] is caught by
    the handler around the whole of [run]: up to there the courses before
    the failing one were processed, each once, in discovery order and each
    call returned; the failing call is the last course call of the run, so
    no later course is processed; then the browser is closed, and [run]
    returns [False]: with a browser the one further request is [quit]
    (when [quit] itself raises, [run] raises that), without one nothing
    more is sent.  Closing changes no file. *)
Theorem run_stops_at_failing_course {Env} (handle : Handler Env) (cfg : Config)
    (w w1 w2 w3 : World Env) (before after : list Course) (course : Course)
    (e : Exn) :
  discover handle cfg w = (Ok (Some (before ++ course :: after)), w1) ->
  for_each before (process_course handle cfg) w1 = (Ok tt, w2) ->
  process_course handle cfg course w2 = (Raise e, w3) ->
  exists r w4 t closing,
    run handle cfg w = (r, w4)
    /\ w_trace w3 = w_trace w ++ t
    /\ course_calls t = map (fun c => (c, true)) before ++ [(course, false)]
    /\ w_trace w4 = w_trace w3 ++ closing
    /\ closed_with (w_driver w3) false r closing
    /\ w_fs w4 = w_fs w3.
Proof.
  intros Hdiscover Hbefore Hcourse.
  pose proof (for_each_raises (process_course handle cfg) before course after e
                w1 w2 w3 Hbefore Hcourse) as Hloop.
  destruct (emits_run no_course_call _ _ _ _ (emits_discover handle cfg) Hdiscover)
    as (t1 & T1 & H1).
  destruct (for_each_courses handle cfg _ _ _ Hbefore) as (t2 & T2 & H2).
  destruct (process_course_call handle cfg _ _ _ _ Hcourse) as (body & T3).
  assert (Hbody : try_except
               (discovered ← discover handle cfg;
                match discovered with
                | None => mret false
                | Some courses =>
                    for_each courses (process_course handle cfg);; mret true
                end)
               (fun _ => mret false) w = (Ok false, w3)).
  { unfold try_except. rewrite bind_run, Hdiscover, bind_run, Hloop. done. }
  destruct (finally_closes handle _ _ _ _ Hbody)
    as (r & w4 & closing & Erun & T4 & Hclosed & Hfs).
  exists r, w4, (t1 ++ t2 ++ [ECall (CallCourse course) false body]), closing.
  split_and!; [done| | |done|done|done].
  - by rewrite T3, T2, T1, <- !List.app_assoc.
  - rewrite !course_calls_app, (course_calls_none t1), H2 by done. done.
Qed.

Lemma run_stops_at_failing_course_witness :
  let handle := site_handler three_course_site in
  let cfg := demo_config true in
  let w := fresh_world "https://canvas.test/" in
  let w1 := snd (discover handle cfg w) in
  let w2 := snd (process_course handle cfg course_fine w1) in
  let w3 := snd (process_course handle cfg course_broken w2) in
  exists r w4 t closing,
    run handle cfg w = (r, w4)
    /\ w_trace w3 = w_trace w ++ t
    /\ course_calls t = [(course_fine, true); (course_broken, false)]
    /\ w_trace w4 = w_trace w3 ++ closing
    /\ closed_with (w_driver w3) false r closing
    /\ w_fs w4 = w_fs w3.
Proof.
  intros handle cfg w w1 w2 w3.
  apply (run_stops_at_failing_course handle cfg w w1 w2 w3
           [course_fine] [course_later] course_broken
           (Exception "WebDriverException")).
  - vm_compute. reflexivity.
  - vm_compute. reflexivity.
  - vm_compute. reflexivity.
Defined.

(** the run of the fixture: the third course is never started, the browser
    is closed and the result is [False] *)
Example run_three_courses_stops_at_second :
  let result := run (site_handler three_course_site) (demo_config true)
                  (fresh_world "https://canvas.test/") in
  fst result = Ok false
  /\ course_calls (w_trace (snd result))
     = [(course_fine, true); (course_broken, false)]
  /\ last (w_trace (snd result)) = Some (ECmd Quit (Ok tt)).
Proof. vm_compute. by split_and!. Qed.

(** C4, as stated, fails: both courses are discovered, the homepage of the
    first cannot be loaded, and [run] returns [False] without starting the
    second. *)
Lemma run_skips_courses_after_failure :
  let w := fresh_world "https://canvas.test/" in
  let discovered := discover (site_handler two_course_site) (demo_config true) w in
  let result := run (site_handler two_course_site) (demo_config true) w in
  fst discovered = Ok (Some [course_broken; course_fine])
  /\ fst result = Ok false
  /\ courses_started (w_trace (snd result)) = [course_broken].
Proof. vm_compute. repeat split. Qed.

(** ** Directories are created before they are used *)

Lemma made_step_mono dirs dirs' e :
  (forall d, In d dirs -> In d dirs') ->
  forall d, In d (made_step dirs e) -> In d (made_step dirs' e).
Proof.
  intros Hsub d. destruct e as [A c [a|err]|n|f returned body]; simpl; auto.
  destruct c; simpl; auto. intros [->|Hd]; [by left | right; auto].
Qed.

Lemma target_made_mono dirs dirs' f :
  (forall d, In d dirs -> In d dirs') -> target_made dirs f -> target_made dirs' f.
Proof.
  intros Hsub. destruct f; simpl; auto.
  intros (dir & name & Hdir & Hname & ->). exists dir, name. auto.
Qed.

Lemma prepared_mono dirs t :
  prepared dirs t ->
  forall dirs', (forall d, In d dirs -> In d dirs') -> prepared dirs' t.
Proof.
  induction 1 as [dirs|dirs A c answer t _ IH|dirs n t _ IH
                 |dirs f returned body t Hf _ IHbody _ IH]; intros dirs' Hsub.
  - constructor.
  - constructor. apply IH. by apply made_step_mono.
  - constructor. by apply IH.
  - constructor; [by eapply target_made_mono | by apply IHbody | by apply IH].
Qed.

Lemma made_step_grows dirs e d : In d dirs -> In d (made_step dirs e).
Proof.
  destruct e as [A c [a|err]|n|f returned body]; simpl; auto.
  destruct c; simpl; auto.
Qed.

Lemma prepared_app dirs t1 :
  prepared dirs t1 -> forall t2, prepared dirs t2 -> prepared dirs (t1 ++ t2).
Proof.
  induction 1 as [dirs|dirs A c answer t _ IH|dirs n t _ IH
                 |dirs f returned body t Hf Hbody _ _ IH]; intros t2 H2; simpl.
  - done.
  - constructor. apply IH. eapply prepared_mono; [apply H2|].
    intros d. apply made_step_grows.
  - constructor. by apply IH.
  - constructor; [done | done | by apply IH].
Qed.

#[export] Instance prepared_sequential dirs : Sequential (prepared dirs).
Proof. split; [constructor | intros t1 t2 H1 H2; by apply prepared_app]. Qed.

#[export] Instance prepared_requests dirs : Requests (prepared dirs).
Proof. intros [A c r|n|f returned body] He; [| |done]; repeat constructor. Qed.

Lemma sanitized_component (filename : string) : component (_sanitize_filename filename).
Proof. apply sanitized_no_separator. Qed.

Lemma safe_name_component (file_name : string) :
  component (safe_name_with_default_extension file_name).
Proof.
  unfold safe_name_with_default_extension, component. cbv zeta.
  destruct (negb _); [|apply sanitized_no_separator].
  rewrite chars_app, in_app_iff. intros [H|H].
  - by apply (sanitized_no_separator file_name).
  - vm_compute in H. intuition discriminate.
Qed.

Section Prepared.
Context {Env : Type} (handle : Handler Env) (cfg : Config).

(** what follows an [os.makedirs] that returned may use its directory *)
Lemma emits_after_makedirs {A} dirs d (k : unit -> M Env A) :
  (forall u, emits (prepared (d :: dirs)) (k u)) ->
  emits (prepared dirs) (call handle (Makedirs d) ≫= k).
Proof.
  intros Hk w. unfold mbind, M_bind, call.
  destruct (handle _ (Makedirs d) (w_env w)) as [[[]|e] s'].
  - match goal with |- context [k tt ?w0] =>
      destruct (Hk tt w0) as (t & Et & Ht) end.
    exists (ECmd (Makedirs d) (Ok tt) :: t). split.
    + rewrite Et. cbn [w_trace]. by rewrite <- List.app_assoc.
    + by constructor.
  - eexists. split; [done|]. repeat constructor.
Qed.

(** a bracketed call whose directory is there *)
Lemma emits_scope_prepared {A} dirs f (m : M Env A) :
  target_made dirs f -> emits (prepared dirs) m -> emits (prepared dirs) (scope f m).
Proof.
  intros Hf Hm w. unfold scope. destruct (Hm w) as (t & Et & Ht).
  destruct (m w) as [r w1]. cbn [snd] in Et. eexists. split; [done|].
  rewrite Et, drop_app_length. constructor; [done | done | constructor].
Qed.

Lemma emits_download_prepared dirs url dir name :
  In dir dirs -> component name ->
  emits (prepared dirs) (_download_file handle cfg url (Py.join dir name)).
Proof.
  intros Hdir Hname. unfold _download_file.
  apply emits_scope_prepared; [by exists dir, name|].
  pose proof (emits_download_attempt handle cfg (prepared dirs)).
  pose proof (emits_download_failed handle (prepared dirs)).
  emits_auto.
Qed.

Lemma emits_download_named_prepared dirs url dir name found :
  In dir dirs ->
  emits (prepared dirs) (download_named handle cfg url dir name found).
Proof.
  intros Hdir. unfold download_named.
  pose proof (emits_download_prepared dirs url dir _ Hdir (safe_name_component name)).
  emits_auto.
Qed.

End Prepared.

(** one step of a proof that a computation finds its directories created *)
Ltac prepared_auto :=
  repeat (first [ solve [eauto using in_eq, in_cons with emits typeclass_instances]
                | apply emits_after_makedirs; intros ?
                | emits_step ]).

Section PreparedScans.
Context {Env : Type} (handle : Handler Env) (cfg : Config).

Lemma emits_process_folder_prepared limit : forall dirs dir url,
  In dir dirs ->
  emits (prepared dirs) (_process_folder handle cfg limit dir url).
Proof.
  induction limit as [|limit IH]; intros dirs dir url Hdir.
  - apply emits_raise. apply _.
  - rewrite process_folder_unfold. apply emits_scope_prepared; [done|].
    unfold descend_subfolders, open_listing, download_files, download_item.
    pose proof (fun dirs => emits_take_screenshot handle (prepared dirs)).
    pose proof (fun dirs url name H =>
                  emits_download_prepared handle cfg dirs url dir
                    (_sanitize_filename name) H (sanitized_component name)).
    assert (forall item st, emits (prepared dirs)
              (descend_item handle cfg (_process_folder handle cfg limit) dir url item st)).
    { intros item [items folder_name]. unfold descend_item, folder_row, subfolder_error.
      prepared_auto. }
    prepared_auto.
Qed.

Lemma emits_process_direct_links_prepared dirs course_dir subfolder_name :
  emits (prepared dirs) (_process_direct_links handle cfg course_dir subfolder_name).
Proof.
  unfold _process_direct_links.
  pose proof (fun dirs => emits_find_downloadable_links handle (prepared dirs)).
  pose proof (fun dirs => emits_name_from_url (Env := Env) cfg (prepared dirs)).
  pose proof (emits_download_named_prepared handle cfg).
  prepared_auto.
Qed.

Lemma emits_download_from_page_prepared dirs link_dir link_text found :
  In link_dir dirs ->
  emits (prepared dirs) (download_from_page handle cfg link_dir link_text found).
Proof.
  intros Hdir. unfold download_from_page, or_else.
  pose proof (fun dirs => emits_find_enhanced_download_links handle (prepared dirs)).
  pose proof (fun dirs => emits_name_from_url (Env := Env) cfg (prepared dirs)).
  pose proof (emits_download_named_prepared handle cfg).
  prepared_auto.
Qed.

Lemma emits_process_clickable_links_prepared dirs course_dir subfolder_name return_url :
  emits (prepared dirs)
    (_process_clickable_links handle cfg course_dir subfolder_name return_url).
Proof.
  unfold _process_clickable_links.
  pose proof (fun dirs => emits_content_links_of handle cfg (prepared dirs)).
  pose proof (fun dirs => emits_take_screenshot handle (prepared dirs)).
  pose proof emits_download_from_page_prepared.
  prepared_auto.
Qed.

Lemma emits_process_course_modules_prepared dirs course_id course_name course_dir :
  emits (prepared dirs)
    (_process_course_modules handle cfg course_id course_name course_dir).
Proof.
  unfold _process_course_modules, module_entry, module_item, module_link.
  pose proof (fun dirs => emits_take_screenshot handle (prepared dirs)).
  pose proof (fun dirs => emits_name_from_url (Env := Env) cfg (prepared dirs)).
  pose proof (emits_download_named_prepared handle cfg).
  prepared_auto.
Qed.

Lemma emits_process_course_prepared dirs course :
  emits (prepared dirs) (process_course handle cfg course).
Proof.
  unfold process_course.
  apply emits_scope_prepared; [done|].
  unfold _process_course_homepage, _process_course_files_section.
  pose proof (fun dirs => emits_take_screenshot handle (prepared dirs)).
  pose proof emits_process_direct_links_prepared.
  pose proof emits_process_clickable_links_prepared.
  pose proof emits_process_course_modules_prepared.
  pose proof (fun limit => emits_process_folder_prepared limit).
  prepared_auto.
Qed.

Lemma emits_run_prepared dirs : emits (prepared dirs) (run handle cfg).
Proof.
  unfold run, discover, close_browser, get_courses, open_courses_page.
  pose proof (fun dirs => emits_take_screenshot handle (prepared dirs)).
  pose proof emits_process_course_prepared.
  assert (forall dirs, emits (prepared dirs) (_get_courses_from_dashboard handle)).
  { intros dirs'. unfold _get_courses_from_dashboard.
    apply emits_scope_prepared; [done|].
    unfold dashboard_card, extract_course_id, course_path_parts, index1. emits_auto. }
  assert (forall dirs,
             emits (prepared dirs) (_get_courses_from_all_courses_table handle cfg)).
  { intros dirs'. unfold _get_courses_from_all_courses_table.
    apply emits_scope_prepared; [done|].
    unfold table_row, extract_course_id, course_path_parts, index1. emits_auto. }
  assert (forall dirs, emits (prepared dirs) (_get_courses_from_list_view handle cfg)).
  { intros dirs'. unfold _get_courses_from_list_view.
    apply emits_scope_prepared; [done|].
    unfold list_link, course_path_parts, index1. emits_auto. }
  prepared_auto.
Qed.

End PreparedScans.

(** X19.  [run] creates directories before it uses them: every download,
    at any depth of the run, goes to a single path component joined to a
    directory for which [os.makedirs] returned earlier in the run, at the
    same level or an enclosing one, and every folder visit is for such a
    directory. *)
Theorem run_creates_directories_first {Env} (handle : Handler Env) (cfg : Config)
    (w : World Env) :
  exists t,
    w_trace (snd (run handle cfg w)) = w_trace w ++ t /\ prepared [] t.
Proof. apply emits_run_prepared. Qed.

(** ** The links followed from a course homepage *)

Lemma navigations_app t1 t2 : navigations (t1 ++ t2) = navigations t1 ++ navigations t2.
Proof. apply omap_app. Qed.

#[export] Instance stays_sequential : Sequential stays.
Proof.
  split; [done|]. unfold stays. intros t1 t2 H1 H2.
  by rewrite navigations_app, H1, H2.
Qed.

Section Links.
Context {Env : Type} (handle : Handler Env) (cfg : Config).

Lemma emits_call_stays {A} (c : Cmd A) :
  (forall answer, stays [ECmd c answer]) -> emits stays (call handle c).
Proof.
  intros Hc w. unfold call. destruct (handle A c (w_env w)) as [r s'].
  exists [ECmd c r]. by split.
Qed.

Lemma emits_sleep_stays n : emits stays (sleep n : M Env unit).
Proof. intros w. by exists [ESleep n]. Qed.

Lemma emits_download_stays url path :
  emits stays (_download_file handle cfg url path).
Proof. by apply emits_scope. Qed.

(** a navigation followed by steps without one *)
Lemma emits_navigation_then {A} url (k : unit -> M Env A) :
  (forall u, emits stays (k u)) ->
  emits (fun t => navigations t = [url]) (call handle (DriverGet url) ≫= k).
Proof.
  intros Hk w. unfold mbind, M_bind, call.
  destruct (handle _ (DriverGet url) (w_env w)) as [[[]|e] s'].
  - match goal with |- context [k tt ?w0] =>
      destruct (Hk tt w0) as (t & Et & Ht) end.
    exists (ECmd (DriverGet url) (Ok tt) :: t). split.
    + rewrite Et. cbn [w_trace]. by rewrite <- List.app_assoc.
    + simpl. by rewrite Ht.
  - by eexists.
Qed.

Lemma emits_try_except_swallow {A} (T : list Event -> Prop) (m : M Env A) (a : A) :
  emits T m -> emits T (try_except m (swallow a)).
Proof.
  intros Hm w. unfold try_except, swallow. destruct (Hm w) as (t & Et & Ht).
  destruct (m w) as [[b|e] w1]; by exists t.
Qed.

Lemma returns_try_except_swallow {A} (m : M Env A) (a : A) :
  returns (try_except m (swallow a)).
Proof. apply returns_try_except. intros e. apply returns_ret. Qed.

Lemma emits_bind_navigations {A B} l1 l2 (m : M Env A) (k : A -> M Env B) :
  returns m ->
  emits (fun t => navigations t = l1) m ->
  (forall a, emits (fun t => navigations t = l2) (k a)) ->
  emits (fun t => navigations t = l1 ++ l2) (m ≫= k).
Proof.
  intros Hr Hm Hk w. unfold mbind, M_bind.
  destruct (Hm w) as (t1 & E1 & H1). destruct (Hr w) as (a & w1 & E).
  rewrite E in E1 |- *. cbn [snd] in E1.
  destruct (Hk a w1) as (t2 & E2 & H2). exists (t1 ++ t2).
  by rewrite E2, E1, <- List.app_assoc, navigations_app, H1, H2.
Qed.

Lemma for_fold_navigations {A St} (f : A -> list (option string))
    (body : A -> St -> M Env St) xs :
  (forall x st, emits (fun t => navigations t = f x) (body x st)) ->
  forall st,
    emits (fun t => exists n, navigations t = flat_map f (take n xs))
      (for_fold xs body st).
Proof.
  intros Hbody. induction xs as [|x xs IH]; intros st w; simpl.
  - exists []. split; [by rewrite app_nil_r | by exists 0].
  - unfold mbind, M_bind. destruct (Hbody x st w) as (t1 & E1 & H1).
    destruct (body x st w) as [[st1|e] w1]; cbn [snd] in E1.
    + destruct (IH st1 w1) as (t2 & E2 & n & H2). exists (t1 ++ t2). split.
      * by rewrite E2, E1, <- List.app_assoc.
      * exists (S n). by rewrite navigations_app, H1, H2.
    + exists t1. split; [done|]. exists 1. simpl. by rewrite ?take_0, ?app_nil_r.
Qed.

End Links.

(** one step of a proof that a computation does not navigate *)
Ltac stays_auto :=
  repeat (first [ solve [eauto with emits typeclass_instances]
                | apply emits_call_stays; intros ?; reflexivity
                | apply emits_sleep_stays
                | emits_step ]).

Section FollowedLinks.
Context {Env : Type} (handle : Handler Env) (cfg : Config).

Lemma emits_take_screenshot_stays name : emits stays (_take_screenshot handle name).
Proof. unfold _take_screenshot. stays_auto. Qed.

Lemma emits_find_enhanced_stays : emits stays (_find_enhanced_download_links handle).
Proof.
  unfold _find_enhanced_download_links, _find_downloadable_links, add_new_links, hrefs_of.
  stays_auto.
Qed.

Lemma emits_download_from_page_stays link_dir link_text found :
  emits stays (download_from_page handle cfg link_dir link_text found).
Proof.
  unfold download_from_page, or_else, download_named, name_from_url.
  pose proof emits_find_enhanced_stays. pose proof (emits_download_stays handle cfg).
  stays_auto.
Qed.

Lemma emits_content_links_stays all_links :
  emits stays (content_links_of handle cfg all_links).
Proof. unfold content_links_of. stays_auto. Qed.

(** the filter keeps links of the portal only *)
Lemma content_links_on_portal all_links (w : World Env) content_links w' :
  content_links_of handle cfg all_links w = (Ok content_links, w') ->
  Forall (on_portal cfg) (map fst content_links).
Proof.
  unfold content_links_of.
  apply (for_fold_invariant (fun links => Forall (on_portal cfg) (map fst links)));
    [|constructor].
  intros link st wa st' wb Hst H. unfold try_except in H.
  match type of H with context [mbind ?k ?m wa] =>
    destruct (mbind k m wa) as [[links|e] w1] eqn:E end;
    [|msimpl in H; by simplify_eq].
  simplify_eq.
  apply bind_ok in E as (href & w2 & _ & E).
  apply bind_ok in E as (text & w3 & _ & E).
  destruct href as [url|]; [|msimpl in E; by simplify_eq].
  destruct (String.eqb url EmptyString || String.eqb (Py.strip_ws text) EmptyString);
    [msimpl in E; by simplify_eq|].
  destruct (existsb _ homepage_navigation); [msimpl in E; by simplify_eq|].
  destruct (Py.contains (canvas_url cfg) url) eqn:Hurl; msimpl in E; simplify_eq;
    [|done].
  rewrite map_app. apply Forall_app. split; [done|]. by repeat constructor.
Qed.

(** following one link: to the link, then back *)
Lemma emits_follow_link subfolder_dir return_url link_url link_text (found : bool) :
  emits (fun t => navigations t = [Some link_url; Some return_url])
    (files_downloaded ← try_except
       (call handle (DriverGet (Some link_url));;
        sleep (delay cfg * 2);;
        let safe_name := _sanitize_filename link_text in
        _take_screenshot handle ("link_" +:+ safe_name);;
        let link_dir := Py.join subfolder_dir safe_name in
        call handle (Makedirs link_dir);;
        download_from_page handle cfg link_dir link_text found)
       (swallow found);
     call handle (DriverGet (Some return_url));;
     sleep (delay cfg);;
     mret files_downloaded).
Proof.
  apply (emits_bind_navigations [Some link_url] [Some return_url]).
  - apply returns_try_except_swallow.
  - apply emits_try_except_swallow, emits_navigation_then. intros _.
    pose proof emits_take_screenshot_stays. pose proof emits_download_from_page_stays.
    stays_auto.
  - intros files_downloaded. apply emits_navigation_then. intros _. stays_auto.
Qed.

(** the navigations of [_process_clickable_links] *)
Lemma clickable_links_navigations course_dir subfolder_name return_url (w : World Env) :
  exists t followed,
    w_trace (snd (_process_clickable_links handle cfg course_dir subfolder_name
                    return_url w))
    = w_trace w ++ t
    /\ Forall (on_portal cfg) followed
    /\ navigations t = flat_map (fun url => [Some url; Some return_url]) followed.
Proof.
  unfold _process_clickable_links. unfold mbind at 1, M_bind at 1.
  destruct (emits_call_stays handle (FindElements (ByTagName "a"))
              (fun _ => eq_refl) w) as (t0 & E0 & H0).
  destruct (call handle (FindElements (ByTagName "a")) w) as [[all_links|e] w0];
    cbn [snd] in E0; [|exists t0, []; by split_and!].
  unfold mbind at 1, M_bind at 1.
  destruct (emits_content_links_stays all_links w0) as (t1 & E1 & H1).
  destruct (content_links_of handle cfg all_links w0) as [[content_links|e] w1] eqn:E;
    cbn [snd] in E1.
  2:{ exists (t0 ++ t1), []. split_and!; [cbn [snd]; by rewrite E1, E0, <- List.app_assoc|done|].
      by rewrite navigations_app, H0, H1. }
  apply content_links_on_portal in E.
  destruct content_links as [|link content_links].
  { exists (t0 ++ t1), []. split_and!; [msimpl; by rewrite E1, E0, <- List.app_assoc|done|].
    by rewrite navigations_app, H0, H1. }
  set (links := link :: content_links) in *. cbv zeta.
  unfold mbind at 1, M_bind at 1.
  destruct (emits_call_stays handle
              (Makedirs (Py.join course_dir subfolder_name)) (fun _ => eq_refl) w1)
    as (t2 & E2 & H2).
  destruct (call handle (Makedirs (Py.join course_dir subfolder_name)) w1)
    as [[[]|e] w2]; cbn [snd] in E2.
  2:{ exists (t0 ++ t1 ++ t2), []. split_and!; [|done|].
      - cbn [snd]. by rewrite E2, E1, E0, <- !List.app_assoc.
      - by rewrite !navigations_app, H0, H1, H2. }
  match goal with |- context [for_fold links ?body ?st w2] =>
    destruct (for_fold_navigations
                (fun link : string * string => [Some (fst link); Some return_url])
                body links
                (fun link found =>
                   ltac:(destruct link as [link_url link_text];
                         apply emits_follow_link)) st w2)
      as (t3 & E3 & n & H3)
  end.
  exists (t0 ++ t1 ++ t2 ++ t3), (take n (map fst links)). split_and!.
  - by rewrite E3, E2, E1, E0, <- !List.app_assoc.
  - by apply Forall_take.
  - rewrite !navigations_app, H0, H1, H2, H3. cbn [app].
    change (map fst links) with (fst <$> links). rewrite <- fmap_take.
    generalize (take n links). clear. intros l.
    induction l as [|[url text] l IH]; [done|].
    simpl. by rewrite IH.
Qed.

#[export] Instance there_and_back_sequential cfg' return_url :
  Sequential (fun t => there_and_back cfg' return_url (navigations t)).
Proof.
  split.
  - by exists [].
  - intros t1 t2 (l1 & H1 & E1) (l2 & H2 & E2). exists (l1 ++ l2). split.
    + by apply Forall_app.
    + by rewrite navigations_app, E1, E2, flat_map_app.
Qed.

Lemma stays_there_and_back cfg' return_url t :
  stays t -> there_and_back cfg' return_url (navigations t).
Proof. intros Ht. exists []. by rewrite Ht. Qed.

Lemma emits_direct_links_stays course_dir subfolder_name :
  emits stays (_process_direct_links handle cfg course_dir subfolder_name).
Proof.
  unfold _process_direct_links, _find_downloadable_links, download_named, name_from_url.
  pose proof (emits_download_stays handle cfg).
  stays_auto.
Qed.

Lemma emits_process_folder_stays limit current_dir folder_url :
  emits stays (_process_folder handle cfg limit current_dir folder_url).
Proof.
  destruct limit; [apply emits_raise; apply _ | by apply emits_scope].
Qed.

(** the scans of a course, each after the navigation to its page *)
Lemma emits_homepage_navigations course_id course_name course_dir :
  emits (fun t => exists l,
           navigations t = Some (canvas_url cfg +:+ "/courses/" +:+ course_id) :: l
           /\ there_and_back cfg (canvas_url cfg +:+ "/courses/" +:+ course_id) l)
    (_process_course_homepage handle cfg course_id course_name course_dir).
Proof.
  unfold _process_course_homepage. cbv zeta.
  set (home := canvas_url cfg +:+ "/courses/" +:+ course_id).
  intros w. unfold mbind at 1, M_bind at 1, call at 1.
  destruct (handle _ (DriverGet (Some home)) (w_env w)) as [[[]|e] s'].
  2:{ eexists. split; [done|]. exists []. split; [done | by exists []]. }
  match goal with |- context [mbind ?k ?m ?w0] =>
    assert (Hrest : emits (fun t => there_and_back cfg home (navigations t)) (mbind k m));
      [|destruct (Hrest w0) as (t & Et & Ht)]
  end.
  { pose proof (fun A (m : M Env A) =>
                  emits_weaken stays _ m (stays_there_and_back cfg home)) as Hw.
    apply emits_bind; [apply _ | apply Hw, emits_sleep_stays | intros _].
    apply emits_bind; [apply _ | apply Hw, emits_take_screenshot_stays | intros _].
    apply emits_bind; [apply _ | apply Hw, emits_direct_links_stays | intros direct].
    apply emits_bind; [apply _ | | intros indirect; apply emits_ret; apply _].
    intros w1.
    destruct (clickable_links_navigations course_dir "Homepage" home w1)
      as (t1 & followed & E1 & Hall & Hnav).
    exists t1. split; [done | by exists followed]. }
  exists (ECmd (DriverGet (Some home)) (Ok tt) :: t). split.
  - rewrite Et. cbn [w_trace]. by rewrite <- List.app_assoc.
  - exists (navigations t). by split.
Qed.

Lemma emits_modules_navigations course_id course_name course_dir :
  emits (fun t => navigations t
                  = [Some (canvas_url cfg +:+ "/courses/" +:+ course_id +:+ "/modules")])
    (_process_course_modules handle cfg course_id course_name course_dir).
Proof.
  unfold _process_course_modules. cbv zeta. apply emits_navigation_then. intros _.
  unfold module_entry, module_item, module_link, download_named, name_from_url.
  pose proof emits_take_screenshot_stays. pose proof (emits_download_stays handle cfg).
  stays_auto.
Qed.

Lemma emits_files_section_navigations course_id course_name course_dir :
  emits (fun t => navigations t
                  = [Some (canvas_url cfg +:+ "/courses/" +:+ course_id +:+ "/files")])
    (_process_course_files_section handle cfg course_id course_name course_dir).
Proof.
  unfold _process_course_files_section. cbv zeta. apply emits_navigation_then. intros _.
  pose proof emits_take_screenshot_stays. pose proof emits_process_folder_stays.
  stays_auto.
Qed.

End FollowedLinks.

(** X20.  [_process_clickable_links] follows links of the portal only and
    comes back after each one: the navigations it requests itself, outside
    the download calls, are, for each link it follows, one to the link's
    URL, which contains [canvas_url], and then one to [return_url],
    whether or not the link's page could be loaded or searched. *)
Theorem clickable_links_stay_on_portal {Env} (handle : Handler Env) (cfg : Config)
    (course_dir subfolder_name return_url : string) (w : World Env) :
  exists t followed,
    w_trace (snd (_process_clickable_links handle cfg course_dir subfolder_name
                    return_url w))
    = w_trace w ++ t
    /\ Forall (on_portal cfg) followed
    /\ navigations t = flat_map (fun url => [Some url; Some return_url]) followed.
Proof. apply clickable_links_navigations. Qed.

(** X21.  When [process_course] returns, it has requested the pages of the
    course in this order, each once: the homepage, then for every link
    followed from the homepage, all of the portal, the link and the
    homepage again, then the modules page, then the Files page.  What the
    download calls and the folder visits request is inside their own
    brackets and not counted. *)
Theorem process_course_page_order {Env} (handle : Handler Env) (cfg : Config)
    (course : Course) (w w' : World Env) :
  process_course handle cfg course w = (Ok tt, w') ->
  exists body followed,
    w_trace w' = w_trace w ++ [ECall (CallCourse course) true body]
    /\ Forall (on_portal cfg) followed
    /\ navigations body
       = Some (homepage_url cfg course)
         :: flat_map (fun url => [Some url; Some (homepage_url cfg course)]) followed
         ++ [Some (modules_url cfg course); Some (files_url cfg course)].
Proof.
  unfold process_course, scope. intros H.
  match type of H with context [mbind ?k ?m w] =>
    destruct (mbind k m w) as [r w1] eqn:E end.
  simplify_eq. cbv zeta in E.
  apply bind_ok in E as ([] & wa & Ea & E).
  apply (emits_run stays) in Ea as (ta & Ta & Ha);
    [|by apply emits_call_stays].
  apply bind_ok in E as (found1 & wb & Eb & E).
  apply (emits_run _ _ _ _ _ (emits_homepage_navigations handle cfg _ _ _)) in Eb
    as (tb & Tb & l & Hb & followed & Hall & ->).
  apply bind_ok in E as (found2 & wc & Ec & E).
  apply (emits_run _ _ _ _ _ (emits_modules_navigations handle cfg _ _ _)) in Ec
    as (tc & Tc & Hc).
  apply bind_ok in E as (found3 & wd & Ed & E).
  apply (emits_run _ _ _ _ _ (emits_files_section_navigations handle cfg _ _ _)) in Ed
    as (td & Td & Hd).
  unfold mret, M_ret in E. simplify_eq.
  exists (ta ++ tb ++ tc ++ td), followed. split_and!; [|done|].
  - cbn [w_trace is_ok]. by rewrite Td, Tc, Tb, Ta, <- !List.app_assoc, drop_app_length.
  - rewrite !navigations_app, Ha, Hb, Hc, Hd. cbn [app].
    unfold homepage_url, modules_url, files_url. done.
Qed.

Lemma process_course_page_order_witness :
  let w := start_world "https://canvas.test/" ∅ in
  let w' := snd (process_course (site_handler one_course_site) (demo_config true)
                   course_fine w) in
  exists body followed,
    w_trace w' = w_trace w ++ [ECall (CallCourse course_fine) true body]
    /\ Forall (on_portal (demo_config true)) followed
    /\ navigations body
       = Some (homepage_url (demo_config true) course_fine)
         :: flat_map (fun url => [Some url;
                                  Some (homepage_url (demo_config true) course_fine)])
              followed
         ++ [Some (modules_url (demo_config true) course_fine);
             Some (files_url (demo_config true) course_fine)].
Proof.
  intros w w'.
  apply (process_course_page_order (site_handler one_course_site) (demo_config true)
           course_fine w w').
  vm_compute. reflexivity.
Defined.

(** ** The rows of the second loop *)

#[export] Instance unlisted_sequential : Sequential unlisted.
Proof.
  split; [done|]. unfold unlisted. intros t1 t2 H1 H2.
  by rewrite listings_app, H1, H2.
Qed.

Section LastListing.
Context {Env : Type} (handle : Handler Env) (cfg : Config).

Lemma emits_call_unlisted {A} (c : Cmd A) :
  (forall answer, unlisted [ECmd c answer]) -> emits unlisted (call handle c).
Proof.
  intros Hc w. unfold call. destruct (handle A c (w_env w)) as [r s'].
  exists [ECmd c r]. by split.
Qed.

Lemma emits_sleep_unlisted n : emits unlisted (sleep n : M Env unit).
Proof. intros w. by exists [ESleep n]. Qed.

Lemma emits_recur_unlisted (recur : string -> string -> M Env unit) dir url :
  visits_one_folder recur -> emits unlisted (recur dir url).
Proof.
  intros Hrecur w. destruct (Hrecur dir url w) as [[e He] | [body Hbody]].
  - rewrite He. exists []. split; [by rewrite app_nil_r | done].
  - by eexists.
Qed.

Lemma reads_bind {A B} (get : B -> list (list Elem)) (m : M Env A) (k : A -> M Env B) :
  emits unlisted m -> (forall a, reads get (k a)) -> reads get (m ≫= k).
Proof.
  intros Hm Hk w. unfold mbind, M_bind.
  destruct (Hm w) as (t1 & E1 & H1). destruct (m w) as [[a|e] w1]; cbn [snd] in E1.
  - destruct (Hk a w1) as (t2 & E2 & H2). exists (t1 ++ t2).
    by rewrite E2, E1, <- List.app_assoc, listings_app, H1, H2.
  - by exists t1.
Qed.

Lemma reads_rows {B} (get : B -> list (list Elem)) (f : list Elem -> B) :
  (forall rows, get (f rows) = [rows]) ->
  reads get (rows ← call handle (FindElements (ByClassName "ef-item-row"));
             mret (f rows)).
Proof.
  intros Hget w. unfold mbind, M_bind, call, mret, M_ret.
  destruct (handle _ (FindElements (ByClassName "ef-item-row")) (w_env w))
    as [[rows|e] s']; eexists; (split; [done|]); [|done].
  simpl. by rewrite Hget.
Qed.

Lemma reads_ret {A} (get : A -> list (list Elem)) (a : A) :
  get a = [] -> reads get (mret a : M Env A).
Proof.
  intros Hget w. exists []. unfold mret, M_ret. cbn [fst snd].
  split; [by rewrite app_nil_r | by rewrite Hget].
Qed.

End LastListing.

(** one step of a proof that a computation reads no listing *)
Ltac unlisted_auto :=
  repeat (first [ solve [eauto with emits typeclass_instances]
                | apply emits_call_unlisted; intros [?|?]; reflexivity
                | apply emits_sleep_unlisted
                | emits_step ]).

Section FolderRows.
Context {Env : Type} (handle : Handler Env) (cfg : Config).

Lemma emits_take_screenshot_unlisted name :
  emits unlisted (_take_screenshot handle name).
Proof. unfold _take_screenshot. unlisted_auto. Qed.

(** opening the listing reads it once, as its last request *)
Lemma reads_open_listing current_dir folder_url :
  reads (fun listing => match listing with Some rows => [rows] | None => [] end)
    (open_listing handle cfg current_dir folder_url).
Proof.
  unfold open_listing. cbv zeta. pose proof emits_take_screenshot_unlisted.
  do 4 (apply reads_bind; [unlisted_auto | intros ?]).
  match goal with |- reads _ (if ?b then _ else _) => destruct b end.
  - apply reads_bind; [unlisted_auto | intros ?]. by apply reads_rows.
  - by apply reads_ret.
Qed.

(** a descent that returns has read the listing again, as its last request *)
Lemma reads_descent (recur : string -> string -> M Env unit) dir folder_url
    folder_name_element (folder_name : string) :
  visits_one_folder recur ->
  reads (fun st : list Elem * string => [fst st])
    (call handle (Makedirs dir);;
     call handle (Click folder_name_element);;
     sleep (delay cfg);;
     subfolder_url ← call handle CurrentUrl;
     recur dir subfolder_url;;
     call handle (DriverGet (Some folder_url));;
     sleep (delay cfg);;
     call handle (WaitPresence 15 (ByClassName "ef-directory"));;
     sleep (delay cfg);;
     items ← call handle (FindElements (ByClassName "ef-item-row"));
     mret (items, folder_name)).
Proof.
  intros Hrecur.
  pose proof (fun dir url => emits_recur_unlisted recur dir url Hrecur).
  do 9 (apply reads_bind; [unlisted_auto | intros ?]).
  by apply reads_rows.
Qed.

(** one row of the first loop: the rows kept for later are those read
    last, or the ones before when none was read *)
Lemma descend_item_listing recur current_dir folder_url item items folder_name
    (w : World Env) :
  visits_one_folder recur ->
  exists st' w' seg,
    descend_item handle cfg recur current_dir folder_url item (items, folder_name) w
    = (Ok st', w')
    /\ w_trace w' = w_trace w ++ seg
    /\ fst st' = default items (last (listings seg)).
Proof.
  intros Hrecur. unfold descend_item, subfolder_error.
  unfold mbind at 1, M_bind at 1, attempt.
  assert (Hrow : emits unlisted (folder_row handle item))
    by (unfold folder_row; unlisted_auto).
  destruct (Hrow w) as (t1 & E1 & H1).
  destruct (folder_row handle item w) as [r w1]. cbn [snd] in E1. cbn beta iota.
  assert (Hquiet : forall name (w0 : World Env),
             exists w2 t, (_take_screenshot handle name;; mret (items, folder_name)) w0
                          = (Ok (items, folder_name), w2)
                          /\ w_trace w2 = w_trace w0 ++ t /\ unlisted t).
  { intros name w0. unfold mbind, M_bind.
    destruct (take_screenshot_returns handle name w0) as (w2 & E2 & _).
    destruct (emits_take_screenshot_unlisted name w0) as (t & Et & Ht).
    rewrite E2 in Et |- *. by exists w2, t. }
  destruct r as [[[folder_name_element folder_name']|]|e].
  - destruct (reads_descent recur (Py.join current_dir (_sanitize_filename folder_name'))
                folder_url folder_name_element folder_name' Hrecur w1)
      as (t2 & E2 & H2).
    unfold try_except. cbv zeta.
    match goal with |- context [match ?body w1 with _ => _ end] =>
      change (w_trace (snd (body w1)) = w_trace w1 ++ t2) in E2;
      change (listings t2 = match fst (body w1) with
                            | Ok a => [fst a] | Raise _ => [] end) in H2;
      destruct (body w1) as [[st'|e] w2]
    end; cbn [fst snd] in E2, H2.
    + eexists _, _, (t1 ++ t2). split_and!; [done| |].
      * by rewrite E2, E1, <- List.app_assoc.
      * unfold unlisted in H1. by rewrite listings_app, H1, H2.
    + unfold mbind, M_bind.
      destruct (take_screenshot_returns handle
                  ("subfolder_error_" +:+ _sanitize_filename folder_name') w2)
        as (w3 & E3 & _).
      destruct (emits_take_screenshot_unlisted
                  ("subfolder_error_" +:+ _sanitize_filename folder_name') w2)
        as (t3 & Et3 & H3).
      rewrite E3 in Et3 |- *. cbn [snd] in Et3. cbn beta iota.
      eexists _, _, (t1 ++ t2 ++ t3). split_and!; [done| |].
      * by rewrite Et3, E2, E1, <- !List.app_assoc.
      * unfold unlisted in H1, H3. by rewrite !listings_app, H1, H2, H3.
  - eexists _, _, t1. split_and!; [done|done|].
    unfold unlisted in H1. by rewrite H1.
  - destruct (Hquiet ("subfolder_error_" +:+ _sanitize_filename folder_name) w1)
      as (w2 & t2 & E2 & Et2 & H2).
    rewrite E2. eexists _, _, (t1 ++ t2). split_and!; [done| |].
    + by rewrite Et2, E1, <- List.app_assoc.
    + unfold unlisted in H1, H2. by rewrite listings_app, H1, H2.
Qed.

Lemma for_fold_listing recur current_dir folder_url xs :
  visits_one_folder recur ->
  forall items folder_name (w : World Env),
  exists st' w' t,
    for_fold xs (descend_item handle cfg recur current_dir folder_url)
      (items, folder_name) w = (Ok st', w')
    /\ w_trace w' = w_trace w ++ t
    /\ fst st' = default items (last (listings t)).
Proof.
  intros Hrecur. induction xs as [|x xs IH]; intros items folder_name w; cbn [for_fold].
  - eexists _, _, []. split_and!; [done | by rewrite app_nil_r | done].
  - destruct (descend_item_listing recur current_dir folder_url x items folder_name
                w Hrecur) as ([items1 name1] & w1 & seg & E1 & Et1 & H1).
    destruct (IH items1 name1 w1) as (st2 & w2 & t & E2 & Et2 & H2).
    unfold mbind, M_bind. rewrite E1. eexists _, _, (seg ++ t). split_and!; [done| |].
    + by rewrite Et2, Et1, <- List.app_assoc.
    + rewrite listings_app, default_last_app, H2. by rewrite <- H1.
Qed.

(** the first loop hands the rows as last read to the second *)
Lemma descend_subfolders_listing recur current_dir folder_url (w : World Env) :
  visits_one_folder recur ->
  exists t,
    w_trace (snd (descend_subfolders handle cfg recur current_dir folder_url w))
    = w_trace w ++ t
    /\ match fst (descend_subfolders handle cfg recur current_dir folder_url w) with
       | Ok (Some rows) => last_listing t = Some rows
       | _ => last_listing t = None
       end.
Proof.
  intros Hrecur. unfold descend_subfolders, mbind, M_bind.
  destruct (reads_open_listing current_dir folder_url w) as (t0 & E0 & H0).
  destruct (open_listing handle cfg current_dir folder_url w) as [[[items|]|e] w1];
    cbn [fst snd] in *.
  - destruct (for_fold_listing recur current_dir folder_url items Hrecur
                items (Py.basename current_dir) w1) as (st' & w2 & t & E & Et & H).
    rewrite E. unfold mret, M_ret. cbn [fst snd]. exists (t0 ++ t). split.
    + by rewrite Et, E0, <- List.app_assoc.
    + unfold last_listing. rewrite listings_app, H0, H.
      destruct (listings t) as [|rows l] using rev_ind; [by rewrite app_nil_r|].
      by rewrite app_assoc, !last_snoc.
  - exists t0. split; [done|]. unfold last_listing. by rewrite H0.
  - exists t0. split; [done|]. unfold last_listing. by rewrite H0.
Qed.

(** one row of the second loop never raises and starts by asking for the
    row's class *)
Lemma download_item_segment current_dir item (w : World Env) :
  exists w' seg,
    download_item handle cfg current_dir item w = (Ok tt, w')
    /\ w_trace w' = w_trace w ++ seg
    /\ file_segment item seg.
Proof.
  destruct (emits_download_item handle cfg current_dir item w) as (seg & Et & Hseg).
  assert (Hret : returns (download_item handle cfg current_dir item))
    by (unfold download_item; returns_auto).
  destruct (Hret w) as ([] & w' & E). rewrite E in Et. cbn [snd] in Et.
  exists w', seg. split_and!; [done|done|]. split; [|done].
  revert E Et. unfold download_item, try_except.
  unfold mbind at 1, M_bind at 1, call at 1.
  destruct (handle _ (GetAttribute item "class") (w_env w)) as [[classes|e] s1].
  - match goal with |- context [match ?k ?w0 with _ => _ end] =>
      assert (Hk : emits (fun _ => True) k);
        [|destruct (Hk w0) as (t & Ek & _); destruct (k w0) as [[[]|e] w1]]
    end.
    { pose proof (fun url path =>
                    emits_download_file handle cfg (fun _ => True) url path
                      (fun _ _ => I)).
      emits_auto. }
    + intros E Et. simplify_eq. cbn [snd w_trace] in Ek.
      rewrite Ek, <- List.app_assoc in Et. apply app_inv_head in Et as <-.
      by eexists _, _.
    + unfold swallow, mret, M_ret. intros E Et. simplify_eq. cbn [snd w_trace] in Ek.
      rewrite Ek, <- List.app_assoc in Et. apply app_inv_head in Et as <-.
      by eexists _, _.
  - unfold swallow, mret, M_ret. intros E Et. simplify_eq. cbn [w_trace] in Et.
    apply app_inv_head in Et as <-. by eexists _, _.
Qed.

Lemma download_files_segments current_dir rows : forall (w : World Env),
  exists segments,
    w_trace (snd (for_each rows (download_item handle cfg current_dir) w))
    = w_trace w ++ concat segments
    /\ Forall2 file_segment rows segments.
Proof.
  induction rows as [|row rows IH]; intros w; simpl.
  - exists []. split; [by rewrite app_nil_r | constructor].
  - destruct (download_item_segment current_dir row w) as (w1 & seg & E1 & Et1 & Hseg).
    destruct (IH w1) as (segments & Et & Hsegs).
    unfold mbind, M_bind. rewrite E1. exists (seg :: segments). split.
    + simpl. by rewrite Et, Et1, <- List.app_assoc.
    + by constructor.
Qed.

End FolderRows.

(** X22.  The second loop of a folder visit goes through the rows as they
    were last read: the download phase is one run of events per row of the
    last listing that the descent phase read (on entry, or again after a
    descent that returned), in the order of that listing, each beginning
    with the request for the row's class; when no listing was read, nothing
    is downloaded. *)
Theorem process_folder_downloads_last_listing {Env} (handle : Handler Env)
    (cfg : Config) (limit : nat) (current_dir folder_url : string) (w : World Env) :
  exists returned descents downloads,
    w_trace (snd (_process_folder handle cfg (S limit) current_dir folder_url w))
    = w_trace w ++ [ECall (CallFolder current_dir folder_url) returned
                      (descents ++ downloads)]
    /\ files_as_last_read descents downloads.
Proof.
  rewrite process_folder_unfold. unfold scope, mbind, M_bind.
  destruct (descend_subfolders_listing handle cfg (_process_folder handle cfg limit)
              current_dir folder_url w
              (process_folder_visits_one_folder handle cfg limit))
    as (t1 & E1 & Hlast).
  destruct (descend_subfolders _ _ _ _ _ w) as [[[rows|]|e] w1]; cbn [fst snd] in *.
  - destruct (download_files_segments handle cfg current_dir rows w1)
      as (segments & E2 & Hsegs).
    unfold download_files.
    destruct (for_each rows _ w1) as [r2 w2]; cbn [snd] in E2.
    eexists _, t1, (concat segments). split.
    + cbn [snd w_trace]. by rewrite E2, E1, <- List.app_assoc, drop_app_length.
    + exists segments. by rewrite Hlast.
  - eexists _, t1, []. split.
    + unfold download_files, mret, M_ret. cbn [snd w_trace].
      by rewrite E1, drop_app_length, app_nil_r.
    + exists []. rewrite Hlast. by split; [|constructor].
  - eexists _, t1, []. split.
    + cbn [snd w_trace]. by rewrite E1, drop_app_length, app_nil_r.
    + exists []. rewrite Hlast. by split; [|constructor].
Qed.

(** ** The links a page offers *)

Section LinksFound.
Context {Env : Type} (handle : Handler Env).

(** a loop that keeps or appends its element selects a sublist, in order *)
Lemma for_fold_selects {A} (body : A -> list A -> M Env (list A)) xs :
  (forall x st w st' w', body x st w = (Ok st', w') -> st' = st \/ st' = st ++ [x]) ->
  forall st w st' w',
    for_fold xs body st w = (Ok st', w') ->
    exists selected, st' = st ++ selected /\ sublist selected xs.
Proof.
  intros Hbody. induction xs as [|x xs IH]; intros st w st' w' H; simpl in H.
  - unfold mret, M_ret in H. simplify_eq. exists []. by rewrite app_nil_r.
  - apply bind_ok in H as (st1 & w1 & E1 & H).
    apply IH in H as (selected & -> & Hsub).
    apply Hbody in E1 as [->| ->].
    + exists selected. split; [done | by apply sublist_cons].
    + exists (x :: selected). split; [by rewrite <- List.app_assoc | by apply sublist_skip].
Qed.

Lemma find_downloadable_links_selects (w : World Env) links w' :
  _find_downloadable_links handle w = (Ok links, w') ->
  exists anchors w1,
    call handle (FindElements (ByTagName "a")) w = (Ok anchors, w1)
    /\ sublist links anchors.
Proof.
  unfold _find_downloadable_links. intros H.
  apply bind_ok in H as (anchors & w1 & E1 & H). exists anchors, w1. split; [done|].
  apply for_fold_selects in H as (selected & -> & Hsub); [done|].
  clear. intros link st w st' w' H. unfold try_except in H.
  match type of H with context [mbind ?k ?m w] =>
    destruct (mbind k m w) as [[r|e] w1] eqn:E end;
    [|msimpl in H; simplify_eq; by left].
  simplify_eq. apply bind_ok in E as (href & w2 & _ & E).
  destruct (href_downloadable href); msimpl in E; simplify_eq; auto.
Qed.

(** the two extra passes only append *)
Lemma add_new_links_extends candidates links (w : World Env) links' w' :
  add_new_links handle candidates links w = (Ok links', w') ->
  links `prefix_of` links'.
Proof.
  unfold add_new_links.
  apply (for_fold_invariant (fun st => links `prefix_of` st)); [|done].
  intros link st wa st' wb Hst H. unfold try_except in H.
  match type of H with context [mbind ?k ?m wa] =>
    destruct (mbind k m wa) as [[r|e] w1] eqn:E end;
    [|msimpl in H; by simplify_eq].
  simplify_eq. apply bind_ok in E as (href & w2 & _ & E).
  destruct (truthy href); [|msimpl in E; by simplify_eq].
  apply bind_ok in E as (hrefs & w3 & _ & E).
  destruct (negb _); msimpl in E; simplify_eq; [|done].
  by apply prefix_app_r.
Qed.

Lemma find_enhanced_extends (w : World Env) :
  match _find_downloadable_links handle w with
  | (Ok basic, w1) =>
      exists links w', _find_enhanced_download_links handle w = (Ok links, w')
                       /\ basic `prefix_of` links
  | (Raise e, w1) => _find_enhanced_download_links handle w = (Raise e, w1)
  end.
Proof.
  unfold _find_enhanced_download_links.
  destruct (_find_downloadable_links handle w) as [[basic|e] w1] eqn:E0;
    rewrite bind_run, E0; [|done].
  assert (Hpass : forall by_ links (w0 : World Env),
             exists links' w2,
               try_except
                 (candidates ← call handle (FindElements by_);
                  add_new_links handle candidates links)
                 (swallow links) w0 = (Ok links', w2)
               /\ links `prefix_of` links').
  { intros by_ links w0. unfold try_except.
    match goal with |- context [mbind ?k ?m w0] =>
      destruct (mbind k m w0) as [[r|e] w2] eqn:E end.
    - eexists _, _. split; [done|].
      apply bind_ok in E as (candidates & w3 & _ & E).
      by eapply add_new_links_extends.
    - eexists _, _. by split. }
  rewrite bind_run.
  destruct (Hpass (ByCssSelector
              "a.file_download_btn, a.icon-download, a[download], a.instructure_file_link")
              basic w1) as (links1 & w2 & -> & H1).
  match goal with |- context [ByXpath ?x] =>
    destruct (Hpass (ByXpath x) links1 w2) as (links2 & w3 & -> & H2) end.
  eexists _, _. split; [done|]. by etrans.
Qed.

End LinksFound.

(** X23.  [_find_downloadable_links] returns anchors of the page only, in
    page order: its result is a sublist of what the request for the
    page's anchors returned. *)
Theorem find_downloadable_links_keeps_page_order {Env} (handle : Handler Env)
    (w w' : World Env) (links : list Elem) :
  _find_downloadable_links handle w = (Ok links, w') ->
  exists anchors w1,
    call handle (FindElements (ByTagName "a")) w = (Ok anchors, w1)
    /\ sublist links anchors.
Proof. apply find_downloadable_links_selects. Qed.

Lemma find_downloadable_links_keeps_page_order_witness :
  exists anchors w1,
    call (site_handler anchors_site) (FindElements (ByTagName "a"))
      (start_world anchors_page ∅) = (Ok anchors, w1)
    /\ sublist [70; 72] anchors.
Proof.
  apply (find_downloadable_links_keeps_page_order (site_handler anchors_site)
           (start_world anchors_page ∅)
           (snd (_find_downloadable_links (site_handler anchors_site)
                   (start_world anchors_page ∅)))
           [70; 72]).
  vm_compute. reflexivity.
Defined.

(** X24.  [_find_enhanced_download_links] only extends the basic scan: it
    raises exactly when [_find_downloadable_links] raises, and otherwise
    returns a list that begins with the links of the basic scan, in the
    same order; a failure in one of the two extra passes loses nothing. *)
Theorem find_enhanced_download_links_extends {Env} (handle : Handler Env)
    (w : World Env) :
  match _find_downloadable_links handle w with
  | (Ok basic, w1) =>
      exists links w', _find_enhanced_download_links handle w = (Ok links, w')
                       /\ basic `prefix_of` links
  | (Raise e, w1) => _find_enhanced_download_links handle w = (Raise e, w1)
  end.
Proof. apply find_enhanced_extends. Qed.

(** on the fixture page the button is added after the two file links *)
Example find_enhanced_download_links_fixture :
  fst (_find_downloadable_links (site_handler anchors_site)
         (start_world anchors_page ∅)) = Ok [70; 72]
  /\ fst (_find_enhanced_download_links (site_handler anchors_site)
            (start_world anchors_page ∅)) = Ok [70; 72; 73].
Proof. vm_compute. by split. Qed.

Section ClassifiedLinks.
Context {Env : Type} (handle : Handler Env) (cfg : Config).

Lemma emits_module_link_classified module_dir item_name link found :
  emits (Forall classified) (module_link handle cfg module_dir item_name link found).
Proof.
  assert (Requests (Forall classified)) by (apply Forall_requests; by intros []).
  unfold module_link.
  apply emits_try_except; [apply _ | | intros e; apply emits_ret; apply _].
  apply emits_bind; [apply _ | apply emits_call; apply _ | intros link_url].
  destruct (href_downloadable link_url) eqn:Haccepted; cbn [negb];
    [|apply emits_ret; apply _].
  assert (forall name found', emits (Forall classified)
            (download_named handle cfg link_url module_dir name found')).
  { intros name found'. unfold download_named.
    apply emits_bind; [apply _ | | intros ok; apply emits_ret; apply _].
    apply emits_download_file. intros returned body. by repeat constructor. }
  pose proof (emits_name_from_url (Env := Env) cfg (Forall classified)).
  emits_auto.
Qed.

Lemma emits_modules_classified course_id course_name course_dir :
  emits (Forall classified)
    (_process_course_modules handle cfg course_id course_name course_dir).
Proof.
  assert (Requests (Forall classified)) by (apply Forall_requests; by intros []).
  unfold _process_course_modules, module_entry, module_item.
  pose proof (emits_take_screenshot handle (Forall classified)).
  pose proof emits_module_link_classified.
  emits_auto.
Qed.

End ClassifiedLinks.

(** X25.  The modules scan downloads only what the classifier accepted:
    every [_download_file] call of [_process_course_modules] is for a URL
    that is not [None], is not empty, and for which [_is_downloadable_link]
    answers [True]. *)
Theorem modules_download_only_classified_links {Env} (handle : Handler Env)
    (cfg : Config) (course_id course_name course_dir : string) (w : World Env) :
  exists t,
    w_trace (snd (_process_course_modules handle cfg course_id course_name
                    course_dir w))
    = w_trace w ++ t
    /\ Forall classified t.
Proof. apply emits_modules_classified. Qed.
